(** * polybrain-mcp: conversation store, truncation policy, process supervisor

    A shallow embedding of the TypeScript sources

    - [conversation-manager.ts]  (class [ConversationManager]),
    - [logger.ts]                (the logger),
    - [launcher.ts]              (class [ServerLauncher]),
    - [mcp-tools.ts]             (the tool handlers),
    - [bin/polybrain.ts]         ([main]),
    - [openai-client.ts]         (class [OpenAIClient]),
    - [config.ts]                ([resolveEnvVars]),

    followed by the properties the specification states about them.

    Conventions of the embedding.

    - A JavaScript [Map<string, V>] is a [gmap string V].
    - A JavaScript array is a [list]; [Array.prototype.slice] is written
      out with its handling of negative and out-of-range indices.
    - A JavaScript [number] that holds a count, a limit, a status code or a
      time stamp is a [Z].
    - [throw new Error(msg)] is the result [Throw msg]: every error the
      modelled code raises is a plain [Error], told apart by its message only.
    - A thrown error does not roll back earlier mutations, so the state
      monads below return the state next to the result also for [Throw].
    - Calls whose result the program cannot know ([randomUUID], [Date.now],
      an HTTP probe, [lsof], [kill], the model backend) read an oracle that
      is part of the state: the k-th call returns the k-th oracle value.
    - The supervisor's process has its two output streams and the level
      of the logger in its state, and [debugLog] writes to them when debug
      mode is on.  The state of the conversation store has no streams:
      the [logger] calls of the store and of the tool handlers are left
      out there.
    - Every object and array the store holds is created by the operation
      that stores it (the object literal and [messages: []] of
      [createConversation], the result of [map] in [cloneConversation]), so
      no two conversations share one.  An update in place ([push], an
      assignment to [updatedAt] or [messages]) is therefore written as
      storing the updated value under the key of the conversation.  *)

From stdpp Require Import base option list gmap strings fin_maps.
From Stdlib Require Import ZArith Lia Ascii.
From Equations Require Import Equations.

Local Open Scope Z_scope.

(** ** Results and JavaScript truthiness *)

Inductive result (A : Type) : Type :=
| Ok (value : A)
| Throw (message : string).
Arguments Ok {A} value.
Arguments Throw {A} message.

(** [!!s] for a string: only the empty string is falsy. *)
Definition truthy (s : string) : bool :=
  match s with
  | EmptyString => false
  | String _ _ => true
  end.

(** [!!x] for an optional string argument ([undefined] is falsy). *)
Definition truthy_opt (x : option string) : bool :=
  match x with
  | Some s => truthy s
  | None => false
  end.

(** ** Programs: state and exceptions

    [Prog Stt A] is a computation over a state [St] that returns an [A] or
    throws; the state survives a [Throw]. *)
Definition Prog (St A : Type) : Type := St -> result A * St.

Global Instance Prog_ret {St : Type} : MRet (Prog St) := fun A a w => (Ok a, w).

Global Instance Prog_bind {St : Type} : MBind (Prog St) := fun A B f m w =>
  match m w with
  | (Ok a, w') => f a w'
  | (Throw e, w') => (Throw e, w')
  end.

Definition throw {St A : Type} (message : string) : Prog St A :=
  fun w => (Throw message, w).

(** [try { body } catch (error) { handler(error.message) }] *)
Definition try_catch {St A : Type} (body : Prog St A) (handler : string -> Prog St A) : Prog St A :=
  fun w =>
    match body w with
    | (Ok a, w') => (Ok a, w')
    | (Throw e, w') => handler e w'
    end.

(** [for (const x of xs) { body(x) }] *)
Fixpoint for_of {St A : Type} (xs : list A) (body : A -> Prog St unit) : Prog St unit :=
  match xs with
  | [] => mret tt
  | x :: rest => body x;; for_of rest body
  end.

(** ** [Array.prototype.slice]

    [relativeIndex len i] is the clamping ECMAScript applies to both
    arguments of [slice]: a negative index counts from the end and stops at
    0, a non-negative one stops at [len]. *)
Definition relativeIndex (len i : Z) : Z :=
  if i <? 0 then Z.max (len + i) 0 else Z.min i len.

(** [slice start end_ l] is [l.slice(start, end_)]; [end_ = None] is a call
    with a single argument. *)
Definition slice {A : Type} (start : Z) (end_ : option Z) (l : list A) : list A :=
  let len := Z.of_nat (length l) in
  let k := relativeIndex len start in
  let final := match end_ with
               | Some e => relativeIndex len e
               | None => len
               end in
  take (Z.to_nat (final - k)) (drop (Z.to_nat k) l).

(** ** Data model ([types.ts]) *)

Inductive Role : Type := user | assistant.

Record ChatMessage : Type := mkChatMessage {
  role : Role;
  content : string
}.

Record ConversationState : Type := mkConversationState {
  id : string;
  modelId : string;
  messages : list ChatMessage;
  createdAt : Z;
  updatedAt : Z
}.

Global Instance Role_eq_dec : EqDecision Role.
Proof. solve_decision. Defined.

Global Instance ChatMessage_eq_dec : EqDecision ChatMessage.
Proof. solve_decision. Defined.

(** ** The conversation store ([conversation-manager.ts]) *)

(** The two fields of [class ConversationManager]. *)
Record ConversationManager : Type := mkConversationManager {
  conversations : gmap string ConversationState;
  truncateLimit : Z
}.

(** What the host gives the store: the values [randomUUID()] and
    [Date.now()] return at their k-th call, and how often each was called. *)
Record Host : Type := mkHost {
  uuidSource : nat -> string;
  uuidCalls : nat;
  clockSource : nat -> Z;
  clockCalls : nat
}.

Record World : Type := mkWorld {
  host : Host;
  manager : ConversationManager
}.

Abbreviation M := (Prog World).

Definition randomUUID : M string :=
  fun w =>
    let h := host w in
    (Ok (uuidSource h (uuidCalls h)),
     mkWorld (mkHost (uuidSource h) (S (uuidCalls h)) (clockSource h) (clockCalls h))
             (manager w)).

Definition Date_now : M Z :=
  fun w =>
    let h := host w in
    (Ok (clockSource h (clockCalls h)),
     mkWorld (mkHost (uuidSource h) (uuidCalls h) (clockSource h) (S (clockCalls h)))
             (manager w)).

(** [this.conversations.get(key)] *)
Definition conversations_get (key : string) : M (option ConversationState) :=
  fun w => (Ok (conversations (manager w) !! key), w).

(** [this.conversations.set(key, value)], also the write-back of an in-place
    update of the object stored under [key]. *)
Definition conversations_set (key : string) (value : ConversationState) : M unit :=
  fun w =>
    (Ok tt,
     mkWorld (host w)
             (mkConversationManager (<[key := value]> (conversations (manager w)))
                                    (truncateLimit (manager w)))).

Definition this_truncateLimit : M Z :=
  fun w => (Ok (truncateLimit (manager w)), w).

(** The synthetic marker of [truncateMessages]. *)
Definition marker : ChatMessage :=
  mkChatMessage assistant "[... conversation history truncated to save context ...]".

(** [private truncateMessages(messages)], with [this.truncateLimit] as
    [limit].  [Math.floor(limit / 2)] is [limit / 2] on [Z] (floor division),
    and [-kept] is [0] when [kept] is [0]. *)
Definition truncateMessages (limit : Z) (messages : list ChatMessage) : list ChatMessage :=
  if Z.of_nat (length messages) <=? limit then messages
  else
    let kept := limit / 2 in
    let first := slice 0 (Some kept) messages in
    let last := slice (- kept) None messages in
    first ++ [marker] ++ last.

(** [createConversation(modelId)] *)
Definition createConversation (modelId : string) : M string :=
  conversationId ← randomUUID;
  created ← Date_now;
  updated ← Date_now;
  let conversation := mkConversationState conversationId modelId [] created updated in
  conversations_set conversationId conversation;;
  mret conversationId.

(** [getConversation(conversationId)]: [None] is [null]. *)
Definition getConversation (conversationId : string) : M (option ConversationState) :=
  conversations_get conversationId.

(** [getConversationState(conversationId)] *)
Definition getConversationState (conversationId : string) : M (option ConversationState) :=
  getConversation conversationId.

(** [addMessage(conversationId, role, content)] *)
Definition addMessage (conversationId : string) (r : Role) (c : string) : M unit :=
  found ← conversations_get conversationId;
  match found with
  | None => throw ("Conversation not found: " +:+ conversationId)
  | Some conversation =>
      now ← Date_now;
      conversations_set conversationId
        (mkConversationState (id conversation) (modelId conversation)
           (messages conversation ++ [mkChatMessage r c])
           (createdAt conversation) now)
  end.

(** [getHistory(conversationId)] *)
Definition getHistory (conversationId : string) : M (list ChatMessage) :=
  found ← conversations_get conversationId;
  match found with
  | None => throw ("Conversation not found: " +:+ conversationId)
  | Some conversation =>
      limit ← this_truncateLimit;
      mret (truncateMessages limit (messages conversation))
  end.

(** [(msg) => ({ ...msg })]: a new object with the same fields. *)
Definition copyMessage (msg : ChatMessage) : ChatMessage :=
  mkChatMessage (role msg) (content msg).

(** [cloneConversation(sourceConversationId, newModelId)].  [source] is
    read before [createConversation] runs and keeps denoting the object
    that was stored then. *)
Definition cloneConversation (sourceConversationId newModelId : string) : M string :=
  found ← conversations_get sourceConversationId;
  match found with
  | None => throw ("Source conversation not found: " +:+ sourceConversationId)
  | Some source =>
      newConversationId ← createConversation newModelId;
      created ← conversations_get newConversationId;
      match created with
      | None => throw "Failed to create cloned conversation"
      | Some newConversation =>
          now ← Date_now;
          conversations_set newConversationId
            (mkConversationState (id newConversation) (modelId newConversation)
               (map copyMessage (messages source))
               (createdAt newConversation) now);;
          mret newConversationId
      end
  end.

(** ** The logger ([logger.ts]) *)

Module Logger.
Inductive LogLevel : Type := Debug | Info | Warn | Error.

(** [const LOG_LEVELS] *)
Definition LOG_LEVELS (level : LogLevel) : Z :=
  match level with
  | Debug => 0
  | Info => 1
  | Warn => 2
  | Error => 3
  end.

(** [level.toUpperCase()] *)
Definition upper (level : LogLevel) : string :=
  match level with
  | Debug => "DEBUG"
  | Info => "INFO"
  | Warn => "WARN"
  | Error => "ERROR"
  end.

(** The module variable [currentLogLevel] and the two streams of the
    console: [console.log] writes to [out], [console.warn] and
    [console.error] write to [err]. *)
Record t : Type := mk {
  currentLogLevel : LogLevel;
  out : list string;
  err : list string
}.

(** The state when the module is loaded: [let currentLogLevel = 'info']. *)
Definition initial : t := mk Info [] [].

(** One call of [logger.debug], [logger.info], [logger.warn] or
    [logger.error]: its level, the time stamp [new Date().toISOString()]
    gives during the call, the message, and the context as
    [JSON.stringify] renders it ([None] without a context). *)
Record Call : Type := mkCall {
  level : LogLevel;
  timestamp : string;
  message : string;
  context : option string
}.

(** [setLogLevel(level)] *)
Definition setLogLevel (l : LogLevel) (st : t) : t :=
  mk l (out st) (err st).

(** [shouldLog(level)] *)
Definition shouldLog (l : LogLevel) (st : t) : bool :=
  LOG_LEVELS (currentLogLevel st) <=? LOG_LEVELS l.

(** [formatMessage(level, message, context)] *)
Definition formatMessage (c : Call) : string :=
  let contextStr := match context c with
                    | Some json => " " +:+ json
                    | None => EmptyString
                    end in
  "[" +:+ timestamp c +:+ "] [" +:+ upper (level c) +:+ "] " +:+ message c +:+ contextStr.

(** The four methods of [logger]. *)
Definition log (c : Call) (st : t) : t :=
  if shouldLog (level c) st then
    match level c with
    | Debug | Info => mk (currentLogLevel st) (out st ++ [formatMessage c]) (err st)
    | Warn | Error => mk (currentLogLevel st) (out st) (err st ++ [formatMessage c])
    end
  else st.

(** A sequence of calls. *)
Definition log_all (calls : list Call) (st : t) : t :=
  foldl (fun st c => log c st) st calls.

(** The calls of a sequence that are written to [console.log], and those
    written to [console.warn] or [console.error], under the level [l]. *)
Definition to_out (l : LogLevel) (c : Call) : bool :=
  (LOG_LEVELS l <=? LOG_LEVELS (level c)) && (LOG_LEVELS (level c) <=? 1).

Definition to_err (l : LogLevel) (c : Call) : bool :=
  (LOG_LEVELS l <=? LOG_LEVELS (level c)) && (2 <=? LOG_LEVELS (level c)).
End Logger.

(** ** The process supervisor ([launcher.ts]) *)

(** What [http.get(url, { timeout }, callback)] is called with. *)
Record HttpRequest : Type := mkHttpRequest {
  reqHost : string;
  reqPort : Z;
  reqPath : string;
  reqTimeout : Z
}.

(** The events a request can emit: the response callback with a status
    code, ['error'], or ['timeout']. *)
Inductive HttpEvent : Type :=
| EvResponse (statusCode : Z)
| EvError
| EvTimeout.

(** Every request emits at least one event (a response, an error, or the
    idle timeout of 2000 ms); later events find the promise settled. *)
Record HttpTrace : Type := mkHttpTrace {
  firstEvent : HttpEvent;
  laterEvents : list HttpEvent
}.

(** The options object of [spawn] and the later [unref()]. *)
Record ChildProcess : Type := mkChildProcess {
  spawnCommand : string;
  spawnArgs : list string;
  spawnEnv : list (string * string);
  detached : bool;
  stdio : string;
  unrefed : bool;
  killed : bool
}.

(** The shell commands [killServerByPort] runs through [execSync]. *)
Inductive Command : Type :=
| Lsof (port : Z)        (* lsof -i :port -t *)
| Kill9 (pid : string).  (* kill -9 pid *)

(** A value in the context object of a log call: a number, a string, or
    the [name] or the [stack] of the error thrown with a message. *)
Inductive Json : Type :=
| JNum (n : Z)
| JStr (s : string)
| JErrorName (message : string)
| JErrorStack (message : string).

(** The [context] argument of [debugLog] and of [logger.error]: none, an
    object literal with its properties in order, or an [Error]. *)
Inductive LogContext : Type :=
| NoContext
| Fields (fields : list (string * Json))
| OfError (message : string).

(** The fields of [class ServerLauncher] ([serverProcess], [port]), the
    module variable of the logger, the two output streams of the process,
    the oracles of the operating system and of the runtime, and the log of
    what was asked of them.  A child run by [execSync] inherits the
    standard error of the process; its standard output is a pipe. *)
Record Sys : Type := mkSys {
  serverProcess : option ChildProcess;
  port : Z;
  serverScript : string;  (* path.resolve(__dirname, '..', 'index.js') *)
  probeSource : nat -> HttpTrace;  (* events of the k-th request *)
  requestLog : list HttpRequest;  (* requests issued, oldest first *)
  spawnLog : list ChildProcess;  (* processes spawned, oldest first *)
  sleepLog : list Z;  (* setTimeout delays awaited, oldest first *)
  lsofSource : result string;  (* stdout of lsof, or its failure *)
  killSource : nat -> result unit;  (* outcome of the k-th kill *)
  execLog : list Command;  (* commands run, oldest first *)
  stdout : list string;  (* writes to standard output, oldest first *)
  stderr : list string;  (* writes to standard error, oldest first *)
  lsofStderr : list string;  (* what lsof and its shell write to standard error *)
  killStderr : nat -> list string;  (* what the k-th kill writes to standard error *)
  logLevel : Logger.LogLevel;  (* currentLogLevel of logger.ts *)
  dateSource : nat -> string;  (* new Date().toISOString(), k-th call *)
  dateCalls : nat;
  stringify : list (string * Json) -> string  (* JSON.stringify *)
}.

Abbreviation L := (Prog Sys).

Definition set_serverProcess (p : option ChildProcess) (w : Sys) : Sys :=
  mkSys p (port w) (serverScript w) (probeSource w) (requestLog w) (spawnLog w)
        (sleepLog w) (lsofSource w) (killSource w) (execLog w) (stdout w) (stderr w)
        (lsofStderr w) (killStderr w) (logLevel w) (dateSource w) (dateCalls w)
        (stringify w).

Definition log_request (r : HttpRequest) (w : Sys) : Sys :=
  mkSys (serverProcess w) (port w) (serverScript w) (probeSource w)
        (requestLog w ++ [r]) (spawnLog w) (sleepLog w) (lsofSource w) (killSource w)
        (execLog w) (stdout w) (stderr w) (lsofStderr w) (killStderr w) (logLevel w)
        (dateSource w) (dateCalls w) (stringify w).

Definition log_spawn (p : ChildProcess) (w : Sys) : Sys :=
  mkSys (serverProcess w) (port w) (serverScript w) (probeSource w) (requestLog w)
        (spawnLog w ++ [p]) (sleepLog w) (lsofSource w) (killSource w) (execLog w)
        (stdout w) (stderr w) (lsofStderr w) (killStderr w) (logLevel w) (dateSource w)
        (dateCalls w) (stringify w).

Definition log_sleep (ms : Z) (w : Sys) : Sys :=
  mkSys (serverProcess w) (port w) (serverScript w) (probeSource w) (requestLog w)
        (spawnLog w) (sleepLog w ++ [ms]) (lsofSource w) (killSource w) (execLog w)
        (stdout w) (stderr w) (lsofStderr w) (killStderr w) (logLevel w) (dateSource w)
        (dateCalls w) (stringify w).

Definition log_exec (c : Command) (w : Sys) : Sys :=
  mkSys (serverProcess w) (port w) (serverScript w) (probeSource w) (requestLog w)
        (spawnLog w) (sleepLog w) (lsofSource w) (killSource w) (execLog w ++ [c])
        (stdout w) (stderr w) (lsofStderr w) (killStderr w) (logLevel w) (dateSource w)
        (dateCalls w) (stringify w).

Definition log_stdout (line : string) (w : Sys) : Sys :=
  mkSys (serverProcess w) (port w) (serverScript w) (probeSource w) (requestLog w)
        (spawnLog w) (sleepLog w) (lsofSource w) (killSource w) (execLog w)
        (stdout w ++ [line]) (stderr w) (lsofStderr w) (killStderr w) (logLevel w)
        (dateSource w) (dateCalls w) (stringify w).

Definition log_stderr (line : string) (w : Sys) : Sys :=
  mkSys (serverProcess w) (port w) (serverScript w) (probeSource w) (requestLog w)
        (spawnLog w) (sleepLog w) (lsofSource w) (killSource w) (execLog w) (stdout w)
        (stderr w ++ [line]) (lsofStderr w) (killStderr w) (logLevel w) (dateSource w)
        (dateCalls w) (stringify w).

(** What a child process writes to the standard error it inherits. *)
Definition child_stderr (written : list string) (w : Sys) : Sys :=
  mkSys (serverProcess w) (port w) (serverScript w) (probeSource w) (requestLog w)
        (spawnLog w) (sleepLog w) (lsofSource w) (killSource w) (execLog w) (stdout w)
        (stderr w ++ written) (lsofStderr w) (killStderr w) (logLevel w) (dateSource w)
        (dateCalls w) (stringify w).

(** [currentLogLevel = level] *)
Definition set_logLevel (level : Logger.LogLevel) (w : Sys) : Sys :=
  mkSys (serverProcess w) (port w) (serverScript w) (probeSource w) (requestLog w)
        (spawnLog w) (sleepLog w) (lsofSource w) (killSource w) (execLog w) (stdout w)
        (stderr w) (lsofStderr w) (killStderr w) level (dateSource w) (dateCalls w)
        (stringify w).

(** The logger of [logger.ts] as the supervisor's process sees it. *)
Definition logger_of (w : Sys) : Logger.t :=
  Logger.mk (logLevel w) (stdout w) (stderr w).

(** The process after the logger wrote [lines] lines and is in the state [st]. *)
Definition with_logger (st : Logger.t) (lines : nat) (w : Sys) : Sys :=
  mkSys (serverProcess w) (port w) (serverScript w) (probeSource w) (requestLog w)
        (spawnLog w) (sleepLog w) (lsofSource w) (killSource w) (execLog w)
        (Logger.out st) (Logger.err st) (lsofStderr w) (killStderr w)
        (Logger.currentLogLevel st) (dateSource w) (dateCalls w + lines)%nat
        (stringify w).

(** [http://localhost:${this.port}/health] with [{ timeout: 2000 }] *)
Definition healthRequest (p : Z) : HttpRequest :=
  mkHttpRequest "localhost" p "/health" 2000.

(** Whether [http://localhost:${port}/health] parses as a URL: the port
    of a URL is a decimal number from 0 to 65535.  (A port that is not an
    integer does not parse either; the ports of this model are integers.) *)
Definition valid_port (p : Z) : bool := (0 <=? p) && (p <=? 65535).

(** The value the promise of [isServerRunning] is resolved with by the
    handler of each event: [resolve(res.statusCode === 200)] for a response,
    [resolve(false)] for ['error'] and, after [request.destroy()], for
    ['timeout']. *)
Definition resolved_by (e : HttpEvent) : bool :=
  match e with
  | EvResponse statusCode => statusCode =? 200
  | EvError => false
  | EvTimeout => false
  end.

(** A promise keeps the value of the first [resolve]. *)
Definition settle (t : HttpTrace) : bool := resolved_by (firstEvent t).

(** [isServerRunning()].  [http.get] parses the URL before it issues the
    request and throws a [TypeError] with the message [Invalid URL] when
    the port is out of range; thrown inside the executor, it rejects the
    promise.  Once the request is issued the executor only resolves. *)
Definition isServerRunning : L bool :=
  fun w =>
    if valid_port (port w) then
      let t := probeSource w (length (requestLog w)) in
      (Ok (settle t), log_request (healthRequest (port w)) w)
    else (Throw "Invalid URL", w).

(** [logger.debug], [logger.info], [logger.warn] and [logger.error] with
    an object or no context: one line, stamped with the time of the call,
    if the level passes [shouldLog]. *)
Definition logger_call (level : Logger.LogLevel) (message : string)
    (context : option (list (string * Json))) : L unit :=
  fun w =>
    let c := Logger.mkCall level (dateSource w (dateCalls w)) message
               (stringify w <$> context) in
    (Ok tt, with_logger (Logger.log c (logger_of w))
                        (if Logger.shouldLog level (logger_of w) then 1 else 0) w).

(** [logger.error(message, context)]: an [Error] is logged as
    [{ error: context.message, stack: context.stack }]. *)
Definition logger_error (message : string) (context : LogContext) : L unit :=
  match context with
  | OfError e =>
      logger_call Logger.Error message (Some [("error", JStr e); ("stack", JErrorStack e)])
  | Fields fields => logger_call Logger.Error message (Some fields)
  | NoContext => logger_call Logger.Error message None
  end.

(** [debugLog(level, message, context)] of [launcher.ts]; [debug] is
    [process.env.POLYBRAIN_DEBUG === 'true'].  An [Error] below the level
    [error] is logged as [{ name, message, stack }]; every other context is
    handed to the method of the logger for the level. *)
Definition debugLog (debug : bool) (level : Logger.LogLevel) (message : string)
    (context : LogContext) : L unit :=
  if debug then
    match context with
    | OfError e =>
        match level with
        | Logger.Error => logger_error message (OfError e)
        | _ =>
            logger_call level message
              (Some [("name", JErrorName e); ("message", JStr e); ("stack", JErrorStack e)])
        end
    | Fields fields => logger_call level message (Some fields)
    | NoContext => logger_call level message None
    end
  else mret tt.

(** [spawn('node', [serverScript], { env, detached: true, stdio: 'ignore' })]
    followed by [this.serverProcess.unref()]. *)
Definition spawn_server : L unit :=
  fun w =>
    let child := mkChildProcess "node" [serverScript w]
                   [("POLYBRAIN_HTTP_SERVER_ONLY", "true")] true "ignore" true false in
    (Ok tt, log_spawn child (set_serverProcess (Some child) w)).

(** [await new Promise((resolve) => setTimeout(resolve, ms))] *)
Definition sleep (ms : Z) : L unit :=
  fun w => (Ok tt, log_sleep ms w).

(** [this.port] *)
Definition this_port : L Z := fun w => (Ok (port w), w).

(** [debugLog(level, message, { port: this.port })] *)
Definition debugLog_port (debug : bool) (level : Logger.LogLevel) (message : string)
  : L unit :=
  p ← this_port;
  debugLog debug level message (Fields [("port", JNum p)]).

(** The [while (retries < maxRetries)] loop of [startServer]. *)
Equations pollLoop (debug : bool) (maxRetries retries : nat) : L unit
  by wf (maxRetries - retries)%nat lt :=
  pollLoop debug maxRetries retries with decide (retries < maxRetries)%nat := {
    | left _ =>
        isRunning ← isServerRunning;
        if isRunning : bool then debugLog_port debug Logger.Info "HTTP server is ready"
        else sleep 1000;; pollLoop debug maxRetries (S retries)
    | right _ => throw "Server failed to start within timeout" }.
Next Obligation. lia. Qed.

(** [startServer()]: the [catch] logs and rethrows. *)
Definition startServer (debug : bool) : L unit :=
  try_catch
    (script ← (fun w => (Ok (serverScript w), w));
     p ← this_port;
     debugLog debug Logger.Debug "Starting HTTP server"
       (Fields [("script", JStr script); ("port", JNum p)]);;
     spawn_server;;
     pollLoop debug 30 0)
    (fun error =>
       debugLog debug Logger.Error "Failed to start HTTP server" (OfError error);;
       throw error).

(** [ensureServerRunning()]: the [catch] logs and rethrows. *)
Definition ensureServerRunning (debug : bool) : L unit :=
  try_catch
    (isRunning ← isServerRunning;
     if negb isRunning then
       debugLog debug Logger.Info "Server not running, starting it..." NoContext;;
       startServer debug
     else debugLog debug Logger.Debug "Server already running" NoContext)
    (fun error =>
       debugLog debug Logger.Error "Error ensuring server is running" (OfError error);;
       throw error).

(** ** String helpers used by [killServerByPort]

    The output of [lsof -t] is ASCII; of the white space [String.prototype.trim]
    removes, the ASCII part is tab, line feed, vertical tab, form feed,
    carriage return and space. *)
Definition is_white_space (a : ascii) : bool :=
  let n := nat_of_ascii a in
  ((9 <=? n) && (n <=? 13) || (n =? 32))%nat.

Fixpoint trimStart (s : string) : string :=
  match s with
  | EmptyString => EmptyString
  | String a rest => if is_white_space a then trimStart rest else s
  end.

Fixpoint trimEnd (s : string) : string :=
  match s with
  | EmptyString => EmptyString
  | String a rest =>
      match trimEnd rest with
      | EmptyString => if is_white_space a then EmptyString else String a EmptyString
      | kept => String a kept
      end
  end.

Definition trim (s : string) : string := trimEnd (trimStart s).

(** [s.split(sep)] for a one-character separator. *)
Fixpoint split (sep : ascii) (s : string) : list string :=
  match s with
  | EmptyString => [EmptyString]
  | String a rest =>
      if decide (a = sep) then EmptyString :: split sep rest
      else match split sep rest with
           | [] => [String a EmptyString]
           | piece :: pieces => String a piece :: pieces
           end
  end.

Definition LF : ascii := ascii_of_nat 10.

(** [execSync(`lsof -i :${this.port} -t`, { encoding: 'utf-8' })]: returns
    what the command wrote to its standard output and throws when the
    command fails; what it wrote to standard error is on the standard error
    of the process either way. *)
Definition execSync_lsof : L string :=
  fun w => (lsofSource w, child_stderr (lsofStderr w) (log_exec (Lsof (port w)) w)).

(** Number of [kill] commands run so far. *)
Definition is_kill (c : Command) : bool :=
  match c with
  | Kill9 _ => true
  | Lsof _ => false
  end.

Definition killCalls (w : Sys) : nat :=
  length (List.filter is_kill (execLog w)).

(** [execSync(`kill -9 ${pid}`)]: throws when the command fails. *)
Definition execSync_kill (pid : string) : L unit :=
  fun w =>
    (killSource w (killCalls w),
     child_stderr (killStderr w (killCalls w)) (log_exec (Kill9 pid) w)).

(** The body of [for (const pid of pids)]: [String(e)] of the error
    [execSync] throws is its message after [Error: ]. *)
Definition kill_pid (debug : bool) (pid : string) : L unit :=
  try_catch
    (execSync_kill pid;;
     p ← this_port;
     debugLog debug Logger.Info "Killed server process"
       (Fields [("pid", JStr pid); ("port", JNum p)]))
    (fun e =>
       debugLog debug Logger.Debug "Failed to kill process"
         (Fields [("pid", JStr pid); ("error", JStr ("Error: " +:+ e))])).

(** The second [try] of [killServerByPort]: [lsof] and the loop over the
    pids it lists. *)
Definition lsof_and_kill (debug : bool) : L unit :=
  try_catch
    (out ← execSync_lsof;
     let result := trim out in
     if truthy result then
       let pids := filter (fun pid => (0 < String.length pid)%nat) (split LF result) in
       for_of pids (kill_pid debug)
     else debugLog_port debug Logger.Debug "No process found on port")
    (fun e =>
       debugLog_port debug Logger.Debug "lsof command failed or no process on port").

(** [killServerByPort()]: three nested [try] blocks, none of which
    rethrows. *)
Definition killServerByPort (debug : bool) : L unit :=
  try_catch
    (debugLog_port debug Logger.Debug "Attempting to kill server on port";;
     lsof_and_kill debug)
    (fun error => debugLog debug Logger.Warn "Error killing server" (OfError error)).

(** ** The launcher executable ([bin/polybrain.ts]) *)

Module ModelConfig.
Record t : Type := mk {
  id : string;
  modelName : string;
  baseUrl : string;
  apiKey : string
}.
End ModelConfig.

Module ServerConfig.
Record t : Type := mk {
  models : list ModelConfig.t;
  truncateLimit : Z;
  httpPort : Z
}.
End ServerConfig.

(** How the process goes on after [main]: [process.exit(code)], or it stays
    alive serving the protocol. *)
Inductive ProcessOutcome : Type :=
| Exited (code : Z)
| KeepsRunning.

(** [new ServerLauncher(config.httpPort)] *)
Definition new_ServerLauncher (p : Z) (w : Sys) : Sys :=
  mkSys None p (serverScript w) (probeSource w) (requestLog w) (spawnLog w) (sleepLog w)
        (lsofSource w) (killSource w) (execLog w) (stdout w) (stderr w) (lsofStderr w)
        (killStderr w) (logLevel w) (dateSource w) (dateCalls w) (stringify w).

Definition console_log (line : string) : L unit :=
  fun w => (Ok tt, log_stdout line w).

Definition console_error (line : string) : L unit :=
  fun w => (Ok tt, log_stderr line w).

(** [setLogLevel(level)] *)
Definition setLogLevel (level : Logger.LogLevel) : L unit :=
  fun w => (Ok tt, set_logLevel level w).

(** [main()].  [debug] is [process.env.POLYBRAIN_DEBUG === 'true'],
    [argv2] is [process.argv[2]], [loadConfig] the outcome of the
    configuration loader, and [launch] the rest of [main] (the start of the
    stdio server), which runs only without [--restart].  What the loader
    itself logs on its way is not part of the streams here. *)
Definition main (debug : bool) (argv2 : option string) (loadConfig : result ServerConfig.t)
    (launch : L ProcessOutcome) : L ProcessOutcome :=
  if decide (argv2 = Some "--restart") then
    try_catch
      ((if debug then mret tt else setLogLevel Logger.Error);;
       config ← (fun w => (loadConfig, w));
       (fun w => (Ok tt, new_ServerLauncher (ServerConfig.httpPort config) w));;
       killServerByPort debug;;
       console_log "✓ Server restarted successfully";;
       mret (Exited 0))
      (fun errorMessage =>
         console_error ("Error during restart: " +:+ errorMessage);;
         mret (Exited 1))
  else launch.

(** ** The [chat] tool ([mcp-tools.ts]) *)

Module OpenAIClient.
Record t : Type := mk {
  apiKey : string;
  baseUrl : string
}.
End OpenAIClient.

(** What [client.chat] resolves with. *)
Record ChatReply : Type := mkChatReply {
  replyContent : string;
  replyReasoning : option string
}.

(** The text of a tool result: a plain string, or the object the handler
    passes to [JSON.stringify] on success. *)
Inductive ToolText : Type :=
| PlainText (text : string)
| ChatJson (conversationId response : string) (reasoning : option string) (modelId : string).

(** [client.chat(actualModelId, history, { reasoning })], a call to the
    model provider: it resolves with a reply or rejects with an error. *)
Definition Backend : Type :=
  OpenAIClient.t -> string -> list ChatMessage -> option bool -> result ChatReply.

(** [config.models[0].id]: reading [id] of [undefined] throws a [TypeError]. *)
Definition first_model_id (config : ServerConfig.t) : M string :=
  match ServerConfig.models config with
  | m :: _ => mret (ModelConfig.id m)
  | [] => throw "Cannot read properties of undefined (reading 'id')"
  end.

(** The handler from [// Validate model exists] to its last [return].  (A
    later revision of the file looks up the configuration of the model
    after the check for the client; up to that check the two agree.) *)
Definition chat_turn (openaiClients : gmap string OpenAIClient.t) (backend : Backend)
    (message : string) (reasoning : option bool)
    (actualConversationId actualModelId : string) : M ToolText :=
  match openaiClients !! actualModelId with
  | None => mret (PlainText ("Error: Model not configured: " +:+ actualModelId))
  | Some client =>
      addMessage actualConversationId user message;;
      history ← getHistory actualConversationId;
      response ← (fun w => (backend client actualModelId history reasoning, w));
      addMessage actualConversationId assistant (replyContent response);;
      mret (ChatJson actualConversationId (replyContent response)
                     (replyReasoning response) actualModelId)
  end.

(** The handler registered for [chat].  [argConversationId] and
    [argModelId] are the optional arguments [conversationId] and [modelId];
    [if (conversationId)], [modelId && ...] and [modelId || ...] test
    JavaScript truthiness, so an empty string counts as absent. *)
Definition chat (openaiClients : gmap string OpenAIClient.t) (config : ServerConfig.t)
    (backend : Backend) (message : string) (argConversationId argModelId : option string)
    (reasoning : option bool) : M ToolText :=
  let continue_with := chat_turn openaiClients backend message reasoning in
  let create_new : M ToolText :=
    actualModelId ← (match argModelId with
                     | Some mid => if truthy mid then mret mid else first_model_id config
                     | None => first_model_id config
                     end);
    actualConversationId ← createConversation actualModelId;
    continue_with actualConversationId actualModelId in
  try_catch
    (match argConversationId with
     | Some cid =>
         if truthy cid then
           found ← getConversation cid;
           match found with
           | None => mret (PlainText ("Error: Conversation not found: " +:+ cid))
           | Some existing =>
               match argModelId with
               | Some mid =>
                   if truthy mid && negb (bool_decide (mid = modelId existing)) then
                     actualConversationId ← cloneConversation cid mid;
                     continue_with actualConversationId mid
                   else continue_with cid (modelId existing)
               | None => continue_with cid (modelId existing)
               end
           end
         else create_new
     | None => create_new
     end)
    (fun errorMessage => mret (PlainText ("Error: " +:+ errorMessage))).

(** * Vocabulary of the specification *)

(** The truncated view in the words of the specification: the list itself
    when it fits, otherwise the first [k] messages, the marker, and the
    last [k] messages, with [k = floor (limit / 2)]. *)
Definition truncate_spec (limit : Z) (l : list ChatMessage) : list ChatMessage :=
  if Z.of_nat (length l) <=? limit then l
  else
    let k := Z.to_nat (limit / 2) in
    take k l ++ [marker] ++ drop (length l - k) l.

(** The conversations of a world, and the identifier the next
    [randomUUID()] returns. *)
Definition store (w : World) : gmap string ConversationState :=
  conversations (manager w).

Definition next_uuid (w : World) : string :=
  uuidSource (host w) (uuidCalls (host w)).

(** An error message that reports an unknown conversation: the text thrown
    by [addMessage] and [getHistory], or the one thrown by
    [cloneConversation]. *)
Definition NotFound (cid message : string) : Prop :=
  message = "Conversation not found: " +:+ cid \/
  message = "Source conversation not found: " +:+ cid.

(** The operations of the store as a caller can issue them. *)
Inductive StoreOp : Type :=
| OpCreate (model : string)
| OpGet (cid : string)
| OpAppend (cid : string) (r : Role) (c : string)
| OpHistory (cid : string)
| OpClone (source model : string).

(** The world after an operation, whether it returned or threw. *)
Definition after (op : StoreOp) (w : World) : World :=
  match op with
  | OpCreate model => snd (createConversation model w)
  | OpGet cid => snd (getConversation cid w)
  | OpAppend cid r c => snd (addMessage cid r c w)
  | OpHistory cid => snd (getHistory cid w)
  | OpClone source model => snd (cloneConversation source model w)
  end.

(** The operations that call [randomUUID]. *)
Definition allocates (op : StoreOp) : bool :=
  match op with
  | OpCreate _ | OpClone _ _ => true
  | OpGet _ | OpAppend _ _ _ | OpHistory _ => false
  end.

(** The message an [addMessage(cid, role, content)] call stores. *)
Definition message_of_call (call : Role * string) : ChatMessage :=
  mkChatMessage (fst call) (snd call).

(** A sequence of [addMessage] calls on one conversation. *)
Definition append_all (cid : string) (calls : list (Role * string)) : M unit :=
  for_of calls (fun call => addMessage cid (fst call) (snd call)).

(** Create a conversation, append to it, read its history. *)
Definition fresh_conversation_history (model : string) (calls : list (Role * string))
  : M (list ChatMessage) :=
  cid ← createConversation model;
  append_all cid calls;;
  getHistory cid.

(** Every stored conversation carries its key as its [id]. *)
Definition keyed_by_id (w : World) : Prop :=
  forall cid conv, store w !! cid = Some conv -> id conv = cid.

(** What an operation may do to a stored conversation: keep its id and its
    model, and extend its message list. *)
Definition extends (before after : ConversationState) : Prop :=
  id after = id before /\
  modelId after = modelId before /\
  messages before `prefix_of` messages after /\
  (length (messages before) <= length (messages after))%nat.

(** The world after a sequence of operations. *)
Fixpoint after_all (ops : list StoreOp) (w : World) : World :=
  match ops with
  | [] => w
  | op :: rest => after_all rest (after op w)
  end.

(** Along a sequence of operations, every identifier drawn is unused at the
    moment it is drawn. *)
Fixpoint fresh_run (ops : list StoreOp) (w : World) : Prop :=
  match ops with
  | [] => True
  | op :: rest =>
      (allocates op = true -> store w !! next_uuid w = None) /\
      fresh_run rest (after op w)
  end.

(** The supervisor's state after [probes] further health requests and
    [sleeps] further one-second waits. *)
Definition after_polls (probes sleeps : nat) (w : Sys) : Sys :=
  mkSys (serverProcess w) (port w) (serverScript w) (probeSource w)
        (requestLog w ++ replicate probes (healthRequest (port w))) (spawnLog w)
        (sleepLog w ++ replicate sleeps 1000) (lsofSource w) (killSource w) (execLog w)
        (stdout w) (stderr w) (lsofStderr w) (killStderr w) (logLevel w) (dateSource w)
        (dateCalls w) (stringify w).

(** The child process [startServer] spawns. *)
Definition server_child (w : Sys) : ChildProcess :=
  mkChildProcess "node" [serverScript w]
    [("POLYBRAIN_HTTP_SERVER_ONLY", "true")] true "ignore" true false.

(** The supervisor's state right after the spawn. *)
Definition after_spawn (w : Sys) : Sys :=
  log_spawn (server_child w) (set_serverProcess (Some (server_child w)) w).

(** Whether the [k]-th health request of a run finds the server: the
    request can be made, and the first event it emits is a response with
    status 200. *)
Definition probe_answer (w : Sys) (k : nat) : bool :=
  valid_port (port w) && settle (probeSource w k).

(** The supervisor's state after a call of [debugLog]. *)
Definition said (debug : bool) (level : Logger.LogLevel) (message : string)
    (context : LogContext) (w : Sys) : Sys :=
  snd (debugLog debug level message context w).

(** The pids [killServerByPort] reads off the output of [lsof]. *)
Definition listed_pids (out : string) : list string :=
  filter (fun pid => (0 < String.length pid)%nat) (split LF (trim out)).

(** The supervisor's state after running further commands. *)
Definition ran (cmds : list Command) (w : Sys) : Sys :=
  mkSys (serverProcess w) (port w) (serverScript w) (probeSource w) (requestLog w)
        (spawnLog w) (sleepLog w) (lsofSource w) (killSource w) (execLog w ++ cmds)
        (stdout w) (stderr w) (lsofStderr w) (killStderr w) (logLevel w) (dateSource w)
        (dateCalls w) (stringify w).

(** The commands one call of [killServerByPort] runs. *)
Definition reclaim_commands (w : Sys) : list Command :=
  Lsof (port w) ::
  match lsofSource w with
  | Ok out => map Kill9 (listed_pids out)
  | Throw _ => []
  end.

(** The supervisor's state without what was written to standard output,
    and without what was written to either stream: the time stamps of the
    lines go with the lines. *)
Definition hush (w : Sys) : Sys :=
  mkSys (serverProcess w) (port w) (serverScript w) (probeSource w) (requestLog w)
        (spawnLog w) (sleepLog w) (lsofSource w) (killSource w) (execLog w) []
        (stderr w) (lsofStderr w) (killStderr w) (logLevel w) (dateSource w) 0
        (stringify w).

Definition mute (w : Sys) : Sys :=
  mkSys (serverProcess w) (port w) (serverScript w) (probeSource w) (requestLog w)
        (spawnLog w) (sleepLog w) (lsofSource w) (killSource w) (execLog w) []
        [] (lsofStderr w) (killStderr w) (logLevel w) (dateSource w) 0
        (stringify w).

(** Two programs that differ only in what [erase] forgets: from states
    that agree up to [erase] they return the same and end in states that
    agree up to [erase]. *)
Definition alike {A : Type} (erase : Sys -> Sys) (f g : L A) : Prop :=
  forall w1 w2,
    erase w1 = erase w2 ->
    fst (f w1) = fst (g w2) /\ erase (snd (f w1)) = erase (snd (g w2)).

(** What the children of one call of [killServerByPort] write to the
    standard error they inherit: [lsof] first, then each [kill] in turn. *)
Definition reclaim_stderr (w : Sys) : list string :=
  lsofStderr w ++
  match lsofSource w with
  | Ok out =>
      concat (imap (fun i _ => killStderr w (killCalls w + i)%nat) (listed_pids out))
  | Throw _ => []
  end.

(** The supervisor's state after one call of [killServerByPort], up to
    the debug lines: the commands are logged, and what the children wrote
    is on standard error. *)
Definition reclaimed (w : Sys) : Sys :=
  child_stderr (reclaim_stderr w) (ran (reclaim_commands w) w).

Arguments said : simpl never.

(** The model a [chat] call without a usable conversation id resolves to:
    [modelId || config.models[0].id]. *)
Definition resolved_model (config : ServerConfig.t) (argModelId : option string)
  : option string :=
  match argModelId with
  | Some mid =>
      if truthy mid then Some mid
      else ModelConfig.id <$> head (ServerConfig.models config)
  | None => ModelConfig.id <$> head (ServerConfig.models config)
  end.

(** The one-character string holding a line feed. *)
Definition line_feed : string := String LF EmptyString.

(** ** Concrete worlds for the examples *)

Definition example_host : Host :=
  mkHost (fun k => if (k =? 0)%nat then "uuid-0" else "uuid-n") 0
         (fun k => 1700000000000 + Z.of_nat k) 0.

Definition example_world (limit : Z) (convs : gmap string ConversationState) : World :=
  mkWorld example_host (mkConversationManager convs limit).

Definition m1 : ChatMessage := mkChatMessage user "hello".
Definition m2 : ChatMessage := mkChatMessage assistant "hi there".
Definition m3 : ChatMessage := mkChatMessage user "and then?".

Definition example_conversation (l : list ChatMessage) : ConversationState :=
  mkConversationState "c1" "model-a" l 1600000000000 1600000000001.

Definition example_store (l : list ChatMessage) : gmap string ConversationState :=
  {[ "c1" := example_conversation l ]}.

(** What stands in for [JSON.stringify] in the examples: it lists the
    keys of the context. *)
Definition example_stringify (fields : list (string * Json)) : string :=
  "{" +:+ String.concat "," (map fst fields) +:+ "}".

Definition example_sys (probes : nat -> HttpTrace) (lsof : result string)
    (kills : nat -> result unit) : Sys :=
  mkSys None 32701 "/opt/polybrain/dist/index.js" probes [] [] [] lsof kills [] [] []
        [] (fun _ => []) Logger.Info (fun _ => "2025-01-01T00:00:00.000Z") 0
        example_stringify.

(** The same process with children that complain: [lsof] writes
    [lsofErr], every [kill] writes [killErr]. *)
Definition example_sys_noisy (lsof : result string) (kills : nat -> result unit)
    (lsofErr killErr : list string) : Sys :=
  mkSys None 32701 "/opt/polybrain/dist/index.js" (fun _ => mkHttpTrace EvTimeout [])
        [] [] [] lsof kills [] [] []
        lsofErr (fun _ => killErr) Logger.Info (fun _ => "2025-01-01T00:00:00.000Z") 0
        example_stringify.

Definition example_config : ServerConfig.t :=
  ServerConfig.mk [ModelConfig.mk "model-a" "gpt-a" "https://api.example/v1" "key-a"]
                  500 32701.

Definition example_clients : gmap string OpenAIClient.t :=
  {[ "model-a" := OpenAIClient.mk "key-a" "https://api.example/v1" ]}.

Definition example_backend : Backend :=
  fun _ _ _ _ => Ok (mkChatReply "fine" None).

(** * Further vocabulary: the store *)

(** The key an operation may write to: the given id for an append, the
    identifier drawn for a create or a clone, none for a read. *)
Definition written_key (op : StoreOp) (w : World) : option string :=
  match op with
  | OpCreate _ | OpClone _ _ => Some (next_uuid w)
  | OpAppend cid _ _ => Some cid
  | OpGet _ | OpHistory _ => None
  end.

(** [Date.now()] never goes back. *)
Definition clock_monotone (w : World) : Prop :=
  forall i j, (i <= j)%nat -> clockSource (host w) i <= clockSource (host w) j.

(** Every stored conversation was created no later than it was last
    updated, and last updated no later than the next reading of the clock. *)
Definition times_ordered (w : World) : Prop :=
  forall cid conv,
    store w !! cid = Some conv ->
    createdAt conv <= updatedAt conv /\
    updatedAt conv <= clockSource (host w) (clockCalls (host w)).

(** * Further embeddings: the other tools of [mcp-tools.ts] *)

(** Whether the [chat] handler continues the stored conversation with its
    own model: the negation of [modelId && modelId !== existing.modelId]. *)
Definition keeps_model (argModelId : option string) (existing : ConversationState) : bool :=
  match argModelId with
  | Some mid => negb (truthy mid && negb (bool_decide (mid = modelId existing)))
  | None => true
  end.

(** The text of a result of the [conversation_history] tool: a plain
    string, or the object passed to [JSON.stringify]. *)
Inductive HistoryText : Type :=
| HistoryPlain (text : string)
| HistoryJson (conversationId modelId : string) (messages : list ChatMessage).

(** The handler registered for [conversation_history]. *)
Definition conversation_history (conversationId : string) : M HistoryText :=
  try_catch
    (conversation ← getConversationState conversationId;
     match conversation with
     | None => mret (HistoryPlain ("Error: Conversation not found: " +:+ conversationId))
     | Some conversation =>
         history ← getHistory conversationId;
         mret (HistoryJson conversationId (modelId conversation) history)
     end)
    (fun errorMessage => mret (HistoryPlain ("Error: " +:+ errorMessage))).

(** [ModelInfo] of [types.ts]: what [list_models] shows of a model. *)
Module ModelInfo.
Record t : Type := mk {
  id : string;
  modelName : string;
  baseUrl : string
}.
End ModelInfo.

(** The handler registered for [list_models]: the object passed to
    [JSON.stringify] is [{ models }]. *)
Definition list_models (config : ServerConfig.t) : list ModelInfo.t :=
  map (fun m => ModelInfo.mk (ModelConfig.id m) (ModelConfig.modelName m)
                             (ModelConfig.baseUrl m))
      (ServerConfig.models config).

(** The loop of [startServerOnly], [startStdioMode] and [main] that fills
    [openaiClients]: [for (const model of config.models)
    openaiClients.set(model.id, new OpenAIClient(model.apiKey, model.baseUrl))]. *)
Definition registerClients (models : list ModelConfig.t) : gmap string OpenAIClient.t :=
  foldl (fun clients model =>
           <[ModelConfig.id model :=
               OpenAIClient.mk (ModelConfig.apiKey model) (ModelConfig.baseUrl model)]> clients)
        ∅ models.

(** The client [registerClients] builds for a model. *)
Definition client_of (model : ModelConfig.t) : OpenAIClient.t :=
  OpenAIClient.mk (ModelConfig.apiKey model) (ModelConfig.baseUrl model).

(** * Further vocabulary: the process supervisor *)

(** The character [a] occurs in the string [s]. *)
Fixpoint occurs (a : ascii) (s : string) : Prop :=
  match s with
  | EmptyString => False
  | String b rest => a = b \/ occurs a rest
  end.

(** A command [killServerByPort] may run on a launcher for port [p]: the
    [lsof] of that port, or a [kill -9] of a pid that is not empty and has
    no line feed in it. *)
Definition reclaim_command_ok (p : Z) (c : Command) : Prop :=
  match c with
  | Lsof q => q = p
  | Kill9 pid => pid <> EmptyString /\ ~ occurs LF pid
  end.

(** * Further embeddings: the backend client ([openai-client.ts])

    The revision with provider-specific reasoning parameters.  The [openai]
    package is an oracle: [client.chat.completions.create(request)] resolves
    with a response or rejects with an error. *)

Module Sdk.
(** The fields of a response message the client reads. *)
Record Message : Type := mkMessage {
  content : option string;
  reasoning : option string;
  thinking : option string;
  reasoning_content : option string;
  reasoning_details : option (list string)   (* the [text] of each block *)
}.

Record Choice : Type := mkChoice {
  message : option Message
}.

Record Response : Type := mkResponse {
  choices : list Choice
}.

(** What [buildReasoningParams] returns: [{}] or
    [{ reasoning: { enabled: true } }]. *)
Inductive ReasoningParams : Type := NoParams | ReasoningEnabled.

Record Request : Type := mkRequest {
  model : string;
  messages : list (Role * string);
  params : ReasoningParams
}.
End Sdk.

(** [interface ChatOptions] *)
Record ChatOptions : Type := mkChatOptions {
  optReasoning : option bool;
  optProvider : option string
}.

(** The [openai] package: the client object is built from the stored
    credentials for every call. *)
Definition SdkOracle : Type := OpenAIClient.t -> Sdk.Request -> result Sdk.Response.

(** [private buildReasoningParams(provider, enabled)] *)
Definition buildReasoningParams (provider : option string) (enabled : bool)
  : Sdk.ReasoningParams :=
  if negb enabled || negb (truthy_opt provider) then Sdk.NoParams
  else
    match provider with
    | Some p =>
        if decide (p = "openai") then Sdk.ReasoningEnabled
        else if decide (p = "openrouter") then Sdk.NoParams
        else Sdk.NoParams
    | None => Sdk.NoParams
    end.

(** [texts.join(sep)] *)
Fixpoint join (sep : string) (texts : list string) : string :=
  match texts with
  | [] => EmptyString
  | [t] => t
  | t :: rest => t +:+ sep +:+ join sep rest
  end.

(** [a || b] on optional strings: [a] when it is truthy, else [b]. *)
Definition or_else (a b : option string) : option string :=
  if truthy_opt a then a else b.

(** [private extractReasoning(message)] *)
Definition extractReasoning (message : Sdk.Message) : option string :=
  let reasoning :=
    or_else (or_else (Sdk.reasoning message) (Sdk.thinking message))
            (Sdk.reasoning_content message) in
  if truthy_opt reasoning then reasoning
  else
    match Sdk.reasoning_details message with
    | Some (block :: blocks) => Some (join line_feed (block :: blocks))
    | _ => None
    end.

(** [options?.provider] *)
Definition provider_of (options : option ChatOptions) : option string :=
  match options with
  | Some o => optProvider o
  | None => None
  end.

(** [options?.reasoning ?? false], also the truth value of
    [options?.reasoning]. *)
Definition reasoning_of (options : option ChatOptions) : bool :=
  match options with
  | Some o => default false (optReasoning o)
  | None => false
  end.

(** The request [chat] passes to [client.chat.completions.create]. *)
Definition chat_request (modelId : string) (messages : list ChatMessage)
    (options : option ChatOptions) : Sdk.Request :=
  Sdk.mkRequest modelId
    (map (fun msg => (role msg, content msg)) messages)
    (buildReasoningParams (provider_of options) (reasoning_of options)).

(** [response.choices[0]?.message] *)
Definition first_message (response : Sdk.Response) : option Sdk.Message :=
  match Sdk.choices response with
  | choice :: _ => Sdk.message choice
  | [] => None
  end.

(** [response.choices[0]?.message?.content] *)
Definition first_content (response : Sdk.Response) : option string :=
  match first_message response with
  | Some message => Sdk.content message
  | None => None
  end.

(** [async chat(modelId, messages, options)]: every error raised in the
    [try] block is caught and thrown again with a prefix. *)
Definition OpenAIClient_chat (sdk : SdkOracle) (this : OpenAIClient.t) (modelId : string)
    (messages : list ChatMessage) (options : option ChatOptions) : result ChatReply :=
  let attempt : result ChatReply :=
    match sdk this (chat_request modelId messages options) with
    | Throw e => Throw e
    | Ok response =>
        match first_message response with
        | Some message =>
            match Sdk.content message with
            | Some textContent =>
                if truthy textContent then
                  Ok (mkChatReply textContent
                        (if reasoning_of options then extractReasoning message else None))
                else Throw "No content in response from OpenAI"
            | None => Throw "No content in response from OpenAI"
            end
        | None => Throw "No content in response from OpenAI"
        end
    end in
  match attempt with
  | Ok reply => Ok reply
  | Throw errorMessage => Throw ("Failed to get response from OpenAI: " +:+ errorMessage)
  end.

(** [async validateModel(modelId)]: a one-token request; [true] when it is
    answered. *)
Definition validateModel (sdk : SdkOracle) (this : OpenAIClient.t) (modelId : string) : bool :=
  match sdk this (Sdk.mkRequest modelId [(user, EmptyString)] Sdk.NoParams) with
  | Ok _ => true
  | Throw _ => false
  end.

(** The strings among [candidates] that are present and not empty, in
    order. *)
Definition truthy_candidates (candidates : list (option string)) : list string :=
  filter (fun s => truthy s = true) (omap (fun o => o) candidates).

(** An oracle for the examples: it answers every request with one choice
    whose message has the given fields. *)
Definition example_sdk (message : Sdk.Message) : SdkOracle :=
  fun _ _ => Ok (Sdk.mkResponse [Sdk.mkChoice (Some message)]).

(** * Further embeddings: the start of the launcher ([bin/polybrain.ts]) *)

(** [s.startsWith(p)] *)
Fixpoint starts_with (p s : string) : bool :=
  match p with
  | EmptyString => true
  | String a p' =>
      match s with
      | String b s' => if decide (a = b) then starts_with p' s' else false
      | EmptyString => false
      end
  end.

(** [s.includes(sub)] *)
Fixpoint includes (s sub : string) : bool :=
  starts_with sub s ||
  match s with
  | EmptyString => false
  | String _ rest => includes rest sub
  end.

(** [const isConfigError] in the [catch] of [main] *)
Definition isConfigError (errorMessage : string) : bool :=
  includes errorMessage "No configuration found" ||
  includes errorMessage "Failed to load config" ||
  includes errorMessage "Environment variable not found" ||
  includes errorMessage "Model must have".

(** The outcome of a call the program does not control. *)
Definition await {St A : Type} (outcome : result A) : Prog St A :=
  fun w => (outcome, w).

(** The second [try] of [main], which runs without [--restart], when the
    environment variable [POLYBRAIN_DEBUG] is not ['true']: the logger is
    set to the level ['error'] and every [debugLog] call is a no-op.
    [connect] is the outcome of [mcpServer.connect(transport)]; building
    the conversation manager, the clients and the protocol server in
    between raises nothing.  Lines the configuration loader itself logs at
    level ['error'] before it fails are not part of [stderr] here. *)
Definition launch_quiet (loadConfig : result ServerConfig.t) (connect : result unit)
  : L ProcessOutcome :=
  try_catch
    (setLogLevel Logger.Error;;
     config ← await loadConfig;
     (fun w => (Ok tt, new_ServerLauncher (ServerConfig.httpPort config) w));;
     ensureServerRunning false;;
     await connect;;
     mret KeepsRunning)
    (fun errorMessage =>
       (if isConfigError errorMessage
        then console_error ("Error: " +:+ errorMessage)
        else mret tt);;
       mret (Exited 1)).

(** What the [catch] of [main] leaves, in quiet mode, for an error with
    the message [e]: exit code 1, and one line on standard error if the
    message counts as a configuration error. *)
Definition reported (e : string) (w : Sys) : result ProcessOutcome * Sys :=
  (Ok (Exited 1), if isConfigError e then log_stderr ("Error: " +:+ e) w else w).

(** * Further embeddings: environment references ([config.ts]) *)

(** A value [yaml.load] can return. *)
#[warnings="-register-all"]
Inductive Value : Type :=
| VNull
| VBool (b : bool)
| VNum (n : Z)
| VStr (s : string)
| VArr (items : list Value)
| VObj (entries : list (string * Value)).

(** [r] with [p] in front of what it returns. *)
Definition prepend (p : string) (r : result string) : result string :=
  match r with
  | Ok s => Ok (p +:+ s)
  | Throw e => Throw e
  end.

(** Where a scan for [/\$\{([^}]+)\}/g] stands: outside a candidate, after
    a [$], or inside the braces with the characters read so far. *)
Inductive ScanState : Type :=
| Outside
| AfterDollar
| InName (name : string).

(** The text a candidate turns out to be when the string ends in it. *)
Definition pending (st : ScanState) : string :=
  match st with
  | Outside => EmptyString
  | AfterDollar => "$"
  | InName name => "${" +:+ name
  end.

(** [process.env]: the environment variables, and the properties the
    object inherits from [Object.prototype] ([toString], [constructor],
    [__proto__] and the like).  An inherited property is a function or an
    object; [inherited] holds the text [String.prototype.replace] makes of
    it when the callback returns it. *)
Record ProcessEnv : Type := mkProcessEnv {
  variables : gmap string string;
  inherited : gmap string string
}.

(** [process.env[varName]] with the test [if (!envValue) throw]: a
    variable that is set hides an inherited property of its name; of the
    values a read can give only the empty string is falsy. *)
Definition env_value (env : ProcessEnv) (varName : string) : result string :=
  match variables env !! varName with
  | Some envValue =>
      if truthy envValue then Ok envValue
      else Throw ("Environment variable not found: " +:+ varName)
  | None =>
      match inherited env !! varName with
      | Some text => Ok text
      | None => Throw ("Environment variable not found: " +:+ varName)
      end
  end.

(** [value.replace(/\$\{([^}]+)\}/g, (_match, varName) => ...)], one
    character at a time.  A match is [${], one or more characters other
    than [}], and [}]; the matches are replaced from left to right, the
    first missing variable throws, and replaced text is not scanned
    again.  [${}] and a [${] that is never closed are no matches and stay
    as they are. *)
Fixpoint scan (env : ProcessEnv) (st : ScanState) (s : string) : result string :=
  match s with
  | EmptyString => Ok (pending st)
  | String c rest =>
      match st with
      | Outside =>
          if decide (c = "$"%char) then scan env AfterDollar rest
          else prepend (String c EmptyString) (scan env Outside rest)
      | AfterDollar =>
          if decide (c = "{"%char) then scan env (InName EmptyString) rest
          else if decide (c = "$"%char) then prepend "$" (scan env AfterDollar rest)
          else prepend (String "$" (String c EmptyString)) (scan env Outside rest)
      | InName name =>
          if decide (c = "}"%char) then
            match name with
            | EmptyString => prepend "${}" (scan env Outside rest)
            | _ =>
                match env_value env name with
                | Ok envValue => prepend envValue (scan env Outside rest)
                | Throw e => Throw e
                end
            end
          else scan env (InName (name +:+ String c EmptyString)) rest
      end
  end.

(** [array.map(f)] with a callback that may throw: the elements are
    visited from the first on, and the first error ends the call. *)
Definition map_throwing {A B : Type} (f : A -> result B) : list A -> result (list B) :=
  fix each (l : list A) : result (list B) :=
    match l with
    | [] => Ok []
    | x :: rest =>
        match f x with
        | Ok y =>
            match each rest with
            | Ok rest' => Ok (y :: rest')
            | Throw e => Throw e
            end
        | Throw e => Throw e
        end
    end.

(** [resolveEnvVars(value)]: strings are scanned, arrays and objects are
    rebuilt from their resolved elements in order (the keys of an object
    are kept as they are), anything else is returned as it is. *)
Fixpoint resolveEnvVars (env : ProcessEnv) (value : Value) : result Value :=
  match value with
  | VStr s =>
      match scan env Outside s with
      | Ok resolved => Ok (VStr resolved)
      | Throw e => Throw e
      end
  | VArr items =>
      match map_throwing (fun v => resolveEnvVars env v) items with
      | Ok items' => Ok (VArr items')
      | Throw e => Throw e
      end
  | VObj entries =>
      match
        map_throwing
          (fun entry =>
             match resolveEnvVars env (snd entry) with
             | Ok v' => Ok (fst entry, v')
             | Throw e => Throw e
             end) entries
      with
      | Ok entries' => Ok (VObj entries')
      | Throw e => Throw e
      end
  | other => Ok other
  end.

(** [([k, v]) => [k, resolveEnvVars(v)]]. *)
Definition resolve_entry (env : ProcessEnv) (entry : string * Value)
  : result (string * Value) :=
  match resolveEnvVars env (snd entry) with
  | Ok v' => Ok (fst entry, v')
  | Throw e => Throw e
  end.

(** A piece of a configuration string: plain text, or a reference
    [${name}]. *)
Inductive Segment : Type :=
| Text (t : string)
| Ref (name : string).

(** The string the pieces spell. *)
Fixpoint render (segments : list Segment) : string :=
  match segments with
  | [] => EmptyString
  | Text t :: rest => t +:+ render rest
  | Ref name :: rest => "${" +:+ name +:+ "}" +:+ render rest
  end.

(** What a piece stands for in the environment: a text for itself; a
    reference for the variable of its name when that is set and not empty,
    and for the inherited property of its name when no such variable is
    set. *)
Definition stands_for (env : ProcessEnv) (segment : Segment) (text : string) : Prop :=
  match segment with
  | Text t => text = t
  | Ref name =>
      (variables env !! name = Some text /\ text <> EmptyString) \/
      (variables env !! name = None /\ inherited env !! name = Some text)
  end.

(** A name a reference cannot be resolved for: the variable is set to the
    empty string, or there is neither a variable nor an inherited property
    of that name. *)
Definition unresolved (env : ProcessEnv) (name : string) : Prop :=
  variables env !! name = Some EmptyString \/
  (variables env !! name = None /\ inherited env !! name = None).

(** An environment for the examples. *)
Definition example_env : ProcessEnv :=
  mkProcessEnv {[ "KEY" := "${HOME}" ]}
               {[ "toString" := "function toString() { [native code] }" ]}.

(** Plain text has no [$]; a name is not empty and has no [}]. *)
Definition segment_ok (segment : Segment) : Prop :=
  match segment with
  | Text t => ~ occurs "$"%char t
  | Ref name => name <> EmptyString /\ ~ occurs "}"%char name
  end.

(** No string anywhere in the value has a [$]. *)
Fixpoint dollar_free (value : Value) : Prop :=
  match value with
  | VStr s => ~ occurs "$"%char s
  | VArr items =>
      (fix all (l : list Value) : Prop :=
         match l with
         | [] => True
         | v :: rest => dollar_free v /\ all rest
         end) items
  | VObj entries =>
      (fix all (l : list (string * Value)) : Prop :=
         match l with
         | [] => True
         | (_, v) :: rest => dollar_free v /\ all rest
         end) entries
  | _ => True
  end.

(** * Properties *)

(** ** The model on concrete inputs *)

Example slice_negative_start : slice (-1) None [1; 2; 3] = [3].
Proof. reflexivity. Qed.

Example slice_negative_end : slice 0 (Some (-1)) [1; 2; 3] = [1; 2].
Proof. reflexivity. Qed.

Example slice_past_the_end : slice 1 (Some 10) [1; 2; 3] = [2; 3].
Proof. reflexivity. Qed.

Example slice_crossed_bounds : slice 2 (Some 1) [1; 2; 3] = [].
Proof. reflexivity. Qed.

Example truncate_five_under_limit_three :
  truncateMessages 3 [m1; m2; m3; m1; m2] = [m1; marker; m2].
Proof. reflexivity. Qed.

Example truncate_five_under_limit_four :
  truncateMessages 4 [m1; m2; m3; m1; m2] = [m1; m2; marker; m1; m2].
Proof. reflexivity. Qed.

Example trim_strips_both_ends : trim ("  4242 " +:+ line_feed) = "4242".
Proof. reflexivity. Qed.

Example listed_pids_of_two_lines :
  listed_pids ("4242" +:+ line_feed +:+ "4243" +:+ line_feed) = ["4242"; "4243"].
Proof. reflexivity. Qed.

Example listed_pids_of_blank_output : listed_pids line_feed = [].
Proof. reflexivity. Qed.

(** A first chat turn with the default model creates a conversation and
    answers with the reply of the backend. *)
Example chat_first_turn :
  fst (chat example_clients example_config example_backend "hi" None None None
         (example_world 500 ∅))
  = Ok (ChatJson "uuid-0" "fine" None "model-a").
Proof. vm_compute. reflexivity. Qed.

(** A chat turn on an unknown conversation id is answered with an error
    text. *)
Example chat_unknown_conversation :
  fst (chat example_clients example_config example_backend "hi" (Some "zz") None None
         (example_world 500 ∅))
  = Ok (PlainText "Error: Conversation not found: zz").
Proof. vm_compute. reflexivity. Qed.

(** An error of the backend is rendered as an error text; the user message
    was already appended. *)
Example chat_backend_error :
  let run := chat example_clients example_config
               (fun _ _ _ _ => Throw "Failed to get response from OpenAI: 500")
               "hi" (Some "c1") None None (example_world 500 (example_store [])) in
  fst run = Ok (PlainText "Error: Failed to get response from OpenAI: 500") /\
  messages <$> store (snd run) !! "c1" = Some [mkChatMessage user "hi"].
Proof. cbv zeta. split; vm_compute; reflexivity. Qed.

(** ** [slice] on the index ranges [truncateMessages] uses *)

Section Slice.
Context {A : Type}.
Implicit Types (l : list A) (k : Z).

Local Abbreviation len l := (Z.of_nat (length l)) (only parsing).

Lemma slice_prefix l k :
  0 <= k <= len l -> slice 0 (Some k) l = take (Z.to_nat k) l.
Proof.
  intros Hk. unfold slice, relativeIndex.
  destruct (Z.ltb_spec 0 0) as [?|_]; [lia|].
  destruct (Z.ltb_spec k 0) as [?|_]; [lia|].
  rewrite Z.min_l by lia. rewrite Z.min_l by lia.
  rewrite Z.sub_0_r. reflexivity.
Qed.

Lemma slice_suffix l k :
  0 < k <= len l -> slice (- k) None l = drop (length l - Z.to_nat k) l.
Proof.
  intros Hk. unfold slice, relativeIndex.
  destruct (Z.ltb_spec (- k) 0) as [_|?]; [|lia].
  rewrite Z.max_l by lia.
  replace (Z.to_nat (len l + - k)) with (length l - Z.to_nat k)%nat by lia.
  apply take_ge. rewrite length_drop. lia.
Qed.

(** [l.slice(-0)] is [l.slice(0)]: the whole array. *)
Lemma slice_from_zero l : slice (- 0) None l = l.
Proof.
  unfold slice, relativeIndex. simpl.
  rewrite Z.min_l by lia. simpl. rewrite Z.sub_0_r, Nat2Z.id.
  apply take_ge. reflexivity.
Qed.

Lemma slice_empty_prefix l : slice 0 (Some 0) l = [].
Proof.
  unfold slice, relativeIndex. simpl.
  rewrite Z.min_l by lia. reflexivity.
Qed.
End Slice.

(** ** The truncation policy *)

Lemma truncateMessages_fits limit l :
  Z.of_nat (length l) <= limit -> truncateMessages limit l = l.
Proof.
  intros H. unfold truncateMessages.
  destruct (Z.leb_spec (Z.of_nat (length l)) limit); [reflexivity | lia].
Qed.

Lemma truncateMessages_exceeds limit l :
  2 <= limit -> limit < Z.of_nat (length l) ->
  truncateMessages limit l =
    take (Z.to_nat (limit / 2)) l ++ [marker] ++
    drop (length l - Z.to_nat (limit / 2)) l.
Proof.
  intros H2 Hlen. unfold truncateMessages.
  destruct (Z.leb_spec (Z.of_nat (length l)) limit) as [?|_]; [lia|].
  assert (0 < limit / 2) by (apply Z.div_str_pos; lia).
  assert (limit / 2 <= limit) by (apply Z.div_le_upper_bound; lia).
  cbv zeta. rewrite slice_prefix by lia. rewrite slice_suffix by lia.
  reflexivity.
Qed.

(** From limit 2 on, the code computes the view the specification
    describes, for every message list. *)
Lemma truncateMessages_refines_spec limit l :
  2 <= limit -> truncateMessages limit l = truncate_spec limit l.
Proof.
  intros H2. unfold truncate_spec.
  destruct (Z.leb_spec (Z.of_nat (length l)) limit).
  - apply truncateMessages_fits. assumption.
  - apply truncateMessages_exceeds; assumption.
Qed.

(** With [limit] 0 or 1 the number kept on each side is 0, and the code
    returns the marker followed by the whole list. *)
Lemma truncateMessages_keeps_none limit l :
  limit = 0 \/ limit = 1 -> limit < Z.of_nat (length l) ->
  truncateMessages limit l = marker :: l.
Proof.
  intros Hlim Hlen. unfold truncateMessages.
  destruct (Z.leb_spec (Z.of_nat (length l)) limit) as [?|_]; [lia|].
  assert (limit / 2 = 0) as -> by (destruct Hlim; subst; reflexivity).
  cbv zeta. rewrite slice_empty_prefix, slice_from_zero. reflexivity.
Qed.

(** The shape of the truncated view when the list exceeds the limit. *)
Lemma truncateMessages_shape limit l :
  2 <= limit -> limit < Z.of_nat (length l) ->
  let k := Z.to_nat (limit / 2) in
  let view := truncateMessages limit l in
  length view = (2 * k + 1)%nat /\
  take k view = take k l /\
  view !! k = Some marker /\
  drop (S k) view = drop (length l - k) l.
Proof.
  intros H2 Hlen k view.
  assert (0 < limit / 2) by (apply Z.div_str_pos; lia).
  assert (limit / 2 <= limit) by (apply Z.div_le_upper_bound; lia).
  assert (Hk : (k <= length l)%nat) by (subst k; lia).
  assert (Htk : length (take k l) = k) by (rewrite length_take; lia).
  subst view. rewrite truncateMessages_exceeds by assumption. fold k.
  repeat split.
  - rewrite !length_app, Htk, length_drop. simpl. lia.
  - rewrite take_app_le by lia. rewrite take_take. f_equal. lia.
  - rewrite lookup_app_r by lia. rewrite Htk, Nat.sub_diag. reflexivity.
  - rewrite drop_app_ge by lia. rewrite Htk.
    replace (S k - k)%nat with 1%nat by lia. reflexivity.
Qed.

(** ** The store: what each operation does to the world *)

Lemma copyMessage_id msg : copyMessage msg = msg.
Proof. destruct msg; reflexivity. Qed.

Lemma map_copyMessage l : map copyMessage l = l.
Proof.
  induction l as [|msg l IH]; [reflexivity|].
  simpl. rewrite copyMessage_id, IH. reflexivity.
Qed.

(** Unfold the primitives of the store monad and compute. *)
Ltac run_store :=
  unfold mbind, Prog_bind, mret, Prog_ret, throw, try_catch, randomUUID, Date_now,
    conversations_get, conversations_set, this_truncateLimit;
  cbn [fst snd host manager conversations truncateLimit uuidSource uuidCalls
       clockSource clockCalls].

Section StoreRuns.
Implicit Types (w : World) (cid model : string).

Lemma createConversation_run model w :
  exists w',
    createConversation model w = (Ok (next_uuid w), w') /\
    truncateLimit (manager w') = truncateLimit (manager w) /\
    exists created updated,
      store w' =
        <[next_uuid w := mkConversationState (next_uuid w) model [] created updated]>
          (store w).
Proof.
  unfold createConversation. run_store.
  eexists. split; [reflexivity|]. split; [reflexivity|]. eauto.
Qed.

Lemma getConversation_run cid w :
  getConversation cid w = (Ok (store w !! cid), w).
Proof. reflexivity. Qed.

Lemma addMessage_missing cid r c w :
  store w !! cid = None ->
  addMessage cid r c w = (Throw ("Conversation not found: " +:+ cid), w).
Proof.
  intros H. unfold addMessage. run_store.
  unfold store in H. rewrite H. reflexivity.
Qed.

Lemma addMessage_found cid r c w conv :
  store w !! cid = Some conv ->
  exists w',
    addMessage cid r c w = (Ok tt, w') /\
    truncateLimit (manager w') = truncateLimit (manager w) /\
    exists updated,
      store w' =
        <[cid := mkConversationState (id conv) (modelId conv)
                   (messages conv ++ [mkChatMessage r c]) (createdAt conv) updated]>
          (store w).
Proof.
  intros H. unfold addMessage. run_store.
  unfold store in H. rewrite H.
  eexists. split; [reflexivity|]. split; [reflexivity|]. eauto.
Qed.

Lemma getHistory_missing cid w :
  store w !! cid = None ->
  getHistory cid w = (Throw ("Conversation not found: " +:+ cid), w).
Proof.
  intros H. unfold getHistory. run_store.
  unfold store in H. rewrite H. reflexivity.
Qed.

Lemma getHistory_found cid w conv :
  store w !! cid = Some conv ->
  getHistory cid w =
    (Ok (truncateMessages (truncateLimit (manager w)) (messages conv)), w).
Proof.
  intros H. unfold getHistory. run_store.
  unfold store in H. rewrite H. reflexivity.
Qed.

Lemma cloneConversation_missing cid model w :
  store w !! cid = None ->
  cloneConversation cid model w =
    (Throw ("Source conversation not found: " +:+ cid), w).
Proof.
  intros H. unfold cloneConversation. run_store.
  unfold store in H. rewrite H. reflexivity.
Qed.

Lemma cloneConversation_found cid model w source :
  store w !! cid = Some source ->
  exists w',
    cloneConversation cid model w = (Ok (next_uuid w), w') /\
    truncateLimit (manager w') = truncateLimit (manager w) /\
    exists created updated,
      store w' =
        <[next_uuid w := mkConversationState (next_uuid w) model (messages source)
                           created updated]> (store w).
Proof.
  intros H. unfold cloneConversation, createConversation. run_store.
  unfold store in H. rewrite H. run_store.
  rewrite lookup_insert_eq.
  eexists. split; [reflexivity|]. split; [reflexivity|].
  do 2 eexists. unfold store. simpl.
  rewrite insert_insert_eq, map_copyMessage. reflexivity.
Qed.
End StoreRuns.

(** ** Truncated history *)

(** The scenario of the specification: 1000 messages under limit 500 give
    501 entries, the first 250 and the last 250 verbatim and the marker at
    index 250. *)
Lemma history_1000_limit_500 w cid conv :
  store w !! cid = Some conv ->
  truncateLimit (manager w) = 500 ->
  length (messages conv) = 1000%nat ->
  exists view,
    getHistory cid w = (Ok view, w) /\
    length view = 501%nat /\
    take 250 view = take 250 (messages conv) /\
    view !! 250%nat = Some marker /\
    drop 251 view = drop 750 (messages conv).
Proof.
  intros Hc Hlim Hlen. rewrite (getHistory_found _ _ _ Hc), Hlim.
  eexists. split; [reflexivity|].
  destruct (truncateMessages_shape 500 (messages conv)) as (H1 & H2 & H3 & H4);
    [lia | lia |].
  change (Z.to_nat (500 / 2)) with 250%nat in *. rewrite Hlen in H4.
  auto.
Qed.

(** Whenever the limit is at least 2, [getHistory] returns the view of the
    specification. *)
Lemma getHistory_refines_spec w cid conv :
  store w !! cid = Some conv ->
  2 <= truncateLimit (manager w) ->
  getHistory cid w = (Ok (truncate_spec (truncateLimit (manager w)) (messages conv)), w).
Proof.
  intros Hc H2. rewrite (getHistory_found _ _ _ Hc).
  rewrite truncateMessages_refines_spec by assumption. reflexivity.
Qed.

(** C1 (the code departs from the claim at limit 1).  The claim: for every
    message list and positive limit, a list longer than the limit is shown
    as its first [k = floor(limit/2)] messages, one marker, and its last [k]
    messages.  With limit 1 and the two messages [m1; m2] that view is the
    marker alone; the code returns the marker followed by both messages,
    because [messages.slice(-0)] is the whole array. *)
Theorem C1_history_at_limit_one :
  let w := example_world 1 (example_store [m1; m2]) in
  getHistory "c1" w = (Ok [marker; m1; m2], w) /\
  truncate_spec 1 [m1; m2] = [marker] /\
  fst (getHistory "c1" w) <> Ok (truncate_spec 1 [m1; m2]).
Proof.
  cbv zeta.
  assert (Hrun : getHistory "c1" (example_world 1 (example_store [m1; m2])) =
                 (Ok [marker; m1; m2], example_world 1 (example_store [m1; m2]))).
  { rewrite (getHistory_found _ _ (example_conversation [m1; m2])); [reflexivity|].
    apply lookup_singleton_eq. }
  split; [exact Hrun|]. split; [reflexivity|].
  rewrite Hrun. discriminate.
Qed.

(** C9.  When the limit is 0 or 1 and the conversation holds more
    messages than the limit, [getHistory] returns the marker followed by all
    [n] stored messages, [n + 1] entries: the number kept per side is 0 and
    the slice that should take the last 0 messages, [slice(-0)], yields the
    entire list. *)
Theorem C9_history_unbounded_below_limit_two w cid conv :
  store w !! cid = Some conv ->
  truncateLimit (manager w) = 0 \/ truncateLimit (manager w) = 1 ->
  truncateLimit (manager w) < Z.of_nat (length (messages conv)) ->
  truncateLimit (manager w) / 2 = 0 /\
  slice (- (truncateLimit (manager w) / 2)) None (messages conv) = messages conv /\
  getHistory cid w = (Ok (marker :: messages conv), w) /\
  length (marker :: messages conv) = S (length (messages conv)).
Proof.
  intros Hc Hlim Hlen.
  assert (Hk : truncateLimit (manager w) / 2 = 0)
    by (destruct Hlim as [-> | ->]; reflexivity).
  split; [exact Hk|]. split.
  - rewrite Hk. apply slice_from_zero.
  - split; [|reflexivity].
    rewrite (getHistory_found _ _ _ Hc).
    rewrite truncateMessages_keeps_none by assumption. reflexivity.
Qed.

Lemma C9_witness :
  let w := example_world 0 (example_store [m1; m2; m3]) in
  0 / 2 = 0 /\
  slice (- (0 / 2)) None [m1; m2; m3] = [m1; m2; m3] /\
  getHistory "c1" w = (Ok [marker; m1; m2; m3], w) /\
  length [marker; m1; m2; m3] = 4%nat.
Proof.
  apply (C9_history_unbounded_below_limit_two
           (example_world 0 (example_store [m1; m2; m3])) "c1"
           (example_conversation [m1; m2; m3])).
  - reflexivity.
  - left. reflexivity.
  - simpl. lia.
Defined.

(** ** Cloning *)

(** C2.  For every conversation present in the store and every new model
    id, [cloneConversation] returns the identifier [randomUUID] produced,
    which differs from the source id; the new conversation is bound to the
    new model; its messages equal the full stored list of the source (not
    the truncated view, whatever the limit is); and the source conversation
    is stored unchanged.  The identifier generator is assumed to do its
    job: the identifier it returns is not yet a key of the store. *)
Theorem C2_clone_copies_full_history w source model conv :
  store w !! source = Some conv ->
  store w !! next_uuid w = None ->
  exists w' clone,
    cloneConversation source model w = (Ok (next_uuid w), w') /\
    next_uuid w <> source /\
    store w' !! next_uuid w = Some clone /\
    id clone = next_uuid w /\
    modelId clone = model /\
    messages clone = messages conv /\
    store w' !! source = Some conv.
Proof.
  intros Hsrc Hfresh.
  destruct (cloneConversation_found source model w conv Hsrc)
    as (w' & Hrun & _ & created & updated & Hstore).
  assert (Hne : next_uuid w <> source) by congruence.
  exists w'. eexists. split; [exact Hrun|]. split; [exact Hne|].
  rewrite Hstore. rewrite lookup_insert_eq, lookup_insert_ne by exact Hne.
  repeat split; auto.
Qed.

Lemma C2_witness :
  let w := example_world 2 (example_store [m1; m2; m3]) in
  exists w' clone,
    cloneConversation "c1" "model-b" w = (Ok "uuid-0", w') /\
    "uuid-0" <> "c1" /\
    store w' !! "uuid-0" = Some clone /\
    id clone = "uuid-0" /\
    modelId clone = "model-b" /\
    messages clone = [m1; m2; m3] /\
    store w' !! "c1" = Some (example_conversation [m1; m2; m3]).
Proof.
  apply (C2_clone_copies_full_history
           (example_world 2 (example_store [m1; m2; m3])) "c1" "model-b"
           (example_conversation [m1; m2; m3])).
  - vm_compute. reflexivity.
  - vm_compute. reflexivity.
Defined.

(** Right after a clone, the history of the clone is the history of its
    source. *)
Lemma clone_then_history w source model conv :
  store w !! source = Some conv ->
  store w !! next_uuid w = None ->
  exists w',
    cloneConversation source model w = (Ok (next_uuid w), w') /\
    fst (getHistory (next_uuid w) w') = fst (getHistory source w') /\
    fst (getHistory source w') = fst (getHistory source w).
Proof.
  intros Hsrc Hfresh.
  destruct (cloneConversation_found source model w conv Hsrc)
    as (w' & Hrun & Hlim & created & updated & Hstore).
  assert (Hne : next_uuid w <> source) by congruence.
  exists w'. split; [exact Hrun|].
  assert (Hnew : store w' !! next_uuid w =
                 Some (mkConversationState (next_uuid w) model (messages conv) created updated))
    by (rewrite Hstore; apply lookup_insert_eq).
  assert (Hold : store w' !! source = Some conv)
    by (rewrite Hstore, lookup_insert_ne by exact Hne; exact Hsrc).
  rewrite (getHistory_found _ _ _ Hnew), (getHistory_found _ _ _ Hold),
    (getHistory_found _ _ _ Hsrc), Hlim.
  split; reflexivity.
Qed.

(** The clone is a copy: a later append to the clone leaves the source as
    it was, and a later append to the source leaves the clone as it was. *)
Lemma clone_is_independent w source model conv r c :
  store w !! source = Some conv ->
  store w !! next_uuid w = None ->
  exists w',
    cloneConversation source model w = (Ok (next_uuid w), w') /\
    store (snd (addMessage (next_uuid w) r c w')) !! source = Some conv /\
    messages <$> store (snd (addMessage source r c w')) !! next_uuid w
      = Some (messages conv).
Proof.
  intros Hsrc Hfresh.
  destruct (cloneConversation_found source model w conv Hsrc)
    as (w' & Hrun & _ & created & updated & Hstore).
  assert (Hne : next_uuid w <> source) by congruence.
  assert (Hnew : store w' !! next_uuid w =
                 Some (mkConversationState (next_uuid w) model (messages conv) created updated))
    by (rewrite Hstore; apply lookup_insert_eq).
  assert (Hold : store w' !! source = Some conv)
    by (rewrite Hstore, lookup_insert_ne by exact Hne; exact Hsrc).
  exists w'. split; [exact Hrun|]. split.
  - destruct (addMessage_found (next_uuid w) r c w' _ Hnew)
      as (w1 & Hadd & _ & t & Hstore1).
    rewrite Hadd. cbn [snd]. rewrite Hstore1, lookup_insert_ne by exact Hne.
    exact Hold.
  - destruct (addMessage_found source r c w' _ Hold)
      as (w1 & Hadd & _ & t & Hstore1).
    rewrite Hadd. cbn [snd]. rewrite Hstore1, lookup_insert_ne by congruence.
    rewrite Hnew. reflexivity.
Qed.

(** ** Unknown identifiers *)

(** C3, as stated, fails for [get]: on an unknown id [getConversation]
    returns [null] and raises nothing. *)
Lemma C3_get_returns_null :
  let w := example_world 500 ∅ in
  store w !! "no-such-id" = None /\
  getConversation "no-such-id" w = (Ok None, w) /\
  ~ (exists message, fst (getConversation "no-such-id" w) = Throw message).
Proof.
  cbv zeta. split; [reflexivity|]. split; [reflexivity|].
  intros [message H]. vm_compute in H. discriminate H.
Qed.

(** C3 (amended).  For an id that is not in the store, [getConversation]
    returns [null] without raising; [addMessage] and [getHistory] each
    throw the error "Conversation not found: <id>" and [cloneConversation]
    throws "Source conversation not found: <id>", and all three leave the
    world as it was.  These are the not-found errors of the store.  For an
    id that is in the store, [getConversation] returns the conversation and
    the other three return normally. *)
Theorem C3_unknown_id_outcomes w cid :
  (store w !! cid = None ->
     getConversation cid w = (Ok None, w) /\
     (forall r c,
        addMessage cid r c w = (Throw ("Conversation not found: " +:+ cid), w)) /\
     getHistory cid w = (Throw ("Conversation not found: " +:+ cid), w) /\
     (forall model,
        cloneConversation cid model w =
          (Throw ("Source conversation not found: " +:+ cid), w)) /\
     NotFound cid ("Conversation not found: " +:+ cid) /\
     NotFound cid ("Source conversation not found: " +:+ cid)) /\
  (forall conv, store w !! cid = Some conv ->
     getConversation cid w = (Ok (Some conv), w) /\
     (forall r c, exists w', addMessage cid r c w = (Ok tt, w')) /\
     (exists view, getHistory cid w = (Ok view, w)) /\
     (forall model, exists newId w', cloneConversation cid model w = (Ok newId, w'))).
Proof.
  split.
  - intros Hnone. split; [|split; [|split; [|split; [|split]]]].
    + rewrite getConversation_run, Hnone. reflexivity.
    + intros r c. apply addMessage_missing. exact Hnone.
    + apply getHistory_missing. exact Hnone.
    + intros model. apply cloneConversation_missing. exact Hnone.
    + left. reflexivity.
    + right. reflexivity.
  - intros conv Hsome. split; [|split; [|split]].
    + rewrite getConversation_run, Hsome. reflexivity.
    + intros r c. destruct (addMessage_found cid r c w conv Hsome) as (w' & Hrun & _).
      exists w'. exact Hrun.
    + eexists. apply getHistory_found. exact Hsome.
    + intros model.
      destruct (cloneConversation_found cid model w conv Hsome) as (w' & Hrun & _).
      eexists. exists w'. exact Hrun.
Qed.

Lemma C3_witness :
  let w := example_world 500 (example_store [m1]) in
  (getConversation "zz" w = (Ok None, w) /\
   getHistory "zz" w = (Throw "Conversation not found: zz", w) /\
   cloneConversation "zz" "model-b" w = (Throw "Source conversation not found: zz", w)) /\
  getConversation "c1" w = (Ok (Some (example_conversation [m1])), w).
Proof.
  cbv zeta.
  pose proof (C3_unknown_id_outcomes (example_world 500 (example_store [m1])) "zz")
    as [Hmissing _].
  pose proof (C3_unknown_id_outcomes (example_world 500 (example_store [m1])) "c1")
    as [_ Hpresent].
  split.
  - destruct Hmissing as (Hget & _ & Hhist & Hclone & _); [vm_compute; reflexivity|].
    split; [exact Hget|]. split; [exact Hhist | exact (Hclone "model-b")].
  - destruct (Hpresent (example_conversation [m1])) as (Hget & _);
      [vm_compute; reflexivity|].
    exact Hget.
Defined.

(** ** Appending *)

(** A run of [addMessage] calls on a stored conversation extends its
    message list by the messages of the calls, in call order. *)
Lemma append_all_found cid calls :
  forall w conv,
    store w !! cid = Some conv ->
    exists w' updated,
      append_all cid calls w = (Ok tt, w') /\
      truncateLimit (manager w') = truncateLimit (manager w) /\
      store w' !! cid =
        Some (mkConversationState (id conv) (modelId conv)
                (messages conv ++ map message_of_call calls)
                (createdAt conv) updated).
Proof.
  induction calls as [|call calls IH]; intros w conv Hc.
  - exists w, (updatedAt conv). split; [reflexivity|]. split; [reflexivity|].
    simpl. rewrite app_nil_r. destruct conv; exact Hc.
  - destruct (addMessage_found cid (fst call) (snd call) w conv Hc)
      as (w1 & Hrun & Hlim & updated & Hstore).
    assert (Hc1 : store w1 !! cid =
                  Some (mkConversationState (id conv) (modelId conv)
                          (messages conv ++ [mkChatMessage (fst call) (snd call)])
                          (createdAt conv) updated))
      by (rewrite Hstore; apply lookup_insert_eq).
    destruct (IH w1 _ Hc1) as (w2 & updated' & Hrun2 & Hlim2 & Hstore2).
    exists w2, updated'. split; [|split].
    + unfold append_all in *. simpl. unfold mbind, Prog_bind at 1.
      rewrite Hrun. exact Hrun2.
    + congruence.
    + rewrite Hstore2. simpl. rewrite <- app_assoc. reflexivity.
Qed.

(** C5.  For every finite sequence of [addMessage] calls made on a
    conversation just created, if the truncation limit is at least the
    number of appended messages, [getHistory] returns exactly the appended
    messages, each with the role and content it was given, in call order. *)
Theorem C5_history_returns_appends_in_order w model calls :
  Z.of_nat (length calls) <= truncateLimit (manager w) ->
  fst (fresh_conversation_history model calls w) = Ok (map message_of_call calls).
Proof.
  intros Hlim. unfold fresh_conversation_history.
  destruct (createConversation_run model w)
    as (w0 & Hcreate & Hlim0 & created & updated & Hstore0).
  assert (Hc0 : store w0 !! next_uuid w =
                Some (mkConversationState (next_uuid w) model [] created updated))
    by (rewrite Hstore0; apply lookup_insert_eq).
  destruct (append_all_found (next_uuid w) calls w0 _ Hc0)
    as (w1 & updated' & Happend & Hlim1 & Hc1).
  unfold mbind, Prog_bind at 1. rewrite Hcreate.
  unfold mbind, Prog_bind at 1. rewrite Happend.
  rewrite (getHistory_found _ _ _ Hc1). simpl.
  rewrite truncateMessages_fits; [reflexivity|].
  rewrite length_map. lia.
Qed.

Lemma C5_witness :
  fst (fresh_conversation_history "model-a" [(user, "hello"); (assistant, "hi there")]
         (example_world 2 ∅))
  = Ok [m1; m2].
Proof.
  apply (C5_history_returns_appends_in_order (example_world 2 ∅) "model-a"
           [(user, "hello"); (assistant, "hi there")]).
  simpl. lia.
Defined.

(** ** Invariants of the store *)

Lemma extends_refl conv : extends conv conv.
Proof. unfold extends. repeat split; auto. Qed.

(** A conversation is still stored, extended, after a world change that
    only inserts under other keys or replaces it by an extension. *)
Lemma extends_after_insert (m : gmap string ConversationState) key value cid conv :
  m !! cid = Some conv ->
  (key = cid -> extends conv value) ->
  exists conv', <[key := value]> m !! cid = Some conv' /\ extends conv conv'.
Proof.
  intros Hc Hsame. destruct (decide (key = cid)) as [->|Hne].
  - exists value. rewrite lookup_insert_eq. auto.
  - exists conv. rewrite lookup_insert_ne by exact Hne. split; [exact Hc|].
    apply extends_refl.
Qed.

(** One operation keeps every stored conversation, extended. *)
Lemma operation_extends op w :
  (allocates op = true -> store w !! next_uuid w = None) ->
  forall cid conv,
    store w !! cid = Some conv ->
    exists conv', store (after op w) !! cid = Some conv' /\ extends conv conv'.
Proof.
  intros Hfresh cid conv Hc. destruct op as [model|k|k r c|k|source model]; cbn [after].
  - destruct (createConversation_run model w)
      as (w' & Hrun & _ & created & updated & Hstore).
    rewrite Hrun. cbn [snd]. rewrite Hstore.
    apply extends_after_insert; [exact Hc|].
    intros <-. rewrite Hfresh in Hc by reflexivity. discriminate Hc.
  - exists conv. split; [exact Hc | apply extends_refl].
  - destruct (store w !! k) as [target|] eqn:Hk.
    + destruct (addMessage_found k r c w target Hk)
        as (w' & Hrun & _ & updated & Hstore).
      rewrite Hrun. cbn [snd]. rewrite Hstore.
      apply extends_after_insert; [exact Hc|].
      intros ->. rewrite Hk in Hc. injection Hc as ->.
      unfold extends. simpl. repeat split.
      * apply prefix_app_r. reflexivity.
      * rewrite length_app. lia.
    + rewrite (addMessage_missing k r c w Hk). cbn [snd].
      exists conv. split; [exact Hc | apply extends_refl].
  - destruct (store w !! k) as [target|] eqn:Hk.
    + rewrite (getHistory_found k w target Hk). cbn [snd].
      exists conv. split; [exact Hc | apply extends_refl].
    + rewrite (getHistory_missing k w Hk). cbn [snd].
      exists conv. split; [exact Hc | apply extends_refl].
  - destruct (store w !! source) as [src|] eqn:Hsrc.
    + destruct (cloneConversation_found source model w src Hsrc)
        as (w' & Hrun & _ & created & updated & Hstore).
      rewrite Hrun. cbn [snd]. rewrite Hstore.
      apply extends_after_insert; [exact Hc|].
      intros <-. rewrite Hfresh in Hc by reflexivity. discriminate Hc.
    + rewrite (cloneConversation_missing source model w Hsrc). cbn [snd].
      exists conv. split; [exact Hc | apply extends_refl].
Qed.

(** C7.  Every store operation (create, get, append, history, clone)
    keeps every stored conversation stored under its id, with the same id
    and the same single model id, and with a message list that extends the
    old one, so its length only grows; get and history leave the whole
    store untouched (the truncated history is a view).  For the two
    operations that draw an identifier, the identifier generator is assumed
    to return one that is not yet a key of the store. *)
Theorem C7_operations_preserve_conversations op w :
  (allocates op = true -> store w !! next_uuid w = None) ->
  (forall cid conv,
     store w !! cid = Some conv ->
     exists conv', store (after op w) !! cid = Some conv' /\ extends conv conv') /\
  match op with
  | OpGet _ | OpHistory _ => after op w = w
  | _ => True
  end.
Proof.
  intros Hfresh. split.
  - apply operation_extends. exact Hfresh.
  - destruct op as [model|k|k r c|k|source model]; cbn [after]; try exact I.
    + reflexivity.
    + destruct (store w !! k) as [target|] eqn:Hk.
      * rewrite (getHistory_found k w target Hk). reflexivity.
      * rewrite (getHistory_missing k w Hk). reflexivity.
Qed.

Lemma C7_witness :
  let w := example_world 2 (example_store [m1; m2; m3]) in
  let op := OpClone "c1" "model-b" in
  (forall cid conv,
     store w !! cid = Some conv ->
     exists conv', store (after op w) !! cid = Some conv' /\ extends conv conv') /\
  True.
Proof.
  apply (C7_operations_preserve_conversations (OpClone "c1" "model-b")
           (example_world 2 (example_store [m1; m2; m3]))).
  intros _. vm_compute. reflexivity.
Defined.

Lemma extends_trans a b c : extends a b -> extends b c -> extends a c.
Proof.
  unfold extends. intros (Hi & Hm & Hp & Hl) (Hi' & Hm' & Hp' & Hl').
  repeat split; try congruence; try lia.
  etransitivity; eassumption.
Qed.

(** The invariants hold along every sequence of operations. *)
Lemma conversations_persist ops :
  forall w, fresh_run ops w ->
  forall cid conv,
    store w !! cid = Some conv ->
    exists conv', store (after_all ops w) !! cid = Some conv' /\ extends conv conv'.
Proof.
  induction ops as [|op ops IH]; intros w Hfresh cid conv Hc; simpl.
  - exists conv. split; [exact Hc | apply extends_refl].
  - destruct Hfresh as [Hop Hrest].
    destruct (operation_extends op w Hop cid conv Hc) as (mid & Hmid & Hext).
    destruct (IH _ Hrest cid mid Hmid) as (conv' & Hc' & Hext').
    exists conv'. split; [exact Hc' | eapply extends_trans; eassumption].
Qed.

(** Stored conversations stay keyed by their id. *)
Lemma keyed_by_id_preserved op w :
  keyed_by_id w -> keyed_by_id (after op w).
Proof.
  intros Hk cid conv. destruct op as [model|k|k r c|k|source model]; cbn [after].
  - destruct (createConversation_run model w)
      as (w' & Hrun & _ & created & updated & Hstore).
    rewrite Hrun. cbn [snd]. rewrite Hstore, lookup_insert.
    case_decide; [intros [= <-]; simpl; congruence | apply Hk].
  - apply Hk.
  - destruct (store w !! k) as [target|] eqn:Htarget.
    + destruct (addMessage_found k r c w target Htarget)
        as (w' & Hrun & _ & updated & Hstore).
      rewrite Hrun. cbn [snd]. rewrite Hstore, lookup_insert.
      case_decide; [intros [= <-]; simpl; subst; apply Hk; exact Htarget | apply Hk].
    + rewrite (addMessage_missing k r c w Htarget). apply Hk.
  - destruct (store w !! k) as [target|] eqn:Htarget.
    + rewrite (getHistory_found k w target Htarget). apply Hk.
    + rewrite (getHistory_missing k w Htarget). apply Hk.
  - destruct (store w !! source) as [src|] eqn:Hsrc.
    + destruct (cloneConversation_found source model w src Hsrc)
        as (w' & Hrun & _ & created & updated & Hstore).
      rewrite Hrun. cbn [snd]. rewrite Hstore, lookup_insert.
      case_decide; [intros [= <-]; simpl; congruence | apply Hk].
    + rewrite (cloneConversation_missing source model w Hsrc). apply Hk.
Qed.

(** Why the generator matters: if [randomUUID] returned the id of a stored
    conversation, [createConversation] would replace that conversation by
    an empty one. *)
Lemma create_on_collision_overwrites :
  let w := mkWorld (mkHost (fun _ => "c1") 0 (fun _ => 0) 0)
                   (mkConversationManager (example_store [m1; m2]) 500) in
  messages <$> store w !! "c1" = Some [m1; m2] /\
  messages <$> store (after (OpCreate "model-b") w) !! "c1" = Some [].
Proof. cbv zeta. split; vm_compute; reflexivity. Qed.

(** ** Debug lines *)

(** Unfold the primitives of the supervisor and compute. *)
Ltac run_sys :=
  unfold debugLog_port, debugLog;
  unfold mbind, Prog_bind, mret, Prog_ret, throw, try_catch, isServerRunning,
    sleep, spawn_server, console_log, console_error, setLogLevel, this_port;
  cbn [fst snd].

Lemma log_keeps_level c st :
  Logger.currentLogLevel (Logger.log c st) = Logger.currentLogLevel st.
Proof.
  unfold Logger.log. destruct (Logger.shouldLog _ _); [|reflexivity].
  destruct (Logger.level c); reflexivity.
Qed.

Lemma debugLog_run debug level message context w :
  debugLog debug level message context w = (Ok tt, said debug level message context w).
Proof.
  unfold said, debugLog. destruct debug; [|reflexivity].
  destruct context, level; reflexivity.
Qed.

Lemma debugLog_port_run debug level message w :
  debugLog_port debug level message w =
    (Ok tt, said debug level message (Fields [("port", JNum (port w))]) w).
Proof.
  unfold debugLog_port, this_port, mbind, Prog_bind. apply debugLog_run.
Qed.

Lemma said_quiet level message context w : said false level message context w = w.
Proof. reflexivity. Qed.

(** A call of [debugLog] touches the two streams and the count of time
    stamps, nothing else. *)
Lemma said_mute debug level message context w :
  mute (said debug level message context w) = mute w.
Proof.
  unfold said, debugLog. destruct debug; [|reflexivity].
  destruct context, level; cbn; unfold mute; cbn; rewrite log_keeps_level; reflexivity.
Qed.

(** Below the level [warn] it touches standard output only. *)
Lemma said_hush debug level message context w :
  Logger.LOG_LEVELS level <= 1 ->
  hush (said debug level message context w) = hush w.
Proof.
  intros Hlevel. unfold said, debugLog. destruct debug; [|reflexivity].
  destruct level; cbn in Hlevel; try lia;
    destruct context; cbn; unfold hush, Logger.log; cbn;
    destruct (Logger.shouldLog _ _); reflexivity.
Qed.

(** ** Programs that differ in their debug lines only *)

Lemma alike_ret {A : Type} erase (a : A) : alike erase (mret a) (mret a).
Proof. intros w1 w2 H. split; [reflexivity | exact H]. Qed.

Lemma alike_throw {A : Type} erase e : alike erase (@throw Sys A e) (throw e).
Proof. intros w1 w2 H. split; [reflexivity | exact H]. Qed.

Lemma alike_bind {A B : Type} erase (f g : L A) (k k' : A -> L B) :
  alike erase f g ->
  (forall a, alike erase (k a) (k' a)) ->
  alike erase (f ≫= k) (g ≫= k').
Proof.
  intros Hfg Hk w1 w2 H. unfold mbind, Prog_bind.
  destruct (Hfg w1 w2 H) as [Hfst Hsnd].
  destruct (f w1) as [[a|e] w1'], (g w2) as [[a'|e'] w2']; cbn [fst snd] in *;
    try discriminate.
  - injection Hfst as <-. apply Hk. exact Hsnd.
  - injection Hfst as <-. split; [reflexivity | exact Hsnd].
Qed.

Lemma alike_try_catch {A : Type} erase (f g : L A) (h h' : string -> L A) :
  alike erase f g ->
  (forall e, alike erase (h e) (h' e)) ->
  alike erase (try_catch f h) (try_catch g h').
Proof.
  intros Hfg Hh w1 w2 H. unfold try_catch.
  destruct (Hfg w1 w2 H) as [Hfst Hsnd].
  destruct (f w1) as [[a|e] w1'], (g w2) as [[a'|e'] w2']; cbn [fst snd] in *;
    try discriminate.
  - split; [exact Hfst | exact Hsnd].
  - injection Hfst as <-. apply Hh. exact Hsnd.
Qed.

Lemma alike_for_of {A : Type} erase (body body' : A -> L unit) xs :
  (forall x, alike erase (body x) (body' x)) ->
  alike erase (for_of xs body) (for_of xs body').
Proof.
  intros Hbody. induction xs as [|x xs IH]; cbn [for_of].
  - apply alike_ret.
  - apply alike_bind; [apply Hbody | intros _; exact IH].
Qed.

Lemma alike_debugLog erase debug level message context :
  (forall w, erase (said debug level message context w) = erase w) ->
  alike erase (debugLog debug level message context) (mret tt).
Proof.
  intros Herase w1 w2 H. rewrite debugLog_run. cbn [fst snd mret Prog_ret].
  split; [reflexivity|]. rewrite Herase. exact H.
Qed.

Lemma alike_debugLog_mute debug level message context :
  alike mute (debugLog debug level message context) (debugLog false level message context).
Proof. apply alike_debugLog. intros w. apply said_mute. Qed.

Lemma alike_debugLog_hush debug level message context :
  Logger.LOG_LEVELS level <= 1 ->
  alike hush (debugLog debug level message context) (debugLog false level message context).
Proof. intros Hlevel. apply alike_debugLog. intros w. apply said_hush. exact Hlevel. Qed.

(** A primitive that neither reads nor writes what [erase] forgets. *)
Ltac alike_primitive :=
  let w1 := fresh "w" in
  let w2 := fresh "w" in
  let H := fresh "H" in
  intros w1 w2 H; destruct w1, w2; cbn in H; injection H as H; subst; cbn;
  repeat match goal with |- context [if ?c then _ else _] => destruct c end;
  split; reflexivity.

Lemma alike_this_port_mute : alike mute this_port this_port.
Proof. unfold this_port. alike_primitive. Qed.

Lemma alike_this_port_hush : alike hush this_port this_port.
Proof. unfold this_port. alike_primitive. Qed.

Lemma alike_isServerRunning : alike mute isServerRunning isServerRunning.
Proof. unfold isServerRunning. alike_primitive. Qed.

Lemma alike_spawn_server : alike mute spawn_server spawn_server.
Proof. unfold spawn_server. alike_primitive. Qed.

Lemma alike_sleep ms : alike mute (sleep ms) (sleep ms).
Proof. unfold sleep. alike_primitive. Qed.

Lemma alike_execSync_lsof : alike hush execSync_lsof execSync_lsof.
Proof. unfold execSync_lsof. alike_primitive. Qed.

Lemma alike_execSync_kill pid : alike hush (execSync_kill pid) (execSync_kill pid).
Proof. unfold execSync_kill, killCalls. alike_primitive. Qed.

Lemma alike_debugLog_port_mute debug level message :
  alike mute (debugLog_port debug level message) (debugLog_port false level message).
Proof.
  unfold debugLog_port. apply alike_bind; [apply alike_this_port_mute|].
  intros p. apply alike_debugLog_mute.
Qed.

Lemma alike_debugLog_port_hush debug level message :
  Logger.LOG_LEVELS level <= 1 ->
  alike hush (debugLog_port debug level message) (debugLog_port false level message).
Proof.
  intros Hlevel. unfold debugLog_port. apply alike_bind; [apply alike_this_port_hush|].
  intros p. apply alike_debugLog_hush. exact Hlevel.
Qed.

(** ** The liveness probe *)

Lemma resolved_by_true e : resolved_by e = true <-> e = EvResponse 200.
Proof.
  destruct e as [statusCode| |]; simpl.
  - rewrite Z.eqb_eq. split; [intros ->; reflexivity | intros [= ->]; reflexivity].
  - split; discriminate.
  - split; discriminate.
Qed.

(** C6, as stated, fails: with a port outside 0..65535 the URL of the
    probe does not parse, [http.get] throws inside the executor, and
    [isServerRunning] rejects with "Invalid URL" instead of returning
    [false].  No request is issued. *)
Lemma C6_invalid_port_throws :
  let w := new_ServerLauncher 70000
             (example_sys (fun _ => mkHttpTrace EvError []) (Throw "lsof") (fun _ => Ok tt)) in
  valid_port (port w) = false /\
  fst (isServerRunning w) = Throw "Invalid URL" /\
  requestLog (snd (isServerRunning w)) = [].
Proof. cbv zeta. repeat split. Qed.

(** C6 (amended).  With a port from 0 to 65535, [isServerRunning] returns
    a boolean and never throws: it issues one GET to [/health] on
    [localhost] at the launcher's port with a timeout of 2000 ms, and
    returns [true] exactly when the request yields status 200; a network
    error, a timeout or another status gives [false].  With any other port
    it issues no request and throws "Invalid URL". *)
Theorem C6_isServerRunning_outcomes w :
  let e := firstEvent (probeSource w (length (requestLog w))) in
  (valid_port (port w) = true ->
     isServerRunning w =
       (Ok (resolved_by e),
        log_request (mkHttpRequest "localhost" (port w) "/health" 2000) w) /\
     (forall message, fst (isServerRunning w) <> Throw message) /\
     (resolved_by e = true <-> e = EvResponse 200) /\
     (e = EvError -> resolved_by e = false) /\
     (e = EvTimeout -> resolved_by e = false) /\
     (forall statusCode,
        statusCode <> 200 -> e = EvResponse statusCode -> resolved_by e = false)) /\
  (valid_port (port w) = false ->
     isServerRunning w = (Throw "Invalid URL", w)).
Proof.
  intros e. split.
  - intros Hvalid. unfold isServerRunning. rewrite Hvalid.
    split; [reflexivity|]. split; [intros message; discriminate|].
    split; [apply resolved_by_true|].
    split; [intros ->; reflexivity|]. split; [intros ->; reflexivity|].
    intros statusCode Hne ->. simpl. apply Z.eqb_neq. exact Hne.
  - intros Hinvalid. unfold isServerRunning. rewrite Hinvalid. reflexivity.
Qed.

Lemma C6_witness :
  let w := example_sys (fun _ => mkHttpTrace EvTimeout [EvError]) (Throw "lsof") (fun _ => Ok tt) in
  fst (isServerRunning w) = Ok false /\
  requestLog (snd (isServerRunning w)) = [mkHttpRequest "localhost" 32701 "/health" 2000] /\
  isServerRunning (new_ServerLauncher (-1) w) =
    (Throw "Invalid URL", new_ServerLauncher (-1) w).
Proof.
  cbv zeta.
  pose proof (C6_isServerRunning_outcomes
                (example_sys (fun _ => mkHttpTrace EvTimeout [EvError]) (Throw "lsof")
                             (fun _ => Ok tt)))
    as [Hvalid _].
  destruct Hvalid as (Hrun & _ & _ & _ & Htimeout & _); [reflexivity|].
  rewrite Hrun. cbn [fst snd]. split; [|split; [reflexivity|]].
  - rewrite Htimeout by reflexivity. reflexivity.
  - apply (C6_isServerRunning_outcomes
             (new_ServerLauncher (-1)
                (example_sys (fun _ => mkHttpTrace EvTimeout [EvError]) (Throw "lsof")
                             (fun _ => Ok tt)))).
    reflexivity.
Defined.

(** ** Starting the server *)

Lemma after_polls_none w : after_polls 0 0 w = w.
Proof. destruct w. unfold after_polls. simpl. rewrite !app_nil_r. reflexivity. Qed.

Lemma after_polls_request w :
  log_request (healthRequest (port w)) w = after_polls 1 0 w.
Proof. destruct w. unfold after_polls, log_request. simpl. rewrite app_nil_r. reflexivity. Qed.

Lemma after_polls_step a b w :
  after_polls a b (log_sleep 1000 (log_request (healthRequest (port w)) w)) =
  after_polls (S a) (S b) w.
Proof.
  destruct w. unfold after_polls, log_sleep, log_request. simpl.
  rewrite <- !app_assoc. reflexivity.
Qed.

(** One round of the loop. *)
Lemma pollLoop_round debug n r w :
  (r < n)%nat ->
  pollLoop debug n r w =
    (isRunning ← isServerRunning;
     if isRunning : bool then debugLog_port debug Logger.Info "HTTP server is ready"
     else sleep 1000;; pollLoop debug n (S r)) w.
Proof.
  intros Hlt. rewrite pollLoop_equation_1.
  destruct (decide (r < n)%nat) as [l|Hge]; [|contradiction].
  rewrite pollLoop_clause_1_equation_1. reflexivity.
Qed.

Lemma pollLoop_stop debug n r w :
  ~ (r < n)%nat ->
  pollLoop debug n r w = (Throw "Server failed to start within timeout", w).
Proof.
  intros Hge. rewrite pollLoop_equation_1.
  destruct (decide (r < n)%nat) as [l|Hstop]; [contradiction|]. reflexivity.
Qed.

Lemma pollLoop_step n r w :
  (r < n)%nat ->
  valid_port (port w) = true ->
  pollLoop false n r w =
    if probe_answer w (length (requestLog w))
    then (Ok tt, log_request (healthRequest (port w)) w)
    else pollLoop false n (S r) (log_sleep 1000 (log_request (healthRequest (port w)) w)).
Proof.
  intros Hlt Hvalid. rewrite pollLoop_round by exact Hlt. run_sys.
  unfold probe_answer. rewrite Hvalid. cbn [andb fst snd].
  destruct (settle _); reflexivity.
Qed.

(** After a failed probe and the wait, the next probe is the next entry of
    the oracle. *)
Lemma probe_answer_next w i :
  let w' := log_sleep 1000 (log_request (healthRequest (port w)) w) in
  probe_answer w' (length (requestLog w') + i) =
  probe_answer w (length (requestLog w) + S i).
Proof.
  cbv zeta. unfold probe_answer. simpl. rewrite length_app. simpl.
  do 3 f_equal. lia.
Qed.

(** The loop returns at the first successful probe, after one wait per
    failed probe. *)
Lemma pollLoop_found j :
  forall n r w,
    valid_port (port w) = true ->
    (r + j < n)%nat ->
    (forall i, (i < j)%nat -> probe_answer w (length (requestLog w) + i) = false) ->
    probe_answer w (length (requestLog w) + j) = true ->
    pollLoop false n r w = (Ok tt, after_polls (S j) j w).
Proof.
  induction j as [|j IH]; intros n r w Hvalid Hlt Hfalse Htrue.
  - rewrite pollLoop_step by (lia || exact Hvalid).
    rewrite Nat.add_0_r in Htrue. rewrite Htrue.
    rewrite after_polls_request. reflexivity.
  - rewrite pollLoop_step by (lia || exact Hvalid).
    pose proof (Hfalse 0%nat ltac:(lia)) as H0. rewrite Nat.add_0_r in H0. rewrite H0.
    rewrite (IH n (S r)).
    + rewrite after_polls_step. reflexivity.
    + exact Hvalid.
    + lia.
    + intros i Hi. rewrite probe_answer_next. apply Hfalse. lia.
    + rewrite probe_answer_next. exact Htrue.
Qed.

(** The loop gives up after [n - r] failed probes and as many waits. *)
Lemma pollLoop_exhausted k :
  forall n r w,
    valid_port (port w) = true ->
    (n - r)%nat = k ->
    (forall i, (i < k)%nat -> probe_answer w (length (requestLog w) + i) = false) ->
    pollLoop false n r w =
      (Throw "Server failed to start within timeout", after_polls k k w).
Proof.
  induction k as [|k IH]; intros n r w Hvalid Hk Hfalse.
  - rewrite pollLoop_stop by lia. rewrite after_polls_none. reflexivity.
  - rewrite pollLoop_step by (lia || exact Hvalid).
    pose proof (Hfalse 0%nat ltac:(lia)) as H0. rewrite Nat.add_0_r in H0. rewrite H0.
    rewrite (IH n (S r)).
    + rewrite after_polls_step. reflexivity.
    + exact Hvalid.
    + lia.
    + intros i Hi. rewrite probe_answer_next. apply Hfalse. lia.
Qed.

(** Debug mode changes what the loop writes, and nothing else. *)
Lemma alike_pollLoop debug k :
  forall n r, (n - r)%nat = k -> alike mute (pollLoop debug n r) (pollLoop false n r).
Proof.
  induction k as [|k IH]; intros n r Hk w1 w2 H.
  - rewrite !pollLoop_stop by lia. split; [reflexivity | exact H].
  - rewrite !pollLoop_round by lia. revert w1 w2 H.
    apply alike_bind; [apply alike_isServerRunning|].
    intros [|]; [apply alike_debugLog_port_mute|].
    apply alike_bind; [apply alike_sleep|]. intros _. apply IH. lia.
Qed.

Lemma alike_startServer debug : alike mute (startServer debug) (startServer false).
Proof.
  unfold startServer. apply alike_try_catch.
  - apply alike_bind; [unfold alike; intros w1 w2 H; destruct w1, w2; cbn in H;
                        injection H as H; subst; split; reflexivity|].
    intros script. apply alike_bind; [apply alike_this_port_mute|].
    intros p. apply alike_bind; [apply alike_debugLog_mute|].
    intros _. apply alike_bind; [apply alike_spawn_server|].
    intros _. apply (alike_pollLoop debug 30). reflexivity.
  - intros e. apply alike_bind; [apply alike_debugLog_mute|].
    intros _. apply alike_throw.
Qed.

Lemma alike_ensureServerRunning debug :
  alike mute (ensureServerRunning debug) (ensureServerRunning false).
Proof.
  unfold ensureServerRunning. apply alike_try_catch.
  - apply alike_bind; [apply alike_isServerRunning|].
    intros [|]; cbn [negb]; [apply alike_debugLog_mute|].
    apply alike_bind; [apply alike_debugLog_mute|].
    intros _. apply alike_startServer.
  - intros e. apply alike_bind; [apply alike_debugLog_mute|].
    intros _. apply alike_throw.
Qed.

(** Whether it returns, and everything but the two streams, is the same
    with and without debug mode. *)
Lemma ensureServerRunning_debug debug w :
  fst (ensureServerRunning debug w) = fst (ensureServerRunning false w) /\
  mute (snd (ensureServerRunning debug w)) = mute (snd (ensureServerRunning false w)).
Proof. apply alike_ensureServerRunning. reflexivity. Qed.

(** The run without debug mode. *)
Lemma ensureServerRunning_quiet_run w :
  ensureServerRunning false w =
    if valid_port (port w) then
      if probe_answer w (length (requestLog w)) then (Ok tt, after_polls 1 0 w)
      else pollLoop false 30 0 (after_spawn (after_polls 1 0 w))
    else (Throw "Invalid URL", w).
Proof.
  unfold ensureServerRunning, startServer, probe_answer. run_sys.
  destruct (valid_port (port w)); [|reflexivity]. cbn [andb fst snd].
  destruct (settle (probeSource w (length (requestLog w)))); cbn [negb].
  - rewrite after_polls_request. reflexivity.
  - rewrite after_polls_request.
    change (log_spawn _ (set_serverProcess _ (after_polls 1 0 w)))
      with (after_spawn (after_polls 1 0 w)).
    destruct (pollLoop false 30 0 (after_spawn (after_polls 1 0 w))) as [[[]|e] w'];
      reflexivity.
Qed.

(** C4, as stated, fails for a port outside 0..65535: the first probe
    throws "Invalid URL", and [ensureServerRunning] rethrows it; it spawns
    no process, never polls, and the error is not the startup timeout. *)
Lemma C4_invalid_port_no_spawn :
  let w := new_ServerLauncher 70000
             (example_sys (fun _ => mkHttpTrace EvError []) (Throw "lsof") (fun _ => Ok tt)) in
  (forall i, probe_answer w i = false) /\
  fst (ensureServerRunning false w) = Throw "Invalid URL" /\
  fst (ensureServerRunning false w) <> Throw "Server failed to start within timeout" /\
  spawnLog (snd (ensureServerRunning false w)) = [] /\
  requestLog (snd (ensureServerRunning false w)) = [] /\
  sleepLog (snd (ensureServerRunning false w)) = [].
Proof.
  cbv zeta. split; [intros i; reflexivity|]. split; [reflexivity|].
  split; [discriminate|]. repeat split.
Qed.

(** C4 (amended).  With a port from 0 to 65535, in debug mode or not,
    [ensureServerRunning] first probes the port.  If that probe succeeds
    it returns at once and spawns nothing.  Otherwise it spawns one
    detached process and polls: it returns as soon as one of at most 30
    polls succeeds, having waited 1000 ms after each failed poll, and it
    fails with the error "Server failed to start within timeout" when all
    30 polls fail.  With any other port it fails with "Invalid URL" before
    any request, spawn or wait. *)
Theorem C4_ensureServerRunning_probe_spawn_poll debug w :
  let first := length (requestLog w) in
  let request := healthRequest (port w) in
  let run := ensureServerRunning debug w in
  (valid_port (port w) = true ->
   (probe_answer w first = true ->
      fst run = Ok tt /\
      requestLog (snd run) = requestLog w ++ [request] /\
      spawnLog (snd run) = spawnLog w /\
      sleepLog (snd run) = sleepLog w) /\
   (probe_answer w first = false ->
      forall j, (j < 30)%nat ->
        (forall i, (i < j)%nat -> probe_answer w (first + 1 + i) = false) ->
        probe_answer w (first + 1 + j) = true ->
        fst run = Ok tt /\
        spawnLog (snd run) = spawnLog w ++ [server_child w] /\
        detached (server_child w) = true /\
        requestLog (snd run) = requestLog w ++ replicate (j + 2) request /\
        sleepLog (snd run) = sleepLog w ++ replicate j 1000) /\
   (probe_answer w first = false ->
      (forall i, (i < 30)%nat -> probe_answer w (first + 1 + i) = false) ->
      fst run = Throw "Server failed to start within timeout" /\
      spawnLog (snd run) = spawnLog w ++ [server_child w] /\
      detached (server_child w) = true /\
      requestLog (snd run) = requestLog w ++ replicate 31 request /\
      sleepLog (snd run) = sleepLog w ++ replicate 30 1000)) /\
  (valid_port (port w) = false ->
     fst run = Throw "Invalid URL" /\
     requestLog (snd run) = requestLog w /\
     spawnLog (snd run) = spawnLog w /\
     sleepLog (snd run) = sleepLog w).
Proof.
  intros first request run. subst first request run.
  destruct (ensureServerRunning_debug debug w) as [Hfst Hmute].
  rewrite Hfst.
  rewrite (f_equal requestLog Hmute : requestLog (snd (ensureServerRunning debug w)) = _).
  rewrite (f_equal spawnLog Hmute : spawnLog (snd (ensureServerRunning debug w)) = _).
  rewrite (f_equal sleepLog Hmute : sleepLog (snd (ensureServerRunning debug w)) = _).
  cbn [mute requestLog spawnLog sleepLog].
  rewrite ensureServerRunning_quiet_run.
  assert (Hlen : length (requestLog (after_spawn (after_polls 1 0 w)))
                 = (length (requestLog w) + 1)%nat)
    by (simpl; rewrite length_app; reflexivity).
  split.
  - intros Hvalid. rewrite Hvalid. split; [|split].
    + intros Hup. rewrite Hup. repeat split; simpl; rewrite ?app_nil_r; reflexivity.
    + intros Hdown j Hj Hfalse Htrue. rewrite Hdown.
      rewrite (pollLoop_found j); [| exact Hvalid | lia | |].
      * cbn [fst snd]. split; [reflexivity|]. split; [reflexivity|].
        split; [reflexivity|]. split.
        -- simpl. rewrite <- app_assoc. f_equal.
           replace (j + 2)%nat with (S (S j)) by lia. reflexivity.
        -- simpl. rewrite app_nil_r. reflexivity.
      * intros i Hi. rewrite Hlen. apply Hfalse. exact Hi.
      * rewrite Hlen. exact Htrue.
    + intros Hdown Hfalse. rewrite Hdown.
      rewrite (pollLoop_exhausted 30); [| exact Hvalid | reflexivity |].
      * cbn [fst snd]. split; [reflexivity|]. split; [reflexivity|].
        split; [reflexivity|]. split.
        -- simpl. rewrite <- app_assoc. reflexivity.
        -- simpl. rewrite app_nil_r. reflexivity.
      * intros i Hi. rewrite Hlen. apply Hfalse. exact Hi.
  - intros Hinvalid. rewrite Hinvalid. repeat split; reflexivity.
Qed.

Lemma C4_witness :
  let answers := fun k : nat =>
    mkHttpTrace (if (k <? 3)%nat then EvError else EvResponse 200) [] in
  let w := example_sys answers (Throw "lsof") (fun _ => Ok tt) in
  let down := example_sys (fun _ => mkHttpTrace EvTimeout []) (Throw "lsof") (fun _ => Ok tt) in
  (fst (ensureServerRunning true w) = Ok tt /\
   spawnLog (snd (ensureServerRunning true w)) = [server_child w] /\
   detached (server_child w) = true /\
   requestLog (snd (ensureServerRunning true w)) = replicate 4 (healthRequest 32701) /\
   sleepLog (snd (ensureServerRunning true w)) = [1000; 1000]) /\
  (fst (ensureServerRunning false down) = Throw "Server failed to start within timeout" /\
   spawnLog (snd (ensureServerRunning false down)) = [server_child down] /\
   detached (server_child down) = true /\
   requestLog (snd (ensureServerRunning false down)) = replicate 31 (healthRequest 32701) /\
   sleepLog (snd (ensureServerRunning false down)) = replicate 30 1000).
Proof.
  cbv zeta. split.
  - destruct (C4_ensureServerRunning_probe_spawn_poll true
                (example_sys (fun k : nat =>
                   mkHttpTrace (if (k <? 3)%nat then EvError else EvResponse 200) [])
                   (Throw "lsof") (fun _ => Ok tt))) as [Hvalid _].
    destruct (Hvalid eq_refl) as (_ & Hpoll & _).
    apply (Hpoll eq_refl 2%nat).
    + lia.
    + intros [|[|i]] Hi; [reflexivity | reflexivity | lia].
    + reflexivity.
  - destruct (C4_ensureServerRunning_probe_spawn_poll false
                (example_sys (fun _ => mkHttpTrace EvTimeout []) (Throw "lsof")
                             (fun _ => Ok tt))) as [Hvalid _].
    destruct (Hvalid eq_refl) as (_ & _ & Hfail).
    apply (Hfail eq_refl). intros i _. reflexivity.
Defined.

(** ** Reclaiming the port and the restart command *)

Lemma ran_nil w : ran [] w = w.
Proof. destruct w. unfold ran. simpl. rewrite app_nil_r. reflexivity. Qed.

Lemma ran_ran a b w : ran b (ran a w) = ran (a ++ b) w.
Proof. destruct w. unfold ran. simpl. rewrite <- app_assoc. reflexivity. Qed.

Lemma log_exec_ran c w : log_exec c w = ran [c] w.
Proof. reflexivity. Qed.

Lemma child_stderr_nil w : child_stderr [] w = w.
Proof. destruct w. unfold child_stderr. simpl. rewrite app_nil_r. reflexivity. Qed.

(** What the children wrote and the commands logged are kept apart. *)
Lemma child_stderr_ran a b c d w :
  child_stderr b (ran d (child_stderr a (ran c w))) = child_stderr (a ++ b) (ran (c ++ d) w).
Proof.
  destruct w. unfold child_stderr, ran. simpl. rewrite <- !app_assoc. reflexivity.
Qed.

Lemma killCalls_after_kill written pid w :
  killCalls (child_stderr written (ran [Kill9 pid] w)) = S (killCalls w).
Proof.
  unfold killCalls. cbn. rewrite List.filter_app, length_app. cbn. lia.
Qed.

Lemma killCalls_after_lsof written p w :
  killCalls (child_stderr written (ran [Lsof p] w)) = killCalls w.
Proof.
  unfold killCalls. cbn. rewrite List.filter_app, length_app. cbn. lia.
Qed.

(** One round of the loop without debug mode: the kill is run and what it
    wrote is on standard error, whether it succeeded or not. *)
Lemma kill_pid_quiet pid w :
  kill_pid false pid w =
    (Ok tt, child_stderr (killStderr w (killCalls w)) (ran [Kill9 pid] w)).
Proof.
  unfold kill_pid, execSync_kill. run_sys.
  destruct (killSource w (killCalls w)) as [[]|e]; reflexivity.
Qed.

(** The loop over the pids sends [kill -9] to each, in order, and goes on
    when a kill fails. *)
Lemma kill_each pids :
  forall w,
    for_of pids (kill_pid false) w =
    (Ok tt,
     child_stderr (concat (imap (fun i _ => killStderr w (killCalls w + i)%nat) pids))
                  (ran (map Kill9 pids) w)).
Proof.
  induction pids as [|pid pids IH]; intros w.
  - cbn. rewrite ran_nil, child_stderr_nil. reflexivity.
  - cbn [for_of]. unfold mbind, Prog_bind. rewrite kill_pid_quiet, IH.
    rewrite killCalls_after_kill.
    rewrite <- (ran_nil w) at 3. rewrite child_stderr_ran.
    cbn [imap concat map app]. rewrite Nat.add_0_r. f_equal. f_equal.
    + f_equal. f_equal. apply imap_ext. intros i x _. cbn. f_equal. lia.
    + rewrite ran_nil. reflexivity.
Qed.

Lemma listed_pids_blank out : truthy (trim out) = false -> listed_pids out = [].
Proof.
  unfold listed_pids. destruct (trim out); [reflexivity | discriminate].
Qed.

(** The second [try] without debug mode: [lsof] for the port, then one
    [kill -9] per listed pid, whatever their outcomes. *)
Lemma lsof_and_kill_run w :
  lsof_and_kill false w = (Ok tt, reclaimed w).
Proof.
  unfold lsof_and_kill, reclaimed, reclaim_commands, reclaim_stderr.
  unfold try_catch, mbind, Prog_bind, execSync_lsof at 1.
  destruct (lsofSource w) as [out|e] eqn:Hlsof; cbn [fst snd].
  - destruct (truthy (trim out)) eqn:Hout.
    + fold (listed_pids out). rewrite kill_each, log_exec_ran.
      rewrite killCalls_after_lsof, child_stderr_ran. reflexivity.
    + rewrite (listed_pids_blank out Hout). run_sys.
      cbn [map imap concat]. rewrite app_nil_r. reflexivity.
  - run_sys. rewrite app_nil_r. reflexivity.
Qed.

(** [killServerByPort] without debug mode always returns normally, having
    run [lsof] for the port and one [kill -9] per listed pid. *)
Lemma killServerByPort_run w :
  killServerByPort false w = (Ok tt, reclaimed w).
Proof.
  unfold killServerByPort. unfold try_catch, mbind, Prog_bind.
  rewrite debugLog_port_run. cbn [fst snd]. rewrite said_quiet.
  rewrite lsof_and_kill_run. reflexivity.
Qed.

Lemma alike_kill_pid debug pid : alike hush (kill_pid debug pid) (kill_pid false pid).
Proof.
  unfold kill_pid. apply alike_try_catch.
  - apply alike_bind; [apply alike_execSync_kill|].
    intros _. apply alike_bind; [apply alike_this_port_hush|].
    intros p. apply alike_debugLog_hush. cbn. lia.
  - intros e. apply alike_debugLog_hush. cbn. lia.
Qed.

Lemma alike_lsof_and_kill debug : alike hush (lsof_and_kill debug) (lsof_and_kill false).
Proof.
  unfold lsof_and_kill. apply alike_try_catch.
  - apply alike_bind; [apply alike_execSync_lsof|].
    intros out. cbv zeta. destruct (truthy (trim out)).
    + apply alike_for_of. intros pid. apply alike_kill_pid.
    + apply alike_debugLog_port_hush. cbn. lia.
  - intros e. apply alike_debugLog_port_hush. cbn. lia.
Qed.

(** In debug mode or not, [killServerByPort] returns normally, and up to
    what it wrote to standard output it ends where the run without debug
    mode ends. *)
Lemma killServerByPort_debug debug w :
  fst (killServerByPort debug w) = Ok tt /\
  hush (snd (killServerByPort debug w)) = hush (reclaimed w).
Proof.
  assert (Hbody : alike hush
            (debugLog_port debug Logger.Debug "Attempting to kill server on port";;
             lsof_and_kill debug)
            (debugLog_port false Logger.Debug "Attempting to kill server on port";;
             lsof_and_kill false)).
  { apply alike_bind; [apply alike_debugLog_port_hush; cbn; lia|].
    intros _. apply alike_lsof_and_kill. }
  destruct (Hbody w w eq_refl) as [Hfst Hsnd].
  assert (Hquiet : (debugLog_port false Logger.Debug "Attempting to kill server on port";;
                    lsof_and_kill false) w = (Ok tt, reclaimed w)).
  { unfold mbind, Prog_bind. rewrite debugLog_port_run. cbn [fst snd].
    rewrite said_quiet. apply lsof_and_kill_run. }
  rewrite Hquiet in Hfst, Hsnd. cbn [fst snd] in Hfst, Hsnd.
  unfold killServerByPort, try_catch.
  destruct ((debugLog_port debug Logger.Debug "Attempting to kill server on port";;
             lsof_and_kill debug) w) as [[[]|e] w']; cbn [fst snd] in *.
  - split; [reflexivity | exact Hsnd].
  - discriminate Hfst.
Qed.

(** In debug mode a successful kill is reported on standard output. *)
Example killServerByPort_debug_line :
  let w := example_sys (fun _ => mkHttpTrace EvTimeout []) (Ok ("4242" +:+ line_feed))
             (fun _ => Ok tt) in
  stdout (snd (killServerByPort true w)) =
    ["[2025-01-01T00:00:00.000Z] [INFO] Killed server process {pid,port}"] /\
  stdout (snd (killServerByPort false w)) = [].
Proof. cbv zeta. split; vm_compute; reflexivity. Qed.

(** C8, as stated, fails: when [lsof] fails (the owner of the port cannot
    be determined) and when [kill] fails, the restart command still prints
    its success message and exits with code 0, in debug mode or not.  What
    standard error holds is what the failed commands wrote themselves. *)
Lemma C8_restart_ignores_lsof_and_kill_failures :
  let no_lsof := example_sys_noisy (Throw "Command failed: lsof -i :32701 -t")
                   (fun _ => Ok tt) ["/bin/sh: 1: lsof: not found"] [] in
  let no_kill := example_sys_noisy (Ok ("4242" +:+ line_feed))
                   (fun _ => Throw "Command failed: kill -9 4242") []
                   ["/bin/sh: 1: kill: (4242) - Operation not permitted"] in
  let restart := fun debug =>
    main debug (Some "--restart") (Ok example_config) (mret KeepsRunning) in
  (forall debug,
     fst (restart debug no_lsof) = Ok (Exited 0) /\
     execLog (snd (restart debug no_lsof)) = [Lsof 32701] /\
     last (stdout (snd (restart debug no_lsof))) = Some "✓ Server restarted successfully" /\
     stderr (snd (restart debug no_lsof)) = ["/bin/sh: 1: lsof: not found"]) /\
  (forall debug,
     fst (restart debug no_kill) = Ok (Exited 0) /\
     execLog (snd (restart debug no_kill)) = [Lsof 32701; Kill9 "4242"] /\
     last (stdout (snd (restart debug no_kill))) = Some "✓ Server restarted successfully" /\
     stderr (snd (restart debug no_kill)) =
       ["/bin/sh: 1: kill: (4242) - Operation not permitted"]).
Proof. cbv zeta. split; intros [|]; repeat split; vm_compute; reflexivity. Qed.

(** C8 (amended).  The restart command, given the configured port, runs
    [lsof] for that port and sends [kill -9] to every pid listed, whoever
    started it; whenever the configuration loads it then prints its success
    message as the last line of standard output and exits with code 0,
    whatever [lsof] and the kills returned: of their failures standard
    error holds only what the commands wrote themselves, and without debug
    mode the success message is all that is written to standard output.
    It exits with code 1, with "Error during restart: " and the error
    message as the last line of standard error, exactly when loading the
    configuration fails; nothing is killed then. *)
Theorem C8_restart_exit_codes debug w launch :
  (forall config,
     let run := main debug (Some "--restart") (Ok config) launch w in
     fst run = Ok (Exited 0) /\
     execLog (snd run) =
       execLog w ++
       Lsof (ServerConfig.httpPort config) ::
       match lsofSource w with
       | Ok out => map Kill9 (listed_pids out)
       | Throw _ => []
       end /\
     last (stdout (snd run)) = Some "✓ Server restarted successfully" /\
     stderr (snd run) = stderr w ++ reclaim_stderr w /\
     (debug = false -> stdout (snd run) = stdout w ++ ["✓ Server restarted successfully"])) /\
  (forall message,
     let run := main debug (Some "--restart") (Throw message) launch w in
     fst run = Ok (Exited 1) /\
     execLog (snd run) = execLog w /\
     last (stderr (snd run)) = Some ("Error during restart: " +:+ message)).
Proof.
  split.
  - intros config run. subst run. unfold main. rewrite decide_True by reflexivity.
    set (w0 := snd ((if debug then mret tt else setLogLevel Logger.Error) w)).
    set (w1 := new_ServerLauncher (ServerConfig.httpPort config) w0).
    assert (Hrun : main debug (Some "--restart") (Ok config) launch w =
                   (Ok (Exited 0),
                    log_stdout "✓ Server restarted successfully"
                      (snd (killServerByPort debug w1)))).
    { unfold main. rewrite decide_True by reflexivity.
      destruct (killServerByPort_debug debug w1) as [Hok _].
      unfold try_catch, mbind, Prog_bind at 1.
      assert (Hfirst : (if debug then mret tt else setLogLevel Logger.Error) w = (Ok tt, w0))
        by (subst w0; destruct debug; reflexivity).
      rewrite Hfirst. unfold mbind, Prog_bind at 1. cbn [fst snd].
      unfold mbind, Prog_bind at 1. fold w1.
      unfold mbind, Prog_bind at 1.
      destruct (killServerByPort debug w1) as [[[]|e] w2]; cbn [fst snd] in *;
        [reflexivity | discriminate Hok]. }
    unfold main in Hrun. rewrite decide_True in Hrun by reflexivity. rewrite Hrun.
    cbn [fst snd]. destruct (killServerByPort_debug debug w1) as [_ Hhush].
    assert (Hfields : execLog w1 = execLog w /\ stderr w1 = stderr w /\
                      stdout w1 = stdout w /\ lsofSource w1 = lsofSource w /\
                      reclaim_stderr w1 = reclaim_stderr w /\ port w1 = ServerConfig.httpPort config)
      by (subst w1 w0; destruct debug; repeat split).
    destruct Hfields as (Hexec & Herr & Hout & Hlsof & Hchildren & Hport).
    clearbody w1.
    pose proof (f_equal execLog Hhush) as Hcommands.
    pose proof (f_equal stderr Hhush) as Hwritten.
    cbn [hush execLog stderr] in Hcommands, Hwritten.
    cbn [log_stdout execLog stdout stderr].
    split; [reflexivity|]. split; [|split; [|split]].
    + rewrite Hcommands. cbn. unfold reclaim_commands.
      rewrite Hexec, Hlsof, Hport. reflexivity.
    + apply last_snoc.
    + rewrite Hwritten. cbn. rewrite Herr, Hchildren. reflexivity.
    + intros ->. rewrite killServerByPort_run. cbn. rewrite Hout. reflexivity.
  - intros message run. subst run. unfold main. rewrite decide_True by reflexivity.
    destruct debug; run_sys; (split; [reflexivity|]); (split; [reflexivity|]);
      cbn; apply last_snoc.
Qed.

Lemma C8_witness :
  let w := example_sys_noisy (Ok ("4242" +:+ line_feed))
             (fun _ => Throw "Command failed: kill -9 4242") []
             ["/bin/sh: 1: kill: (4242) - Operation not permitted"] in
  stdout (snd (main false (Some "--restart") (Ok example_config) (mret KeepsRunning) w)) =
    ["✓ Server restarted successfully"].
Proof.
  cbv zeta.
  destruct (C8_restart_exit_codes false
              (example_sys_noisy (Ok ("4242" +:+ line_feed))
                 (fun _ => Throw "Command failed: kill -9 4242") []
                 ["/bin/sh: 1: kill: (4242) - Operation not permitted"])
              (mret KeepsRunning)) as [Hloaded _].
  destruct (Hloaded example_config) as (_ & _ & _ & _ & Hout).
  exact (Hout eq_refl).
Defined.

(** ** The chat tool and unconfigured models *)

Lemma chat_turn_unconfigured clients backend message reasoning cid model w :
  clients !! model = None ->
  chat_turn clients backend message reasoning cid model w =
    (Ok (PlainText ("Error: Model not configured: " +:+ model)), w).
Proof. intros H. unfold chat_turn. rewrite H. reflexivity. Qed.

(** Without a usable conversation id, the handler creates a conversation
    for the resolved model before it looks the model up. *)
Lemma chat_new_conversation_unconfigured clients config backend message reasoning
    argConversationId argModelId model w :
  truthy_opt argConversationId = false ->
  resolved_model config argModelId = Some model ->
  clients !! model = None ->
  exists w',
    chat clients config backend message argConversationId argModelId reasoning w =
      (Ok (PlainText ("Error: Model not configured: " +:+ model)), w') /\
    snd (createConversation model w) = w'.
Proof.
  intros Hcid Hmodel Hclient.
  assert (Hresolve :
    (match argModelId with
     | Some mid => if truthy mid then mret mid else first_model_id config
     | None => first_model_id config
     end : M string) w = (Ok model, w)).
  { unfold resolved_model in Hmodel. unfold first_model_id.
    destruct argModelId as [mid|]; [destruct (truthy mid)|];
      try (injection Hmodel as ->; reflexivity);
      destruct (ServerConfig.models config) as [|m ms]; simpl in Hmodel;
      try discriminate; injection Hmodel as ->; reflexivity. }
  destruct (createConversation_run model w) as (w' & Hrun & _).
  exists w'. split; [|rewrite Hrun; reflexivity].
  unfold chat. cbv zeta.
  assert (Hcreate :
    (actualModelId ← (match argModelId with
                      | Some mid => if truthy mid then mret mid else first_model_id config
                      | None => first_model_id config
                      end : M string);
     actualConversationId ← createConversation actualModelId;
     chat_turn clients backend message reasoning actualConversationId actualModelId) w
    = (Ok (PlainText ("Error: Model not configured: " +:+ model)), w')).
  { unfold mbind, Prog_bind at 1. rewrite Hresolve.
    unfold mbind, Prog_bind at 1. rewrite Hrun.
    apply chat_turn_unconfigured. exact Hclient. }
  unfold try_catch.
  destruct argConversationId as [cid|].
  - simpl in Hcid. rewrite Hcid. rewrite Hcreate. reflexivity.
  - rewrite Hcreate. reflexivity.
Qed.

(** With a stored conversation and a different model id, the handler
    clones the conversation before it looks the model up. *)
Lemma chat_switch_model_unconfigured clients config backend message reasoning
    cid mid existing w :
  truthy cid = true ->
  store w !! cid = Some existing ->
  truthy mid = true ->
  mid <> modelId existing ->
  clients !! mid = None ->
  exists w',
    chat clients config backend message (Some cid) (Some mid) reasoning w =
      (Ok (PlainText ("Error: Model not configured: " +:+ mid)), w') /\
    snd (cloneConversation cid mid w) = w'.
Proof.
  intros Hcid Hstored Hmid Hne Hclient.
  destruct (cloneConversation_found cid mid w existing Hstored) as (w' & Hrun & _).
  exists w'. split; [|rewrite Hrun; reflexivity].
  unfold chat. cbv zeta. unfold try_catch. rewrite Hcid.
  unfold mbind, Prog_bind at 1. rewrite getConversation_run, Hstored.
  rewrite Hmid, bool_decide_false by exact Hne. cbn [negb andb].
  unfold mbind, Prog_bind at 1. rewrite Hrun.
  rewrite chat_turn_unconfigured by exact Hclient. reflexivity.
Qed.

(** Continuing a stored conversation whose own model has no client creates
    nothing: the error is returned and the world is as before.  Such a
    conversation can only stem from an earlier call of one of the two kinds
    above. *)
Lemma chat_continue_unconfigured clients config backend message reasoning
    cid existing w :
  truthy cid = true ->
  store w !! cid = Some existing ->
  clients !! modelId existing = None ->
  chat clients config backend message (Some cid) None reasoning w =
    (Ok (PlainText ("Error: Model not configured: " +:+ modelId existing)), w).
Proof.
  intros Hcid Hstored Hclient.
  unfold chat. cbv zeta. unfold try_catch. rewrite Hcid.
  unfold mbind, Prog_bind at 1. rewrite getConversation_run, Hstored.
  rewrite chat_turn_unconfigured by exact Hclient. reflexivity.
Qed.

(** C10.  A chat call that resolves to a model id without a configured
    client returns the text "Error: Model not configured: <id>", and by
    then the store has changed: without a conversation id a new, empty
    conversation bound to that model was created, and with the id of a
    stored conversation plus a different model id a clone carrying all of
    its messages was created.  The new conversation stays in the store.
    (The identifier generator is assumed to return an unused id.) *)
Theorem C10_model_not_configured_after_store_change
    clients config backend message reasoning w :
  store w !! next_uuid w = None ->
  (forall argConversationId argModelId model,
     truthy_opt argConversationId = false ->
     resolved_model config argModelId = Some model ->
     clients !! model = None ->
     exists w' conv,
       chat clients config backend message argConversationId argModelId reasoning w =
         (Ok (PlainText ("Error: Model not configured: " +:+ model)), w') /\
       store w' !! next_uuid w = Some conv /\
       id conv = next_uuid w /\ modelId conv = model /\ messages conv = [] /\
       store w' <> store w) /\
  (forall cid mid existing,
     truthy cid = true ->
     store w !! cid = Some existing ->
     truthy mid = true ->
     mid <> modelId existing ->
     clients !! mid = None ->
     exists w' conv,
       chat clients config backend message (Some cid) (Some mid) reasoning w =
         (Ok (PlainText ("Error: Model not configured: " +:+ mid)), w') /\
       store w' !! next_uuid w = Some conv /\
       id conv = next_uuid w /\ modelId conv = mid /\
       messages conv = messages existing /\
       store w' !! cid = Some existing /\
       store w' <> store w).
Proof.
  intros Hfresh. split.
  - intros argConversationId argModelId model Hcid Hmodel Hclient.
    destruct (chat_new_conversation_unconfigured clients config backend message
                reasoning argConversationId argModelId model w Hcid Hmodel Hclient)
      as (w' & Hchat & Hw').
    destruct (createConversation_run model w)
      as (w1 & Hrun & _ & created & updated & Hstore).
    rewrite Hrun in Hw'. cbn [snd] in Hw'. subst w1.
    exists w'. eexists. split; [exact Hchat|].
    split; [rewrite Hstore; apply lookup_insert_eq|].
    repeat split.
    intros Heq. rewrite <- Heq, Hstore, lookup_insert_eq in Hfresh. discriminate Hfresh.
  - intros cid mid existing Hcid Hstored Hmid Hne Hclient.
    destruct (chat_switch_model_unconfigured clients config backend message
                reasoning cid mid existing w Hcid Hstored Hmid Hne Hclient)
      as (w' & Hchat & Hw').
    destruct (cloneConversation_found cid mid w existing Hstored)
      as (w1 & Hrun & _ & created & updated & Hstore).
    rewrite Hrun in Hw'. cbn [snd] in Hw'. subst w1.
    assert (Hother : next_uuid w <> cid) by congruence.
    exists w'. eexists. split; [exact Hchat|].
    split; [rewrite Hstore; apply lookup_insert_eq|].
    repeat split.
    + rewrite Hstore, lookup_insert_ne by exact Hother. exact Hstored.
    + intros Heq. rewrite <- Heq, Hstore, lookup_insert_eq in Hfresh.
      discriminate Hfresh.
Qed.

Lemma C10_witness :
  let w := example_world 500 (example_store [m1; m2]) in
  (exists w' conv,
     chat example_clients example_config example_backend "hi" None (Some "model-x") None w =
       (Ok (PlainText "Error: Model not configured: model-x"), w') /\
     store w' !! "uuid-0" = Some conv /\
     id conv = "uuid-0" /\ modelId conv = "model-x" /\ messages conv = [] /\
     store w' <> store w) /\
  (exists w' conv,
     chat example_clients example_config example_backend "hi" (Some "c1") (Some "model-x")
          None w =
       (Ok (PlainText "Error: Model not configured: model-x"), w') /\
     store w' !! "uuid-0" = Some conv /\
     id conv = "uuid-0" /\ modelId conv = "model-x" /\ messages conv = [m1; m2] /\
     store w' !! "c1" = Some (example_conversation [m1; m2]) /\
     store w' <> store w).
Proof.
  cbv zeta.
  destruct (C10_model_not_configured_after_store_change
              example_clients example_config example_backend "hi" None
              (example_world 500 (example_store [m1; m2])))
    as [Hnew Hswitch]; [reflexivity|].
  split.
  - apply (Hnew None (Some "model-x") "model-x"); reflexivity.
  - apply (Hswitch "c1" "model-x" (example_conversation [m1; m2]));
      [reflexivity | reflexivity | reflexivity | discriminate | reflexivity].
Defined.

(** * Further properties of the conversation store *)

(** The exact world after each writing operation. *)
Lemma createConversation_exact model w :
  createConversation model w =
    (Ok (next_uuid w),
     mkWorld
       (mkHost (uuidSource (host w)) (S (uuidCalls (host w)))
               (clockSource (host w)) (S (S (clockCalls (host w)))))
       (mkConversationManager
          (<[next_uuid w :=
               mkConversationState (next_uuid w) model []
                 (clockSource (host w) (clockCalls (host w)))
                 (clockSource (host w) (S (clockCalls (host w))))]> (store w))
          (truncateLimit (manager w)))).
Proof. reflexivity. Qed.

Lemma addMessage_exact cid r c w conv :
  store w !! cid = Some conv ->
  addMessage cid r c w =
    (Ok tt,
     mkWorld
       (mkHost (uuidSource (host w)) (uuidCalls (host w))
               (clockSource (host w)) (S (clockCalls (host w))))
       (mkConversationManager
          (<[cid :=
               mkConversationState (id conv) (modelId conv)
                 (messages conv ++ [mkChatMessage r c]) (createdAt conv)
                 (clockSource (host w) (clockCalls (host w)))]> (store w))
          (truncateLimit (manager w)))).
Proof.
  intros H. unfold addMessage. run_store.
  unfold store in H. rewrite H. reflexivity.
Qed.

Lemma cloneConversation_exact cid model w source :
  store w !! cid = Some source ->
  cloneConversation cid model w =
    (Ok (next_uuid w),
     mkWorld
       (mkHost (uuidSource (host w)) (S (uuidCalls (host w)))
               (clockSource (host w)) (S (S (S (clockCalls (host w))))))
       (mkConversationManager
          (<[next_uuid w :=
               mkConversationState (next_uuid w) model (messages source)
                 (clockSource (host w) (clockCalls (host w)))
                 (clockSource (host w) (S (S (clockCalls (host w)))))]> (store w))
          (truncateLimit (manager w)))).
Proof.
  intros H. unfold cloneConversation, createConversation. run_store.
  unfold store in H. rewrite H. run_store.
  rewrite lookup_insert_eq. run_store. unfold store, next_uuid.
  rewrite insert_insert_eq, map_copyMessage. reflexivity.
Qed.

(** The store after an operation is the store before it, with at most the
    written key changed. *)
Lemma after_lookup_other op w other :
  written_key op w <> Some other ->
  store (after op w) !! other = store w !! other.
Proof.
  intros Hother. destruct op as [model|k|k r c|k|source model];
    cbn [after written_key] in *.
  - rewrite createConversation_exact. unfold store at 1. cbn.
    apply lookup_insert_ne. congruence.
  - reflexivity.
  - destruct (store w !! k) as [target|] eqn:Hk.
    + rewrite (addMessage_exact k r c w target Hk). unfold store at 1. cbn.
      apply lookup_insert_ne. congruence.
    + rewrite (addMessage_missing k r c w Hk). reflexivity.
  - destruct (store w !! k) as [target|] eqn:Hk.
    + rewrite (getHistory_found k w target Hk). reflexivity.
    + rewrite (getHistory_missing k w Hk). reflexivity.
  - destruct (store w !! source) as [src|] eqn:Hsrc.
    + rewrite (cloneConversation_exact source model w src Hsrc). unfold store at 1. cbn.
      apply lookup_insert_ne. congruence.
    + rewrite (cloneConversation_missing source model w Hsrc). reflexivity.
Qed.

(** The keys of the store after an operation. *)
Lemma after_dom op w :
  dom (store (after op w)) =
    if allocates op
    then match op with
         | OpClone source _ =>
             if decide (is_Some (store w !! source))
             then {[next_uuid w]} ∪ dom (store w) else dom (store w)
         | _ => {[next_uuid w]} ∪ dom (store w)
         end
    else dom (store w).
Proof.
  destruct op as [model|k|k r c|k|source model]; cbn [after allocates].
  - rewrite createConversation_exact. unfold store at 1. cbn.
    apply dom_insert_L.
  - reflexivity.
  - destruct (store w !! k) as [target|] eqn:Hk.
    + rewrite (addMessage_exact k r c w target Hk). unfold store at 1. cbn.
      rewrite dom_insert_L. apply subseteq_union_1_L.
      apply singleton_subseteq_l, elem_of_dom. eauto.
    + rewrite (addMessage_missing k r c w Hk). reflexivity.
  - destruct (store w !! k) as [target|] eqn:Hk.
    + rewrite (getHistory_found k w target Hk). reflexivity.
    + rewrite (getHistory_missing k w Hk). reflexivity.
  - destruct (store w !! source) as [src|] eqn:Hsrc.
    + rewrite (cloneConversation_exact source model w src Hsrc). unfold store at 1. cbn.
      rewrite decide_True by eauto. apply dom_insert_L.
    + rewrite (cloneConversation_missing source model w Hsrc).
      rewrite decide_False; [reflexivity|]. intros [x Hx]. discriminate Hx.
Qed.

(** X1.  No operation of the store removes a conversation: the set of
    stored ids only grows.  A read or an append leaves it as it is; a
    create or a clone adds at most the identifier it drew. *)
Theorem X1_no_operation_removes_a_conversation op w :
  dom (store w) ⊆ dom (store (after op w)) /\
  dom (store (after op w)) ⊆ {[next_uuid w]} ∪ dom (store w) /\
  (if allocates op then True else dom (store (after op w)) = dom (store w)).
Proof.
  rewrite after_dom.
  destruct op as [model|k|k r c|k|source model]; cbn [allocates];
    try (destruct (decide _)); repeat split; set_solver.
Qed.

(** X2.  An operation changes the store at no key but its own: an append
    only at the id it is given, a create or a clone only at the identifier
    it drew, a read nowhere.  Every other conversation is stored exactly
    as before. *)
Theorem X2_operations_write_one_key op w other :
  written_key op w <> Some other ->
  store (after op w) !! other = store w !! other.
Proof. apply after_lookup_other. Qed.

Lemma X2_witness :
  store (after (OpAppend "c1" user "more")
           (example_world 500 (<["c2" := example_conversation [m3]]> (example_store [m1]))))
    !! "c2"
  = Some (example_conversation [m3]).
Proof.
  rewrite (X2_operations_write_one_key (OpAppend "c1" user "more")
             (example_world 500 (<["c2" := example_conversation [m3]]> (example_store [m1])))
             "c2").
  - reflexivity.
  - simpl. discriminate.
Defined.

(** X3.  Starting from an empty store, after every sequence of
    operations each conversation is stored under its own id: the key and
    the [id] field agree, also when the identifier generator repeats
    itself. *)
Theorem X3_ids_match_keys ops w :
  store w = ∅ -> keyed_by_id (after_all ops w).
Proof.
  intros Hempty.
  assert (Hstart : keyed_by_id w).
  { intros cid conv H. rewrite Hempty, lookup_empty in H. discriminate H. }
  clear Hempty. revert w Hstart.
  induction ops as [|op ops IH]; intros w Hk.
  - exact Hk.
  - simpl. apply IH. apply keyed_by_id_preserved. exact Hk.
Qed.

Lemma X3_witness :
  keyed_by_id
    (after_all [OpCreate "model-a"; OpAppend "uuid-0" user "hello"; OpClone "uuid-0" "model-b"]
       (example_world 500 ∅)).
Proof.
  apply (X3_ids_match_keys
           [OpCreate "model-a"; OpAppend "uuid-0" user "hello"; OpClone "uuid-0" "model-b"]
           (example_world 500 ∅)).
  reflexivity.
Defined.

(** ** Time stamps *)

Lemma after_clock op w :
  clockSource (host (after op w)) = clockSource (host w) /\
  (clockCalls (host w) <= clockCalls (host (after op w)))%nat.
Proof.
  destruct op as [model|k|k r c|k|source model]; cbn [after].
  - rewrite createConversation_exact. cbn. split; [reflexivity | lia].
  - split; [reflexivity | cbn; lia].
  - destruct (store w !! k) as [target|] eqn:Hk.
    + rewrite (addMessage_exact k r c w target Hk). cbn. split; [reflexivity | lia].
    + rewrite (addMessage_missing k r c w Hk). cbn. split; [reflexivity | lia].
  - destruct (store w !! k) as [target|] eqn:Hk.
    + rewrite (getHistory_found k w target Hk). cbn. split; [reflexivity | lia].
    + rewrite (getHistory_missing k w Hk). cbn. split; [reflexivity | lia].
  - destruct (store w !! source) as [src|] eqn:Hsrc.
    + rewrite (cloneConversation_exact source model w src Hsrc). cbn.
      split; [reflexivity | lia].
    + rewrite (cloneConversation_missing source model w Hsrc). cbn.
      split; [reflexivity | lia].
Qed.

(** X4.  With a clock that never goes back, every operation keeps the
    time stamps in order: each stored conversation has
    [createdAt <= updatedAt], and no operation moves the [createdAt] or the
    [updatedAt] stored under an id backwards. *)
Theorem X4_time_stamps_stay_ordered op w :
  clock_monotone w ->
  times_ordered w ->
  times_ordered (after op w) /\
  (forall cid conv conv',
     store w !! cid = Some conv ->
     store (after op w) !! cid = Some conv' ->
     createdAt conv <= createdAt conv' /\ updatedAt conv <= updatedAt conv').
Proof.
  intros Hmono Hord.
  assert (Hlater : forall cid conv k,
             store w !! cid = Some conv ->
             (clockCalls (host w) <= k)%nat ->
             createdAt conv <= clockSource (host w) k /\
             updatedAt conv <= clockSource (host w) k).
  { intros cid conv k Hc Hk. destruct (Hord cid conv Hc) as [H1 H2].
    pose proof (Hmono _ _ Hk). lia. }
  destruct op as [model|k|k r c|k|source model]; cbn [after].
  - rewrite createConversation_exact. unfold times_ordered, store at 1 3. cbn.
    split.
    + intros cid conv. rewrite lookup_insert. case_decide.
      * intros [= <-]. cbn. split; apply Hmono; lia.
      * intros Hc. destruct (Hord cid conv Hc). split; [assumption|].
        apply (Hlater cid conv); [assumption | lia].
    + intros cid conv conv' Hc. rewrite lookup_insert. case_decide.
      * intros [= <-]. cbn. subst cid.
        pose proof (Hlater _ conv (clockCalls (host w)) Hc ltac:(lia)).
        pose proof (Hlater _ conv (S (clockCalls (host w))) Hc ltac:(lia)). lia.
      * intros Hc'. replace conv' with conv by congruence. lia.
  - split; [exact Hord|]. intros cid conv conv' Hc Hc'.
    replace conv' with conv by (cbn in Hc'; congruence). lia.
  - destruct (store w !! k) as [target|] eqn:Hk.
    + rewrite (addMessage_exact k r c w target Hk).
      unfold times_ordered, store at 1 3. cbn. split.
      * intros cid conv. rewrite lookup_insert. case_decide.
        -- intros [= <-]. cbn. destruct (Hord k target Hk). split; [lia|].
           apply Hmono. lia.
        -- intros Hc. destruct (Hord cid conv Hc). split; [assumption|].
           apply (Hlater cid conv); [assumption | lia].
      * intros cid conv conv' Hc. rewrite lookup_insert. case_decide.
        -- intros [= <-]. cbn. subst cid. replace conv with target by congruence.
           destruct (Hord k target Hk). lia.
        -- intros Hc'. replace conv' with conv by congruence. lia.
    + rewrite (addMessage_missing k r c w Hk). cbn [snd].
      split; [exact Hord|]. intros cid conv conv' Hc Hc'.
      replace conv' with conv by congruence. lia.
  - assert (Hsame : snd (getHistory k w) = w).
    { destruct (store w !! k) as [target|] eqn:Hk.
      - rewrite (getHistory_found k w target Hk). reflexivity.
      - rewrite (getHistory_missing k w Hk). reflexivity. }
    rewrite Hsame. split; [exact Hord|]. intros cid conv conv' Hc Hc'.
    replace conv' with conv by congruence. lia.
  - destruct (store w !! source) as [src|] eqn:Hsrc.
    + rewrite (cloneConversation_exact source model w src Hsrc).
      unfold times_ordered, store at 1 3. cbn. split.
      * intros cid conv. rewrite lookup_insert. case_decide.
        -- intros [= <-]. cbn. split; apply Hmono; lia.
        -- intros Hc. destruct (Hord cid conv Hc). split; [assumption|].
           apply (Hlater cid conv); [assumption | lia].
      * intros cid conv conv' Hc. rewrite lookup_insert. case_decide.
        -- intros [= <-]. cbn. subst cid.
           pose proof (Hlater _ conv (clockCalls (host w)) Hc ltac:(lia)).
           pose proof (Hlater _ conv (S (S (clockCalls (host w)))) Hc ltac:(lia)). lia.
        -- intros Hc'. replace conv' with conv by congruence. lia.
    + rewrite (cloneConversation_missing source model w Hsrc). cbn [snd].
      split; [exact Hord|]. intros cid conv conv' Hc Hc'.
      replace conv' with conv by congruence. lia.
Qed.

Lemma X4_witness :
  times_ordered (after (OpCreate "model-a") (example_world 500 ∅)).
Proof.
  apply (X4_time_stamps_stay_ordered (OpCreate "model-a") (example_world 500 ∅)).
  - intros i j Hij. simpl. lia.
  - intros cid conv H. unfold store in H. simpl in H.
    rewrite lookup_empty in H. discriminate H.
Defined.

(** ** More on the truncated view *)

(** X5.  For a limit of at least 2 the view never has more than
    [limit + 1] entries, and for an odd limit never more than [limit].  For
    an even limit a truncated view has exactly [limit + 1] entries, one
    more than the limit. *)
Theorem X5_view_length limit l :
  2 <= limit ->
  Z.of_nat (length (truncateMessages limit l)) <= limit + 1 /\
  (Z.odd limit = true -> Z.of_nat (length (truncateMessages limit l)) <= limit) /\
  (Z.even limit = true -> limit < Z.of_nat (length l) ->
   Z.of_nat (length (truncateMessages limit l)) = limit + 1).
Proof.
  intros H2.
  assert (Hdiv : limit = 2 * (limit / 2) + limit mod 2) by (apply Z.div_mod; lia).
  assert (Hmod : 0 <= limit mod 2 < 2) by (apply Z.mod_pos_bound; lia).
  assert (Hpos : 0 < limit / 2) by (apply Z.div_str_pos; lia).
  destruct (Z.leb_spec (Z.of_nat (length l)) limit) as [Hfit|Hlong].
  - rewrite truncateMessages_fits by assumption.
    split; [lia|]. split; [intros _; exact Hfit | intros _ ?; lia].
  - destruct (truncateMessages_shape limit l H2 Hlong) as [Hlen _].
    cbv zeta in Hlen. rewrite Hlen.
    split; [lia|]. split.
    + intros Hodd. rewrite Zodd_mod in Hodd.
      apply Z.eqb_eq in Hodd. lia.
    + intros Heven _. rewrite Zeven_mod in Heven.
      apply Z.eqb_eq in Heven. lia.
Qed.

Lemma X5_witness :
  Z.of_nat (length (truncateMessages 2 [m1; m2; m3])) <= 2 + 1 /\
  Z.of_nat (length (truncateMessages 2 [m1; m2; m3])) = 2 + 1.
Proof.
  destruct (X5_view_length 2 [m1; m2; m3]) as (Hbound & _ & Heven); [lia|].
  split; [exact Hbound|]. apply Heven; [reflexivity | simpl; lia].
Defined.

(** X6.  A truncated view (limit at least 2) is a prefix of the stored
    messages, the marker, and a suffix of the stored messages of the same
    length; the two parts do not overlap, so without the marker the view is
    a sub-sequence of the stored list: nothing is invented, repeated or
    reordered. *)
Theorem X6_view_is_prefix_marker_suffix limit l :
  2 <= limit -> limit < Z.of_nat (length l) ->
  exists first last,
    truncateMessages limit l = first ++ [marker] ++ last /\
    first `prefix_of` l /\
    last `suffix_of` l /\
    length first = length last /\
    first ++ last `sublist_of` l.
Proof.
  intros H2 Hlong.
  assert (Hpos : 0 < limit / 2) by (apply Z.div_str_pos; lia).
  assert (Hhalf : 2 * (limit / 2) <= limit) by (apply Z.mul_div_le; lia).
  set (k := Z.to_nat (limit / 2)).
  assert (Hk : (2 * k <= length l)%nat) by (subst k; lia).
  exists (take k l), (drop (length l - k) l).
  split; [apply truncateMessages_exceeds; assumption|].
  split; [apply prefix_take|]. split; [apply suffix_drop|]. split.
  - rewrite length_take, length_drop. lia.
  - assert (Hsub : take k l ++ drop (length l - k) l `sublist_of` take k l ++ drop k l).
    { apply sublist_app; [reflexivity|].
      replace (length l - k)%nat with (k + (length l - 2 * k))%nat by lia.
      rewrite <- drop_drop. apply sublist_drop. }
    rewrite take_drop in Hsub. exact Hsub.
Qed.

Lemma X6_witness :
  exists first last,
    truncateMessages 2 [m1; m2; m3] = first ++ [marker] ++ last /\
    first `prefix_of` [m1; m2; m3] /\
    last `suffix_of` [m1; m2; m3] /\
    length first = length last /\
    first ++ last `sublist_of` [m1; m2; m3].
Proof.
  apply (X6_view_is_prefix_marker_suffix 2 [m1; m2; m3]); [lia | simpl; lia].
Defined.

(** X7.  With a negative limit nothing fits: every history, also the
    empty one, goes through the truncation branch.  With
    [k = -floor(limit/2)], the view is the list without its last [k]
    messages, the marker, and the list without its first [k] messages; an
    empty conversation is shown as the marker alone. *)
Theorem X7_negative_limit limit l :
  limit < 0 ->
  truncateMessages limit l =
    take (length l - Z.to_nat (- (limit / 2))) l ++ [marker] ++
    drop (Z.to_nat (- (limit / 2))) l /\
  truncateMessages limit [] = [marker].
Proof.
  intros Hneg.
  assert (Hk : limit / 2 < 0) by (apply Z.div_lt_upper_bound; lia).
  assert (Hgen : forall l0 : list ChatMessage,
             truncateMessages limit l0 =
               take (length l0 - Z.to_nat (- (limit / 2))) l0 ++ [marker] ++
               drop (Z.to_nat (- (limit / 2))) l0).
  { intros l0. unfold truncateMessages.
    destruct (Z.leb_spec (Z.of_nat (length l0)) limit) as [?|_]; [lia|].
    cbv zeta. unfold slice, relativeIndex.
    destruct (Z.ltb_spec 0 0) as [?|_]; [lia|].
    destruct (Z.ltb_spec (limit / 2) 0) as [_|?]; [|lia].
    destruct (Z.ltb_spec (- (limit / 2)) 0) as [?|_]; [lia|].
    rewrite Z.min_l by lia. rewrite Z.sub_0_r. cbn [Z.to_nat drop].
    f_equal; [|f_equal].
    - f_equal. lia.
    - destruct (Z.le_gt_cases (- (limit / 2)) (Z.of_nat (length l0))).
      + rewrite Z.min_l by lia. apply take_ge. rewrite length_drop. lia.
      + rewrite Z.min_r by lia. rewrite Nat2Z.id.
        rewrite !drop_ge by lia. rewrite take_nil. reflexivity. }
  split; [apply Hgen|]. rewrite Hgen, take_nil, drop_nil. reflexivity.
Qed.

Lemma X7_witness :
  truncateMessages (-1) [m1; m2] = [m1; marker; m2] /\
  truncateMessages (-1) [] = [marker].
Proof.
  destruct (X7_negative_limit (-1) [m1; m2]) as [Hview Hempty]; [lia|].
  split; [rewrite Hview; reflexivity | exact Hempty].
Defined.

(** * Further properties of the tools *)

(** One turn with a configured model on a stored conversation: the user
    message is appended, the backend sees the truncated history that ends
    with it, and the reply, if any, is appended too. *)
Lemma chat_turn_run clients backend message reasoning cid model client conv w :
  clients !! model = Some client ->
  store w !! cid = Some conv ->
  let asked := after (OpAppend cid user message) w in
  let history := truncateMessages (truncateLimit (manager w))
                   (messages conv ++ [mkChatMessage user message]) in
  chat_turn clients backend message reasoning cid model w =
    match backend client model history reasoning with
    | Ok response =>
        (Ok (ChatJson cid (replyContent response) (replyReasoning response) model),
         after (OpAppend cid assistant (replyContent response)) asked)
    | Throw e => (Throw e, asked)
    end.
Proof.
  intros Hclient Hconv asked history. subst asked history.
  unfold chat_turn. rewrite Hclient. cbn [after].
  rewrite (addMessage_exact cid user message w conv Hconv). cbn [snd].
  unfold mbind, Prog_bind at 1.
  rewrite (addMessage_exact cid user message w conv Hconv).
  set (w1 := mkWorld _ _).
  assert (Hc1 : store w1 !! cid =
                Some (mkConversationState (id conv) (modelId conv)
                        (messages conv ++ [mkChatMessage user message]) (createdAt conv)
                        (clockSource (host w) (clockCalls (host w)))))
    by apply lookup_insert_eq.
  unfold mbind, Prog_bind at 1. rewrite (getHistory_found cid w1 _ Hc1).
  cbn [messages]. change (truncateLimit (manager w1)) with (truncateLimit (manager w)).
  unfold mbind, Prog_bind at 1.
  destruct (backend client model _ reasoning) as [response|e]; [|reflexivity].
  unfold mbind, Prog_bind at 1.
  destruct (addMessage_found cid assistant (replyContent response) w1 _ Hc1)
    as (w2 & Hadd & _).
  rewrite Hadd. reflexivity.
Qed.

(** When the handler continues a stored conversation, it runs one turn on
    it and renders an error as text. *)
Lemma chat_continue_run clients config backend message reasoning cid argModelId existing w :
  truthy cid = true ->
  store w !! cid = Some existing ->
  keeps_model argModelId existing = true ->
  chat clients config backend message (Some cid) argModelId reasoning w =
    try_catch
      (chat_turn clients backend message reasoning cid (modelId existing))
      (fun errorMessage => mret (PlainText ("Error: " +:+ errorMessage))) w.
Proof.
  intros Hcid Hstored Hkeep. unfold chat. cbv zeta. unfold try_catch. rewrite Hcid.
  unfold mbind, Prog_bind at 1. rewrite getConversation_run, Hstored.
  destruct argModelId as [mid|]; [|reflexivity].
  cbn [keeps_model] in Hkeep. apply negb_true_iff in Hkeep. rewrite Hkeep.
  reflexivity.
Qed.

(** X8.  The [chat] handler never throws: whatever the arguments, the
    store, the configuration and the backend do, it returns a tool
    result. *)
Theorem X8_chat_never_throws clients config backend message argConversationId argModelId
    reasoning w :
  exists text w',
    chat clients config backend message argConversationId argModelId reasoning w =
      (Ok text, w').
Proof.
  unfold chat. cbv zeta. unfold try_catch.
  match goal with |- context [match ?body w with _ => _ end] =>
    destruct (body w) as [[text|e] w'] end.
  - exists text, w'. reflexivity.
  - eexists. exists w'. reflexivity.
Qed.

(** X9.  A [chat] call with a conversation id that is not stored returns
    the text "Error: Conversation not found: <id>" whatever model id comes
    with it; it changes nothing and does not reach the backend. *)
Theorem X9_chat_unknown_conversation clients config backend message cid argModelId
    reasoning w :
  truthy cid = true ->
  store w !! cid = None ->
  chat clients config backend message (Some cid) argModelId reasoning w =
    (Ok (PlainText ("Error: Conversation not found: " +:+ cid)), w).
Proof.
  intros Hcid Hnone. unfold chat. cbv zeta. unfold try_catch. rewrite Hcid.
  unfold mbind, Prog_bind at 1. rewrite getConversation_run, Hnone. reflexivity.
Qed.

Lemma X9_witness :
  chat example_clients example_config example_backend "hi" (Some "zz") (Some "model-a") None
       (example_world 500 (example_store [m1]))
  = (Ok (PlainText "Error: Conversation not found: zz"),
     example_world 500 (example_store [m1])).
Proof.
  apply (X9_chat_unknown_conversation example_clients example_config example_backend
           "hi" "zz" (Some "model-a") None (example_world 500 (example_store [m1])));
    reflexivity.
Defined.

(** X10.  An empty string counts as an absent argument: a [chat] call with
    the conversation id [''] starts a new conversation like a call without
    one, and the model id [''] selects what a call without a model id
    selects. *)
Theorem X10_chat_empty_string_is_absent clients config backend message reasoning w :
  (forall argModelId,
     chat clients config backend message (Some EmptyString) argModelId reasoning w =
     chat clients config backend message None argModelId reasoning w) /\
  (forall argConversationId,
     chat clients config backend message argConversationId (Some EmptyString) reasoning w =
     chat clients config backend message argConversationId None reasoning w).
Proof.
  split.
  - intros argModelId. reflexivity.
  - intros [cid|]; [|reflexivity].
    unfold chat. cbv zeta. unfold try_catch.
    destruct (truthy cid); [|reflexivity].
    unfold mbind, Prog_bind at 1 3. rewrite getConversation_run.
    destruct (store w !! cid); reflexivity.
Qed.

Lemma after_append_found cid r c w conv :
  store w !! cid = Some conv ->
  store (after (OpAppend cid r c) w) !! cid =
    Some (mkConversationState (id conv) (modelId conv)
            (messages conv ++ [mkChatMessage r c]) (createdAt conv)
            (clockSource (host w) (clockCalls (host w)))) /\
  truncateLimit (manager (after (OpAppend cid r c) w)) = truncateLimit (manager w).
Proof.
  intros Hc. cbn [after]. rewrite (addMessage_exact cid r c w conv Hc).
  split; [apply lookup_insert_eq | reflexivity].
Qed.

(** X11.  A [chat] call that continues a stored conversation whose model
    has a client, answered by the backend, returns the same conversation
    id with the reply and the model.  The backend was asked with the
    truncated history that ends with the new user message; afterwards the
    conversation holds its old messages followed by exactly the user
    message and the assistant reply, in this order, and no conversation
    was added. *)
Theorem X11_chat_turn_appends_exchange clients config backend message reasoning cid
    argModelId existing client response w :
  truthy cid = true ->
  store w !! cid = Some existing ->
  keeps_model argModelId existing = true ->
  clients !! modelId existing = Some client ->
  backend client (modelId existing)
    (truncateMessages (truncateLimit (manager w))
       (messages existing ++ [mkChatMessage user message]))
    reasoning = Ok response ->
  exists w' conv',
    chat clients config backend message (Some cid) argModelId reasoning w =
      (Ok (ChatJson cid (replyContent response) (replyReasoning response)
                    (modelId existing)), w') /\
    store w' !! cid = Some conv' /\
    messages conv' =
      messages existing ++
      [mkChatMessage user message; mkChatMessage assistant (replyContent response)] /\
    id conv' = id existing /\
    modelId conv' = modelId existing /\
    dom (store w') = dom (store w).
Proof.
  intros Hcid Hstored Hkeep Hclient Hreply.
  rewrite (chat_continue_run clients config backend message reasoning cid argModelId
             existing w Hcid Hstored Hkeep).
  unfold try_catch.
  rewrite (chat_turn_run clients backend message reasoning cid (modelId existing)
             client existing w Hclient Hstored).
  cbv zeta. rewrite Hreply.
  destruct (after_append_found cid user message w existing Hstored) as [Hasked _].
  destruct (after_append_found cid assistant (replyContent response) _ _ Hasked)
    as [Hdone _].
  do 2 eexists. split; [reflexivity|]. split; [exact Hdone|].
  cbn [messages id modelId]. rewrite <- app_assoc.
  repeat split.
  rewrite !after_dom. reflexivity.
Qed.

Lemma X11_witness :
  exists w' conv',
    chat example_clients example_config example_backend "and then?" (Some "c1") None None
         (example_world 500 (example_store [m1; m2])) =
      (Ok (ChatJson "c1" "fine" None "model-a"), w') /\
    store w' !! "c1" = Some conv' /\
    messages conv' = [m1; m2; m3; mkChatMessage assistant "fine"].
Proof.
  destruct (X11_chat_turn_appends_exchange example_clients example_config example_backend
              "and then?" None "c1" None (example_conversation [m1; m2])
              (OpenAIClient.mk "key-a" "https://api.example/v1")
              (mkChatReply "fine" None)
              (example_world 500 (example_store [m1; m2])))
    as (w' & conv' & Hrun & Hconv & Hmsgs & _); try reflexivity.
  exists w', conv'. split; [exact Hrun|]. split; [exact Hconv | exact Hmsgs].
Defined.

(** X12.  When the backend fails during such a call, the handler returns
    the text "Error: <message of the failure>"; the user message it had
    appended before asking the backend stays in the conversation, without
    an assistant reply after it. *)
Theorem X12_chat_backend_failure_keeps_user_message clients config backend message
    reasoning cid argModelId existing client failure w :
  truthy cid = true ->
  store w !! cid = Some existing ->
  keeps_model argModelId existing = true ->
  clients !! modelId existing = Some client ->
  backend client (modelId existing)
    (truncateMessages (truncateLimit (manager w))
       (messages existing ++ [mkChatMessage user message]))
    reasoning = Throw failure ->
  exists w' conv',
    chat clients config backend message (Some cid) argModelId reasoning w =
      (Ok (PlainText ("Error: " +:+ failure)), w') /\
    store w' !! cid = Some conv' /\
    messages conv' = messages existing ++ [mkChatMessage user message].
Proof.
  intros Hcid Hstored Hkeep Hclient Hfail.
  rewrite (chat_continue_run clients config backend message reasoning cid argModelId
             existing w Hcid Hstored Hkeep).
  unfold try_catch.
  rewrite (chat_turn_run clients backend message reasoning cid (modelId existing)
             client existing w Hclient Hstored).
  cbv zeta. rewrite Hfail.
  destruct (after_append_found cid user message w existing Hstored) as [Hasked _].
  do 2 eexists. split; [reflexivity|]. split; [exact Hasked | reflexivity].
Qed.

Lemma X12_witness :
  exists w' conv',
    chat example_clients example_config (fun _ _ _ _ => Throw "socket hang up")
         "and then?" (Some "c1") None None
         (example_world 500 (example_store [m1; m2])) =
      (Ok (PlainText "Error: socket hang up"), w') /\
    store w' !! "c1" = Some conv' /\
    messages conv' = [m1; m2; m3].
Proof.
  apply (X12_chat_backend_failure_keeps_user_message example_clients example_config
           (fun _ _ _ _ => Throw "socket hang up") "and then?" None "c1" None
           (example_conversation [m1; m2])
           (OpenAIClient.mk "key-a" "https://api.example/v1") "socket hang up"
           (example_world 500 (example_store [m1; m2])));
    reflexivity.
Defined.

(** X13.  Switching the model: a [chat] call with the id of a stored
    conversation and a different model id that has a client returns a new
    conversation id.  The new conversation is bound to the new model and
    holds the messages of the source followed by the user message and the
    reply; the source conversation is stored exactly as before.  (The
    identifier generator is assumed to return an unused id.) *)
Theorem X13_chat_switch_model clients config backend message reasoning cid mid
    existing client response w :
  truthy cid = true ->
  store w !! cid = Some existing ->
  truthy mid = true ->
  mid <> modelId existing ->
  clients !! mid = Some client ->
  store w !! next_uuid w = None ->
  backend client mid
    (truncateMessages (truncateLimit (manager w))
       (messages existing ++ [mkChatMessage user message]))
    reasoning = Ok response ->
  exists w' conv',
    chat clients config backend message (Some cid) (Some mid) reasoning w =
      (Ok (ChatJson (next_uuid w) (replyContent response) (replyReasoning response) mid),
       w') /\
    next_uuid w <> cid /\
    store w' !! next_uuid w = Some conv' /\
    modelId conv' = mid /\
    messages conv' =
      messages existing ++
      [mkChatMessage user message; mkChatMessage assistant (replyContent response)] /\
    store w' !! cid = Some existing.
Proof.
  intros Hcid Hstored Hmid Hne Hclient Hfresh Hreply.
  assert (Hother : next_uuid w <> cid) by congruence.
  pose proof (cloneConversation_exact cid mid w existing Hstored) as Hclone.
  set (w1 := mkWorld _ _) in Hclone.
  assert (Hc1 : store w1 !! next_uuid w =
                Some (mkConversationState (next_uuid w) mid (messages existing)
                        (clockSource (host w) (clockCalls (host w)))
                        (clockSource (host w) (S (S (clockCalls (host w)))))))
    by apply lookup_insert_eq.
  assert (Hsrc1 : store w1 !! cid = Some existing)
    by (unfold store, w1; cbn; rewrite lookup_insert_ne by exact Hother; exact Hstored).
  unfold chat. cbv zeta. unfold try_catch. rewrite Hcid.
  unfold mbind, Prog_bind at 1. rewrite getConversation_run, Hstored.
  rewrite Hmid, bool_decide_false by exact Hne. cbn [negb andb].
  unfold mbind, Prog_bind at 1. rewrite Hclone.
  rewrite (chat_turn_run clients backend message reasoning (next_uuid w) mid client _ w1
             Hclient Hc1).
  cbv zeta. cbn [messages].
  change (truncateLimit (manager w1)) with (truncateLimit (manager w)).
  rewrite Hreply.
  destruct (after_append_found (next_uuid w) user message w1 _ Hc1) as [Hasked _].
  destruct (after_append_found (next_uuid w) assistant (replyContent response) _ _ Hasked)
    as [Hdone _].
  do 2 eexists. split; [reflexivity|]. split; [exact Hother|].
  split; [exact Hdone|]. cbn [messages modelId]. rewrite <- app_assoc.
  split; [reflexivity|]. split; [reflexivity|].
  rewrite !after_lookup_other; [exact Hsrc1 | |]; cbn [written_key]; congruence.
Qed.

Lemma X13_witness :
  let clients := <["model-b" := OpenAIClient.mk "key-b" "https://b.example/v1"]> example_clients in
  exists w' conv',
    chat clients example_config example_backend "and then?" (Some "c1") (Some "model-b") None
         (example_world 500 (example_store [m1; m2])) =
      (Ok (ChatJson "uuid-0" "fine" None "model-b"), w') /\
    "uuid-0" <> "c1" /\
    store w' !! "uuid-0" = Some conv' /\
    modelId conv' = "model-b" /\
    messages conv' = [m1; m2; m3; mkChatMessage assistant "fine"] /\
    store w' !! "c1" = Some (example_conversation [m1; m2]).
Proof.
  cbv zeta.
  apply (X13_chat_switch_model
           (<["model-b" := OpenAIClient.mk "key-b" "https://b.example/v1"]> example_clients)
           example_config example_backend "and then?" None "c1" "model-b"
           (example_conversation [m1; m2])
           (OpenAIClient.mk "key-b" "https://b.example/v1") (mkChatReply "fine" None)
           (example_world 500 (example_store [m1; m2])));
    try reflexivity.
  discriminate.
Defined.

(** X14.  The [conversation_history] tool is read-only and never throws:
    for a stored id it returns the id, the model of the conversation and
    the truncated history; for any other id, the empty string included, the
    text "Error: Conversation not found: <id>".  The world is the same
    afterwards. *)
Theorem X14_conversation_history_is_read_only cid w :
  conversation_history cid w =
    (Ok match store w !! cid with
        | Some conv =>
            HistoryJson cid (modelId conv)
              (truncateMessages (truncateLimit (manager w)) (messages conv))
        | None => HistoryPlain ("Error: Conversation not found: " +:+ cid)
        end, w).
Proof.
  unfold conversation_history, getConversationState, try_catch.
  unfold mbind, Prog_bind at 1. rewrite getConversation_run.
  destruct (store w !! cid) as [conv|] eqn:Hc; [|reflexivity].
  unfold mbind, Prog_bind at 1. rewrite (getHistory_found cid w conv Hc). reflexivity.
Qed.

(** ** The clients registered from the configuration *)

Lemma registerClients_snoc models model :
  registerClients (models ++ [model]) =
  <[ModelConfig.id model := client_of model]> (registerClients models).
Proof. unfold registerClients. rewrite foldl_app. reflexivity. Qed.

Lemma registerClients_lookup models i :
  registerClients models !! i =
  client_of <$> last (filter (fun m => ModelConfig.id m = i) models).
Proof.
  induction models as [|model models IH] using rev_ind; [reflexivity|].
  rewrite registerClients_snoc, filter_app, lookup_insert.
  rewrite filter_cons, filter_nil.
  destruct (decide (ModelConfig.id model = i)) as [Heq|Hne].
  - rewrite last_snoc. reflexivity.
  - rewrite app_nil_r. exact IH.
Qed.

(** A model id has a client exactly when the configuration lists it. *)
Lemma registered_iff_listed config i :
  is_Some (registerClients (ServerConfig.models config) !! i) <->
  i ∈ ModelInfo.id <$> list_models config.
Proof.
  rewrite registerClients_lookup. unfold list_models.
  rewrite <- list_fmap_compose. rewrite fmap_is_Some, last_is_Some.
  rewrite list_elem_of_fmap. split.
  - intros Hne. destruct (filter _ _) as [|m l] eqn:Hf; [contradiction|].
    assert (Hin : m ∈ filter (fun m => ModelConfig.id m = i) (ServerConfig.models config))
      by (rewrite Hf; left).
    apply list_elem_of_filter in Hin as [Hid Hin]. exists m. auto.
  - intros (m & Hid & Hin) Hnil.
    assert (Hin' : m ∈ filter (fun m => ModelConfig.id m = i) (ServerConfig.models config))
      by (apply list_elem_of_filter; auto).
    rewrite Hnil in Hin'. inversion Hin'.
Qed.

(** X15.  After the registration loop a model id has a client exactly
    when [list_models] lists it.  With an id that occurs more than once in
    the configuration, the client is the one built from the last entry of
    that id: later entries replace earlier ones. *)
Theorem X15_registered_clients_are_the_listed_models config i :
  (is_Some (registerClients (ServerConfig.models config) !! i) <->
   i ∈ ModelInfo.id <$> list_models config) /\
  registerClients (ServerConfig.models config) !! i =
    client_of <$> last (filter (fun m => ModelConfig.id m = i) (ServerConfig.models config)).
Proof.
  split; [apply registered_iff_listed | apply registerClients_lookup].
Qed.

(** X16.  With the clients registered from a configuration that has at
    least one model, a [chat] call without conversation id and without
    model id never answers "Model not configured": it creates a
    conversation bound to the id of the first model and asks the backend,
    with that id as the model name and the single user message as history.
    The reply, or the text of the failure, is what it returns. *)
Theorem X16_default_model_is_configured config backend message reasoning w first rest :
  ServerConfig.models config = first :: rest ->
  let clients := registerClients (ServerConfig.models config) in
  let model := ModelConfig.id first in
  let created := after (OpCreate model) w in
  let asked := after (OpAppend (next_uuid w) user message) created in
  exists client,
    clients !! model = Some client /\
    chat clients config backend message None None reasoning w =
      match backend client model
              (truncateMessages (truncateLimit (manager w)) [mkChatMessage user message])
              reasoning with
      | Ok response =>
          (Ok (ChatJson (next_uuid w) (replyContent response) (replyReasoning response)
                        model),
           after (OpAppend (next_uuid w) assistant (replyContent response)) asked)
      | Throw e => (Ok (PlainText ("Error: " +:+ e)), asked)
      end.
Proof.
  intros Hmodels clients model created asked. subst model.
  assert (Hsome : is_Some (clients !! ModelConfig.id first)).
  { apply registered_iff_listed. unfold list_models. rewrite Hmodels.
    rewrite fmap_cons. cbn. left. }
  destruct Hsome as [client Hclient]. exists client. split; [exact Hclient|].
  unfold chat. cbv zeta. unfold try_catch.
  unfold mbind, Prog_bind at 1. unfold first_model_id. rewrite Hmodels.
  cbn [mret Prog_ret]. unfold mbind, Prog_bind at 1.
  rewrite createConversation_exact.
  set (w0 := mkWorld _ _).
  assert (Hc0 : store w0 !! next_uuid w =
                Some (mkConversationState (next_uuid w) (ModelConfig.id first) []
                        (clockSource (host w) (clockCalls (host w)))
                        (clockSource (host w) (S (clockCalls (host w))))))
    by apply lookup_insert_eq.
  rewrite (chat_turn_run clients backend message reasoning (next_uuid w) _ client _ w0
             Hclient Hc0).
  cbv zeta. cbn [messages app].
  change (truncateLimit (manager w0)) with (truncateLimit (manager w)).
  subst asked created. cbn [after]. rewrite createConversation_exact. cbn [snd]. fold w0.
  destruct (backend client _ _ reasoning); reflexivity.
Qed.

Lemma X16_witness :
  fst (chat (registerClients (ServerConfig.models example_config)) example_config
         example_backend "hello" None None None (example_world 500 ∅))
  = Ok (ChatJson "uuid-0" "fine" None "model-a").
Proof.
  destruct (X16_default_model_is_configured example_config example_backend "hello" None
              (example_world 500 ∅)
              (ModelConfig.mk "model-a" "gpt-a" "https://api.example/v1" "key-a") [])
    as (client & _ & Hrun); [reflexivity|].
  rewrite Hrun. reflexivity.
Defined.

(** * Further properties of the process supervisor *)

(** Whatever the probes answer, the loop ends: after at most [n - r]
    probes, one wait per failed probe, successfully when the last probe
    succeeded and with the timeout error otherwise. *)
Lemma pollLoop_ends k :
  forall n r w,
    valid_port (port w) = true ->
    (n - r)%nat = k ->
    exists probes sleeps,
      snd (pollLoop false n r w) = after_polls probes sleeps w /\
      (probes <= k)%nat /\
      ((fst (pollLoop false n r w) = Ok tt /\ probes = S sleeps) \/
       (fst (pollLoop false n r w) = Throw "Server failed to start within timeout" /\
        probes = k /\ sleeps = k)).
Proof.
  induction k as [|k IH]; intros n r w Hvalid Hk.
  - exists 0%nat, 0%nat. rewrite pollLoop_stop by lia. cbn [fst snd].
    rewrite after_polls_none. split; [reflexivity|]. split; [lia|]. right. auto.
  - rewrite pollLoop_step by (lia || exact Hvalid).
    destruct (probe_answer w (length (requestLog w))).
    + exists 1%nat, 0%nat. cbn [fst snd]. rewrite after_polls_request.
      split; [reflexivity|]. split; [lia|]. left. auto.
    + destruct (IH n (S r) (log_sleep 1000 (log_request (healthRequest (port w)) w)))
        as (probes & sleeps & Hsnd & Hle & Hcase); [exact Hvalid | lia |].
      exists (S probes), (S sleeps). rewrite Hsnd, after_polls_step.
      split; [reflexivity|]. split; [lia|].
      destruct Hcase as [[Hok ->] | (Hfail & -> & ->)]; [left | right]; auto.
Qed.

(** The loop succeeds exactly when one of its [n - r] probes does. *)
Lemma pollLoop_ok_iff k :
  forall n r w,
    valid_port (port w) = true ->
    (n - r)%nat = k ->
    fst (pollLoop false n r w) = Ok tt <->
    exists i, (i < k)%nat /\ probe_answer w (length (requestLog w) + i) = true.
Proof.
  induction k as [|k IH]; intros n r w Hvalid Hk.
  - rewrite pollLoop_stop by lia. cbn [fst]. split; [discriminate|].
    intros (i & Hi & _). lia.
  - rewrite pollLoop_step by (lia || exact Hvalid).
    destruct (probe_answer w (length (requestLog w))) eqn:H0.
    + cbn [fst]. split; [|reflexivity]. intros _. exists 0%nat.
      rewrite Nat.add_0_r. split; [lia | exact H0].
    + rewrite (IH n (S r)) by (lia || exact Hvalid). split.
      * intros (i & Hi & Htrue). exists (S i). split; [lia|].
        rewrite probe_answer_next in Htrue. exact Htrue.
      * intros ([|i] & Hi & Htrue).
        -- rewrite Nat.add_0_r in Htrue. congruence.
        -- exists i. split; [lia|]. rewrite probe_answer_next. exact Htrue.
Qed.

(** The run of [ensureServerRunning] without debug mode, whatever the
    probes answer. *)
Lemma ensureServerRunning_ends w :
  let run := ensureServerRunning false w in
  exists probes sleeps,
    requestLog (snd run) = requestLog w ++ replicate probes (healthRequest (port w)) /\
    sleepLog (snd run) = sleepLog w ++ replicate sleeps 1000 /\
    (probes <= 31)%nat /\
    (sleeps <= 30)%nat /\
    (length (spawnLog (snd run)) <= length (spawnLog w) + 1)%nat /\
    execLog (snd run) = execLog w /\
    (if valid_port (port w)
     then (1 <= probes)%nat /\
          (fst run = Ok tt \/ fst run = Throw "Server failed to start within timeout")
     else probes = 0%nat /\ sleeps = 0%nat /\ spawnLog (snd run) = spawnLog w /\
          fst run = Throw "Invalid URL").
Proof.
  cbv zeta. rewrite ensureServerRunning_quiet_run.
  destruct (valid_port (port w)) eqn:Hvalid.
  - destruct (probe_answer w (length (requestLog w))) eqn:Hfirst.
    + exists 1%nat, 0%nat. cbn. rewrite app_nil_r. repeat split; auto; lia.
    + destruct (pollLoop_ends 30 30 0 (after_spawn (after_polls 1 0 w)) Hvalid eq_refl)
        as (probes & sleeps & Hsnd & Hle & Hcase).
      destruct (pollLoop false 30 0 (after_spawn (after_polls 1 0 w))) as [[[]|e] w'];
        cbn [fst snd] in *; subst w'.
      * exists (S probes), sleeps. cbn. rewrite <- !app_assoc, app_nil_l, length_app. cbn.
        destruct Hcase as [[_ ->] | [Hno _]]; [|discriminate Hno].
        repeat split; auto; lia.
      * exists (S probes), sleeps. cbn. rewrite <- !app_assoc, app_nil_l, length_app. cbn.
        destruct Hcase as [[Hno _] | (Hmsg & -> & ->)]; [discriminate Hno|].
        injection Hmsg as ->. repeat split; auto; lia.
  - exists 0%nat, 0%nat. cbn. rewrite !app_nil_r. repeat split; auto; lia.
Qed.

(** [ensureServerRunning] returns normally exactly when one of the first
    31 probes succeeds. *)
Lemma ensureServerRunning_ok_iff debug w :
  fst (ensureServerRunning debug w) = Ok tt <->
  exists i, (i <= 30)%nat /\ probe_answer w (length (requestLog w) + i) = true.
Proof.
  destruct (ensureServerRunning_debug debug w) as [-> _].
  rewrite ensureServerRunning_quiet_run.
  destruct (valid_port (port w)) eqn:Hvalid.
  - destruct (probe_answer w (length (requestLog w))) eqn:Hfirst.
    + cbn [fst]. split; [|reflexivity]. intros _. exists 0%nat.
      rewrite Nat.add_0_r. split; [lia | exact Hfirst].
    + pose proof (pollLoop_ok_iff 30 30 0 (after_spawn (after_polls 1 0 w)) Hvalid eq_refl)
        as Hiff.
      assert (Hlen : length (requestLog (after_spawn (after_polls 1 0 w)))
                     = S (length (requestLog w)))
        by (simpl; rewrite length_app; simpl; lia).
      rewrite Hlen in Hiff.
      destruct (pollLoop false 30 0 (after_spawn (after_polls 1 0 w))) as [[[]|e] w'];
        cbn [fst] in *.
      * split; [|reflexivity]. intros _.
        destruct (proj1 Hiff eq_refl) as (i & Hi & Htrue).
        exists (S i). split; [lia|].
        replace (length (requestLog w) + S i)%nat with (S (length (requestLog w)) + i)%nat
          by lia. exact Htrue.
      * split; [discriminate|]. intros ([|i] & Hi & Htrue).
        -- rewrite Nat.add_0_r in Htrue. congruence.
        -- assert (Hok : @Throw unit e = Ok tt); [|discriminate Hok].
           apply Hiff. exists i. split; [lia|].
           replace (S (length (requestLog w)) + i)%nat
             with (length (requestLog w) + S i)%nat by lia.
           exact Htrue.
  - cbn [fst]. split; [discriminate|]. intros (i & _ & Htrue).
    unfold probe_answer in Htrue. rewrite Hvalid in Htrue. discriminate Htrue.
Qed.

(** X17.  [ensureServerRunning] always comes to an end, in debug mode or
    not and whatever the probes answer.  It issues at most 31 health
    requests, waits at most 30 times 1000 ms, spawns at most one process,
    and runs no shell command.  With a port from 0 to 65535 it issues at
    least one request and returns or fails with the startup timeout; with
    any other port it issues no request, spawns nothing and fails with
    "Invalid URL". *)
Theorem X17_ensureServerRunning_is_bounded debug w :
  let run := ensureServerRunning debug w in
  exists probes sleeps,
    requestLog (snd run) = requestLog w ++ replicate probes (healthRequest (port w)) /\
    sleepLog (snd run) = sleepLog w ++ replicate sleeps 1000 /\
    (probes <= 31)%nat /\
    (sleeps <= 30)%nat /\
    (length (spawnLog (snd run)) <= length (spawnLog w) + 1)%nat /\
    execLog (snd run) = execLog w /\
    (if valid_port (port w)
     then (1 <= probes)%nat /\
          (fst run = Ok tt \/ fst run = Throw "Server failed to start within timeout")
     else probes = 0%nat /\ sleeps = 0%nat /\ spawnLog (snd run) = spawnLog w /\
          fst run = Throw "Invalid URL").
Proof.
  cbv zeta. destruct (ensureServerRunning_debug debug w) as [Hfst Hmute].
  rewrite Hfst.
  rewrite (f_equal requestLog Hmute : requestLog (snd (ensureServerRunning debug w)) = _).
  rewrite (f_equal spawnLog Hmute : spawnLog (snd (ensureServerRunning debug w)) = _).
  rewrite (f_equal sleepLog Hmute : sleepLog (snd (ensureServerRunning debug w)) = _).
  rewrite (f_equal execLog Hmute : execLog (snd (ensureServerRunning debug w)) = _).
  cbn [mute requestLog spawnLog sleepLog execLog].
  apply ensureServerRunning_ends.
Qed.

(** X18.  [ensureServerRunning] returns normally exactly when one of the
    first 31 probes of the run succeeds (the first one, or one of the 30
    polls after the spawn). *)
Theorem X18_ensureServerRunning_succeeds_iff debug w :
  fst (ensureServerRunning debug w) = Ok tt <->
  exists i, (i <= 30)%nat /\ probe_answer w (length (requestLog w) + i) = true.
Proof. apply ensureServerRunning_ok_iff. Qed.

(** No piece of [s.split(sep)] contains the separator. *)
Lemma split_pieces_without_separator sep s :
  Forall (fun piece => ~ occurs sep piece) (split sep s).
Proof.
  induction s as [|a rest IH]; cbn [split].
  - constructor; [intros [] | constructor].
  - destruct (decide (a = sep)) as [->|Hne].
    + constructor; [intros [] | exact IH].
    + destruct (split sep rest) as [|piece pieces].
      * constructor; [|constructor]. intros [Heq|[]]. congruence.
      * inversion IH as [|? ? Hpiece Hpieces]; subst.
        constructor; [|exact Hpieces]. intros [Heq|Hin]; [congruence | contradiction].
Qed.

Lemma listed_pids_ok out :
  Forall (fun pid => pid <> EmptyString /\ ~ occurs LF pid) (listed_pids out).
Proof.
  unfold listed_pids. apply Forall_forall. intros pid Hin.
  apply list_elem_of_filter in Hin as [Hlen Hin]. split.
  - intros ->. cbn in Hlen. lia.
  - pose proof (split_pieces_without_separator LF (trim out)) as Hall.
    rewrite Forall_forall in Hall. apply Hall. exact Hin.
Qed.

(** X19.  [killServerByPort] never throws, in debug mode or not.  It runs
    [lsof] once, for the port of the launcher, and then only [kill -9]
    commands, each for a pid that is not empty and is a single line of the
    output of [lsof]; when [lsof] fails it runs no [kill] at all.  Besides
    the list of commands run it changes the two streams only: standard
    error holds what [lsof] and the kills wrote to it, and standard output
    holds the debug lines, of which there are none without debug mode. *)
Theorem X19_killServerByPort_commands debug w :
  let run := killServerByPort debug w in
  fst run = Ok tt /\
  execLog (snd run) = execLog w ++ reclaim_commands w /\
  stderr (snd run) = stderr w ++ reclaim_stderr w /\
  hush (snd run) = hush (reclaimed w) /\
  killServerByPort false w = (Ok tt, reclaimed w) /\
  head (reclaim_commands w) = Some (Lsof (port w)) /\
  Forall (reclaim_command_ok (port w)) (reclaim_commands w) /\
  match lsofSource w with
  | Throw _ => reclaim_commands w = [Lsof (port w)]
  | Ok out => length (reclaim_commands w) = S (length (listed_pids out))
  end.
Proof.
  cbv zeta. destruct (killServerByPort_debug debug w) as [Hfst Hhush].
  split; [exact Hfst|].
  split; [exact (f_equal execLog Hhush)|].
  split; [exact (f_equal stderr Hhush)|].
  split; [exact Hhush|].
  split; [apply killServerByPort_run|]. split; [reflexivity|]. split.
  - unfold reclaim_commands. constructor; [reflexivity|].
    destruct (lsofSource w) as [out|e]; [|constructor].
    apply Forall_fmap. eapply Forall_impl; [apply listed_pids_ok|].
    intros pid H. exact H.
  - unfold reclaim_commands. destruct (lsofSource w); [|reflexivity].
    cbn. rewrite length_map. reflexivity.
Qed.

(** X29.  Debug mode changes what the supervisor writes and nothing
    else.  [ensureServerRunning] returns or fails alike with and without
    it and ends in the same state up to the two streams; without debug
    mode it leaves both streams as they were.  [killServerByPort] ends in
    the same state up to standard output, which it leaves as it was
    without debug mode. *)
Theorem X29_debug_mode_only_writes debug w :
  fst (ensureServerRunning debug w) = fst (ensureServerRunning false w) /\
  mute (snd (ensureServerRunning debug w)) = mute (snd (ensureServerRunning false w)) /\
  stdout (snd (ensureServerRunning false w)) = stdout w /\
  stderr (snd (ensureServerRunning false w)) = stderr w /\
  fst (killServerByPort debug w) = fst (killServerByPort false w) /\
  hush (snd (killServerByPort debug w)) = hush (snd (killServerByPort false w)) /\
  stdout (snd (killServerByPort false w)) = stdout w.
Proof.
  destruct (ensureServerRunning_debug debug w) as [Hfst Hmute].
  destruct (killServerByPort_debug debug w) as [Hok Hhush].
  split; [exact Hfst|]. split; [exact Hmute|].
  rewrite ensureServerRunning_quiet_run, killServerByPort_run. cbn [fst snd].
  split; [|split; [|split; [exact Hok|split; [exact Hhush | reflexivity]]]].
  - destruct (valid_port (port w)) eqn:Hvalid; [|reflexivity].
    destruct (probe_answer w (length (requestLog w))); [reflexivity|].
    destruct (pollLoop_ends 30 30 0 (after_spawn (after_polls 1 0 w)) Hvalid eq_refl)
      as (probes & sleeps & -> & _).
    reflexivity.
  - destruct (valid_port (port w)) eqn:Hvalid; [|reflexivity].
    destruct (probe_answer w (length (requestLog w))); [reflexivity|].
    destruct (pollLoop_ends 30 30 0 (after_spawn (after_polls 1 0 w)) Hvalid eq_refl)
      as (probes & sleeps & -> & _).
    reflexivity.
Qed.

(** * Properties of the backend client *)

(** X20.  Every error [chat] of the backend client throws carries the
    prefix "Failed to get response from OpenAI: ": in front of the message
    of the failed request, or in front of "No content in response from
    OpenAI" when the answer has no first choice, no message, no content or
    an empty content.  A reply it returns has the content of the first
    choice, which is not empty, and has no reasoning unless reasoning was
    requested. *)
Theorem X20_client_chat_outcomes sdk this modelId messages options :
  (forall failure,
     OpenAIClient_chat sdk this modelId messages options = Throw failure ->
     exists cause,
       failure = "Failed to get response from OpenAI: " +:+ cause /\
       (sdk this (chat_request modelId messages options) = Throw cause \/
        (cause = "No content in response from OpenAI" /\
         exists response,
           sdk this (chat_request modelId messages options) = Ok response /\
           truthy_opt (first_content response) = false))) /\
  (forall reply,
     OpenAIClient_chat sdk this modelId messages options = Ok reply ->
     exists response,
       sdk this (chat_request modelId messages options) = Ok response /\
       first_content response = Some (replyContent reply) /\
       replyContent reply <> EmptyString /\
       (reasoning_of options = false -> replyReasoning reply = None)).
Proof.
  unfold OpenAIClient_chat, first_content.
  destruct (sdk this (chat_request modelId messages options)) as [response|e].
  - destruct (first_message response) as [message|] eqn:Hmessage;
      [destruct (Sdk.content message) as [textContent|] eqn:Hcontent;
       [destruct (truthy textContent) eqn:Htext|]|].
    + split; [discriminate|]. intros reply [= <-]. exists response.
      split; [reflexivity|]. rewrite Hmessage, Hcontent.
      split; [reflexivity|]. cbn. split.
      * intros ->. discriminate Htext.
      * intros ->. reflexivity.
    + split; [|discriminate]. intros failure [= <-]. eexists. split; [reflexivity|].
      right. split; [reflexivity|]. exists response.
      rewrite Hmessage, Hcontent. auto.
    + split; [|discriminate]. intros failure [= <-]. eexists. split; [reflexivity|].
      right. split; [reflexivity|]. exists response.
      rewrite Hmessage, Hcontent. auto.
    + split; [|discriminate]. intros failure [= <-]. eexists. split; [reflexivity|].
      right. split; [reflexivity|]. exists response.
      rewrite Hmessage. auto.
  - split; [|discriminate]. intros failure [= <-]. exists e. auto.
Qed.

Lemma X20_witness :
  (exists cause,
     "Failed to get response from OpenAI: No content in response from OpenAI" =
       "Failed to get response from OpenAI: " +:+ cause) /\
  (exists response,
     example_sdk (Sdk.mkMessage (Some "hello") (Some "because") None None None)
       (OpenAIClient.mk "key" "url") (chat_request "gpt-a" [m1] None) = Ok response /\
     first_content response = Some "hello").
Proof.
  split.
  - destruct (X20_client_chat_outcomes
                (example_sdk (Sdk.mkMessage (Some EmptyString) None None None None))
                (OpenAIClient.mk "key" "url") "gpt-a" [m1] None) as [Hfail _].
    destruct (Hfail "Failed to get response from OpenAI: No content in response from OpenAI")
      as (cause & Hcause & _); [reflexivity|].
    exists cause. exact Hcause.
  - destruct (X20_client_chat_outcomes
                (example_sdk (Sdk.mkMessage (Some "hello") (Some "because") None None None))
                (OpenAIClient.mk "key" "url") "gpt-a" [m1] None) as [_ Hok].
    destruct (Hok (mkChatReply "hello" None)) as (response & Hsdk & Hcontent & _);
      [reflexivity|].
    exists response. split; [exact Hsdk | exact Hcontent].
Defined.

(** X21.  The request [chat] sends carries the model name and the
    messages with their roles and contents in order; it carries the
    reasoning parameter exactly when reasoning is requested and the
    provider is "openai".  For "openrouter", for any other provider and
    without a provider, the parameter is never sent. *)
Theorem X21_reasoning_parameter modelId messages options :
  Sdk.model (chat_request modelId messages options) = modelId /\
  Sdk.messages (chat_request modelId messages options) =
    map (fun msg => (role msg, content msg)) messages /\
  (Sdk.params (chat_request modelId messages options) = Sdk.ReasoningEnabled <->
   reasoning_of options = true /\ provider_of options = Some "openai").
Proof.
  split; [reflexivity|]. split; [reflexivity|].
  cbn [chat_request Sdk.params]. unfold buildReasoningParams.
  destruct (reasoning_of options); cbn [negb orb].
  - destruct (provider_of options) as [p|]; cbn [truthy_opt].
    + destruct (truthy p) eqn:Hp; cbn [negb].
      * destruct (decide (p = "openai")) as [->|Hne].
        -- split; auto.
        -- split.
           ++ destruct (decide (p = "openrouter")); discriminate.
           ++ intros [_ [= ->]]. contradiction.
      * split; [discriminate|]. intros [_ [= ->]]. discriminate Hp.
    + split; [discriminate|]. intros [_ H]. discriminate H.
  - split; [discriminate|]. intros [H _]. discriminate H.
Qed.

(** X22.  [extractReasoning] returns the first of the fields
    [reasoning], [thinking] and [reasoning_content] that is present and not
    empty.  When there is none it returns the texts of [reasoning_details]
    joined by line feeds, and nothing when that list is absent or empty. *)
Theorem X22_extractReasoning_precedence message :
  extractReasoning message =
    match truthy_candidates [Sdk.reasoning message; Sdk.thinking message;
                             Sdk.reasoning_content message] with
    | found :: _ => Some found
    | [] =>
        match Sdk.reasoning_details message with
        | Some (block :: blocks) => Some (join line_feed (block :: blocks))
        | _ => None
        end
    end.
Proof.
  unfold extractReasoning, truthy_candidates, or_else.
  destruct message as [c r t rc details]. cbn [Sdk.reasoning Sdk.thinking
    Sdk.reasoning_content Sdk.reasoning_details].
  destruct r as [r|]; [destruct (truthy r) eqn:Hr|];
    (destruct t as [t|]; [destruct (truthy t) eqn:Ht|]);
    (destruct rc as [rc|]; [destruct (truthy rc) eqn:Hrc|]);
    unfold truthy_opt; cbn; rewrite ?Hr, ?Ht, ?Hrc;
    unfold truthy_opt; cbn; rewrite ?Hr, ?Ht, ?Hrc;
    repeat case_decide; try congruence; reflexivity.
Qed.

(** * Properties of the logger *)

Lemma log_all_snoc calls c st :
  Logger.log_all (calls ++ [c]) st = Logger.log c (Logger.log_all calls st).
Proof. unfold Logger.log_all. rewrite foldl_app. reflexivity. Qed.

(** What a sequence of logger calls leaves on the two streams. *)
Lemma log_all_streams calls st :
  Logger.currentLogLevel (Logger.log_all calls st) = Logger.currentLogLevel st /\
  Logger.out (Logger.log_all calls st) =
    Logger.out st ++
    map Logger.formatMessage (List.filter (Logger.to_out (Logger.currentLogLevel st)) calls) /\
  Logger.err (Logger.log_all calls st) =
    Logger.err st ++
    map Logger.formatMessage (List.filter (Logger.to_err (Logger.currentLogLevel st)) calls).
Proof.
  induction calls as [|c calls IH] using rev_ind.
  - cbn. rewrite !app_nil_r. auto.
  - destruct IH as (Hlevel & Hout & Herr).
    rewrite log_all_snoc, !List.filter_app, !map_app.
    unfold Logger.log, Logger.shouldLog, Logger.to_out, Logger.to_err.
    rewrite Hlevel. cbn [List.filter].
    destruct (Logger.LOG_LEVELS (Logger.currentLogLevel st) <=?
              Logger.LOG_LEVELS (Logger.level c)) eqn:Hshould; cbn [andb].
    + destruct (Logger.level c); cbn; rewrite ?app_nil_r, ?app_assoc, Hout, Herr; auto.
    + cbn. rewrite !app_nil_r. auto.
Qed.

(** Under the level warn or error no call is written to [console.log]. *)
Lemma to_out_quiet l calls :
  2 <= Logger.LOG_LEVELS l -> List.filter (Logger.to_out l) calls = [].
Proof.
  intros Hquiet. induction calls as [|c calls IH]; [reflexivity|].
  cbn [List.filter]. unfold Logger.to_out at 1.
  destruct (Z.leb_spec (Logger.LOG_LEVELS l) (Logger.LOG_LEVELS (Logger.level c)));
    destruct (Z.leb_spec (Logger.LOG_LEVELS (Logger.level c)) 1);
    cbn [andb]; try lia; exact IH.
Qed.

(** X23.  Logging never changes the level.  Of a sequence of logger calls
    exactly those at or above the current level are written, in call
    order and each as one formatted line: debug and info calls to
    [console.log], warn and error calls to [console.warn] and
    [console.error].  Hence under the level warn or error nothing is
    written to standard output, and an error call is written under every
    level. *)
Theorem X23_logger_streams calls st :
  Logger.currentLogLevel (Logger.log_all calls st) = Logger.currentLogLevel st /\
  Logger.out (Logger.log_all calls st) =
    Logger.out st ++
    map Logger.formatMessage (List.filter (Logger.to_out (Logger.currentLogLevel st)) calls) /\
  Logger.err (Logger.log_all calls st) =
    Logger.err st ++
    map Logger.formatMessage (List.filter (Logger.to_err (Logger.currentLogLevel st)) calls) /\
  (2 <= Logger.LOG_LEVELS (Logger.currentLogLevel st) ->
   Logger.out (Logger.log_all calls st) = Logger.out st) /\
  (forall c, Logger.level c = Logger.Error ->
             Logger.to_err (Logger.currentLogLevel st) c = true).
Proof.
  destruct (log_all_streams calls st) as (Hlevel & Hout & Herr).
  split; [exact Hlevel|]. split; [exact Hout|]. split; [exact Herr|]. split.
  - intros Hquiet. rewrite Hout, to_out_quiet by exact Hquiet. apply app_nil_r.
  - intros c Hc. unfold Logger.to_err. rewrite Hc.
    destruct (Logger.currentLogLevel st); reflexivity.
Qed.

Lemma X23_witness :
  Logger.out
    (Logger.log_all
       [Logger.mkCall Logger.Info "2026-01-01T00:00:00.000Z" "Using YAML configuration file" None;
        Logger.mkCall Logger.Error "2026-01-01T00:00:00.001Z" "Failed to load config file"
                      (Some "{}")]
       (Logger.setLogLevel Logger.Error Logger.initial))
  = [].
Proof.
  destruct (X23_logger_streams
              [Logger.mkCall Logger.Info "2026-01-01T00:00:00.000Z"
                             "Using YAML configuration file" None;
               Logger.mkCall Logger.Error "2026-01-01T00:00:00.001Z"
                             "Failed to load config file" (Some "{}")]
              (Logger.setLogLevel Logger.Error Logger.initial))
    as (_ & _ & _ & Hquiet & _).
  rewrite Hquiet; [reflexivity | simpl; lia].
Defined.

(** * Properties of the start of the launcher *)

Lemma starts_with_app p s : starts_with p (p +:+ s) = true.
Proof.
  induction p as [|a p IH]; [reflexivity|].
  change (String a p +:+ s) with (String a (p +:+ s)). cbn [starts_with].
  destruct (decide (a = a)); [exact IH | contradiction].
Qed.

Lemma includes_prefix sub s : includes (sub +:+ s) sub = true.
Proof.
  pose proof (starts_with_app sub s) as H.
  destruct (sub +:+ s); cbn [includes]; rewrite H; reflexivity.
Qed.

(** Without debug mode [ensureServerRunning] writes nothing. *)
Lemma ensureServerRunning_quiet w :
  stdout (snd (ensureServerRunning false w)) = stdout w /\
  stderr (snd (ensureServerRunning false w)) = stderr w.
Proof.
  rewrite ensureServerRunning_quiet_run.
  destruct (valid_port (port w)) eqn:Hvalid; [|split; reflexivity].
  destruct (probe_answer w (length (requestLog w))); [split; reflexivity|].
  destruct (pollLoop_ends 30 30 0 (after_spawn (after_polls 1 0 w)) Hvalid eq_refl)
    as (probes & sleeps & Hsnd & _).
  rewrite Hsnd. split; reflexivity.
Qed.

(** No error of [ensureServerRunning] counts as a configuration error. *)
Lemma ensureServerRunning_error w e :
  fst (ensureServerRunning false w) = Throw e ->
  isConfigError e = false.
Proof.
  intros He. pose proof (ensureServerRunning_ends w) as Hends. cbv zeta in Hends.
  destruct Hends as (probes & sleeps & _ & _ & _ & _ & _ & _ & Hcase).
  destruct (valid_port (port w)).
  - destruct Hcase as [_ [Hok|Hfail]].
    + rewrite Hok in He. discriminate He.
    + rewrite Hfail in He. injection He as <-. reflexivity.
  - destruct Hcase as (_ & _ & _ & Hfail).
    rewrite Hfail in He. injection He as <-. reflexivity.
Qed.

(** Whether [ensureServerRunning] returns does not depend on the level of
    the logger. *)
Lemma ensureServerRunning_any_level level p w :
  fst (ensureServerRunning false (new_ServerLauncher p (set_logLevel level w))) = Ok tt <->
  fst (ensureServerRunning false (new_ServerLauncher p w)) = Ok tt.
Proof. rewrite !ensureServerRunning_ok_iff. reflexivity. Qed.

(** The run of the quiet launch, step by step. *)
Lemma launch_quiet_run loadConfig connect w :
  launch_quiet loadConfig connect w =
    match loadConfig with
    | Throw e => reported e (set_logLevel Logger.Error w)
    | Ok config =>
        match ensureServerRunning false
                (new_ServerLauncher (ServerConfig.httpPort config)
                   (set_logLevel Logger.Error w)) with
        | (Throw m, w1) => reported m w1
        | (Ok _, w1) =>
            match connect with
            | Ok _ => (Ok KeepsRunning, w1)
            | Throw e => reported e w1
            end
        end
    end.
Proof.
  unfold launch_quiet, reported, try_catch, await, mbind, Prog_bind, mret, Prog_ret,
    console_error, setLogLevel.
  destruct loadConfig as [config|e]; cbn [fst snd].
  - destruct (ensureServerRunning false _) as [[[]|m] w1].
    + destruct connect as [[]|e]; [reflexivity|]. destruct (isConfigError e); reflexivity.
    + destruct (isConfigError m); reflexivity.
  - destruct (isConfigError e); reflexivity.
Qed.

(** X24.  The start of the launcher without [--restart] and without debug
    mode never writes to standard output.  It keeps running exactly when
    the configuration loads, the server is or comes up, and the protocol
    server connects; in every other case it exits with code 1.  When the
    configuration does not load it probes, spawns and runs nothing, and if
    the message counts as a configuration error its last line on standard
    error is "Error: <message>".  When the server does not come up within
    the polls it exits with code 1 without printing anything: the startup
    timeout is not reported. *)
Theorem X24_launch_failures argv2 loadConfig connect w :
  argv2 <> Some "--restart" ->
  let run := main false argv2 loadConfig (launch_quiet loadConfig connect) w in
  stdout (snd run) = stdout w /\
  (fst run = Ok KeepsRunning \/ fst run = Ok (Exited 1)) /\
  (fst run = Ok KeepsRunning <->
   exists config,
     loadConfig = Ok config /\
     fst (ensureServerRunning false
            (new_ServerLauncher (ServerConfig.httpPort config) w)) = Ok tt /\
     connect = Ok tt) /\
  (forall e, loadConfig = Throw e ->
     requestLog (snd run) = requestLog w /\
     spawnLog (snd run) = spawnLog w /\
     execLog (snd run) = execLog w /\
     (isConfigError e = true -> last (stderr (snd run)) = Some ("Error: " +:+ e))) /\
  (forall config,
     loadConfig = Ok config ->
     fst (ensureServerRunning false
            (new_ServerLauncher (ServerConfig.httpPort config) w)) <> Ok tt ->
     fst run = Ok (Exited 1) /\ stderr (snd run) = stderr w).
Proof.
  intros Hargv run. subst run. unfold main. rewrite decide_False by exact Hargv.
  rewrite launch_quiet_run.
  destruct loadConfig as [config|e].
  - pose proof (ensureServerRunning_any_level Logger.Error (ServerConfig.httpPort config) w)
      as Hlevel.
    set (w0 := new_ServerLauncher (ServerConfig.httpPort config)
                 (set_logLevel Logger.Error w)) in *.
    destruct (ensureServerRunning_quiet w0) as [Hout Herr].
    pose proof (ensureServerRunning_error w0) as Herror.
    change (stdout w0) with (stdout w) in Hout.
    change (stderr w0) with (stderr w) in Herr.
    clearbody w0.
    destruct (ensureServerRunning false w0) as [[[]|m] w1] eqn:Hrun; cbn [fst snd] in *.
    + destruct connect as [[]|e]; unfold reported; cbn [fst snd].
      * split; [exact Hout|]. split; [left; reflexivity|]. split.
        -- split; [|reflexivity]. intros _. exists config.
           split; [reflexivity|]. split; [apply Hlevel; reflexivity | reflexivity].
        -- split; [intros e He; discriminate He|].
           intros config' [= <-] Hno. exfalso. apply Hno, Hlevel. reflexivity.
      * split; [destruct (isConfigError e); exact Hout|].
        split; [right; reflexivity|]. split.
        -- split; [discriminate|].
           intros (config' & _ & _ & Hc). discriminate Hc.
        -- split; [intros e' He; discriminate He|].
           intros config' [= <-] Hno. exfalso. apply Hno, Hlevel. reflexivity.
    + unfold reported. rewrite (Herror m eq_refl). cbn [fst snd].
      split; [exact Hout|]. split; [right; reflexivity|]. split.
      * split; [discriminate|]. intros (config' & [= <-] & Hc & _).
        apply Hlevel in Hc. discriminate Hc.
      * split; [intros e' He; discriminate He|].
        intros config' _ _. split; [reflexivity | exact Herr].
  - unfold reported. cbn [fst snd].
    split; [destruct (isConfigError e); reflexivity|].
    split; [right; reflexivity|]. split.
    + split; [discriminate|].
      intros (config & Hc & _). discriminate Hc.
    + split.
      * intros e' [= <-]. destruct (isConfigError e).
        -- repeat split. intros _. cbn. apply last_snoc.
        -- repeat split. discriminate.
      * intros config Hc. discriminate Hc.
Qed.

Lemma X24_witness :
  let w := example_sys (fun _ => mkHttpTrace EvError []) (Throw "lsof") (fun _ => Ok tt) in
  let run := main false None (Ok example_config) (launch_quiet (Ok example_config) (Ok tt)) w in
  fst run = Ok (Exited 1) /\ stderr (snd run) = [] /\ stdout (snd run) = [].
Proof.
  cbv zeta.
  destruct (X24_launch_failures None (Ok example_config) (Ok tt)
              (example_sys (fun _ => mkHttpTrace EvError []) (Throw "lsof") (fun _ => Ok tt)))
    as (Hout & _ & _ & _ & Hdown); [discriminate|].
  destruct (Hdown example_config eq_refl) as [Hexit Herr]; [vm_compute; discriminate|].
  split; [exact Hexit|]. split; [exact Herr | exact Hout].
Defined.

(** X25.  Which errors of the configuration loader the launcher prints:
    the messages "No configuration found ...", "Environment variable not
    found: <name>" and "Model must have ..." count as configuration errors
    for every continuation of the text; the loader's messages for an empty
    or missing [models] array and for a model that is not an object do
    not, and neither does the startup timeout. *)
Theorem X25_reported_configuration_errors :
  (forall rest, isConfigError ("No configuration found" +:+ rest) = true) /\
  (forall varName, isConfigError ("Environment variable not found: " +:+ varName) = true) /\
  (forall rest, isConfigError ("Model must have" +:+ rest) = true) /\
  isConfigError "Config must have at least one model in the 'models' array" = false /\
  isConfigError "Each model must be an object" = false /\
  isConfigError "Server failed to start within timeout" = false.
Proof.
  split; [|split; [|split]].
  - intros rest. unfold isConfigError. rewrite includes_prefix. reflexivity.
  - intros varName. unfold isConfigError.
    change ("Environment variable not found: " +:+ varName)
      with ("Environment variable not found" +:+ (": " +:+ varName)).
    rewrite includes_prefix. rewrite !orb_true_r. reflexivity.
  - intros rest. unfold isConfigError. rewrite includes_prefix.
    rewrite !orb_true_r. reflexivity.
  - repeat split; vm_compute; reflexivity.
Qed.

(** * Properties of the environment references *)

Lemma Value_induction (P : Value -> Prop) :
  P VNull ->
  (forall b, P (VBool b)) ->
  (forall n, P (VNum n)) ->
  (forall s, P (VStr s)) ->
  (forall items, Forall P items -> P (VArr items)) ->
  (forall entries, Forall (fun entry => P (snd entry)) entries -> P (VObj entries)) ->
  forall value, P value.
Proof.
  intros Hnull Hbool Hnum Hstr Harr Hobj.
  fix IH 1. intros [ | b | n | s | items | entries].
  - exact Hnull.
  - apply Hbool.
  - apply Hnum.
  - apply Hstr.
  - apply Harr. revert items. fix IHl 1. intros [|x rest].
    + constructor.
    + constructor; [apply IH | apply IHl].
  - apply Hobj. revert entries. fix IHl 1. intros [|[k x] rest].
    + constructor.
    + constructor; [apply IH | apply IHl].
Qed.

Lemma dollar_free_VArr items :
  dollar_free (VArr items) <-> Forall dollar_free items.
Proof.
  induction items as [|x rest IH]; [split; [constructor | exact (fun _ => I)]|].
  change (dollar_free (VArr (x :: rest))) with (dollar_free x /\ dollar_free (VArr rest)).
  rewrite Forall_cons, IH. reflexivity.
Qed.

Lemma dollar_free_VObj entries :
  dollar_free (VObj entries) <-> Forall (fun entry => dollar_free (snd entry)) entries.
Proof.
  induction entries as [|[k x] rest IH]; [split; [constructor | exact (fun _ => I)]|].
  change (dollar_free (VObj ((k, x) :: rest))) with (dollar_free x /\ dollar_free (VObj rest)).
  rewrite Forall_cons, IH. reflexivity.
Qed.

Lemma prepend_empty r : prepend EmptyString r = r.
Proof. destruct r; reflexivity. Qed.

Lemma append_assoc' (a b c : string) : (a +:+ b) +:+ c = a +:+ (b +:+ c).
Proof.
  induction a as [|x a IH]; [reflexivity|].
  change (String x ((a +:+ b) +:+ c) = String x (a +:+ (b +:+ c))).
  rewrite IH. reflexivity.
Qed.

Lemma append_empty_r (a : string) : a +:+ EmptyString = a.
Proof.
  induction a as [|x a IH]; [reflexivity|].
  change (String x (a +:+ EmptyString) = String x a).
  rewrite IH. reflexivity.
Qed.

Lemma prepend_prepend p q r : prepend p (prepend q r) = prepend (p +:+ q) r.
Proof. destruct r; cbn [prepend]; [rewrite append_assoc'|]; reflexivity. Qed.

Lemma scan_text env t s :
  ~ occurs "$"%char t ->
  scan env Outside (t +:+ s) = prepend t (scan env Outside s).
Proof.
  induction t as [|c t IH]; intros Hfree.
  - cbn. rewrite prepend_empty. reflexivity.
  - change (String c t +:+ s) with (String c (t +:+ s)). cbn [scan].
    destruct (decide (c = "$"%char)) as [->|_].
    + exfalso. apply Hfree. left. reflexivity.
    + rewrite IH by (intros H; apply Hfree; right; exact H).
      rewrite prepend_prepend. reflexivity.
Qed.

Lemma scan_name env acc name s :
  ~ occurs "}"%char name ->
  scan env (InName acc) (name +:+ String "}" s)
  = scan env (InName (acc +:+ name)) (String "}" s).
Proof.
  revert acc. induction name as [|c name IH]; intros acc Hfree.
  - rewrite append_empty_r. reflexivity.
  - change (String c name +:+ String "}" s) with (String c (name +:+ String "}" s)).
    cbn [scan]. destruct (decide (c = "}"%char)) as [->|_].
    + exfalso. apply Hfree. left. reflexivity.
    + rewrite IH by (intros H; apply Hfree; right; exact H).
      rewrite append_assoc'. reflexivity.
Qed.

Lemma scan_ref env name s :
  name <> EmptyString -> ~ occurs "}"%char name ->
  scan env Outside ("${" +:+ name +:+ "}" +:+ s)
  = match env_value env name with
    | Ok envValue => prepend envValue (scan env Outside s)
    | Throw e => Throw e
    end.
Proof.
  intros Hname Hfree.
  change ("${" +:+ name +:+ "}" +:+ s)
    with (String "$" (String "{" (name +:+ String "}" s))).
  cbn [scan]. destruct (decide ("$"%char = "$"%char)); [|contradiction].
  destruct (decide ("{"%char = "{"%char)); [|contradiction].
  rewrite scan_name by exact Hfree.
  change (EmptyString +:+ name) with name. cbn [scan].
  destruct (decide ("}"%char = "}"%char)); [|contradiction].
  destruct name; [contradiction | reflexivity].
Qed.

Lemma env_value_error env name e :
  env_value env name = Throw e ->
  e = "Environment variable not found: " +:+ name /\ unresolved env name.
Proof.
  unfold env_value, unresolved. destruct (variables env !! name) as [v|].
  - destruct v as [|c v]; cbn; [intros [= <-]; auto | discriminate].
  - destruct (inherited env !! name); [discriminate|]. intros [= <-]. auto.
Qed.

Lemma env_value_unresolved env name :
  unresolved env name ->
  env_value env name = Throw ("Environment variable not found: " +:+ name).
Proof.
  unfold env_value. intros [-> | [-> ->]]; reflexivity.
Qed.

Lemma env_value_stands_for env name text :
  stands_for env (Ref name) text ->
  env_value env name = Ok text.
Proof.
  unfold env_value. cbn. intros [[-> Hne] | [-> ->]]; [|reflexivity].
  destruct text; [contradiction | reflexivity].
Qed.

Lemma prepend_error p r e : prepend p r = Throw e -> r = Throw e.
Proof. destruct r; cbn; [discriminate | congruence]. Qed.

(** Every error of a scan is the error of one variable. *)
Lemma scan_error env s : forall st e,
  scan env st s = Throw e ->
  exists name, env_value env name = Throw e.
Proof.
  induction s as [|c s IH]; intros st e; [discriminate|].
  cbn [scan]. destruct st as [ | | name].
  - destruct (decide _); [apply IH|]. intros H%prepend_error. eapply IH, H.
  - destruct (decide _); [apply IH|].
    destruct (decide _); intros H%prepend_error; eapply IH, H.
  - destruct (decide _); [|apply IH].
    destruct name as [|a name]; [intros H%prepend_error; eapply IH, H|].
    destruct (env_value env (String a name)) as [v|e'] eqn:Hv.
    + intros H%prepend_error. eapply IH, H.
    + intros [= <-]. exists (String a name). exact Hv.
Qed.

Lemma map_throwing_error {A B : Type} (f : A -> result B) (P : string -> Prop) l e :
  Forall (fun x => forall e, f x = Throw e -> P e) l ->
  map_throwing f l = Throw e -> P e.
Proof.
  induction 1 as [|x rest Hx _ IH]; [discriminate|].
  cbn. destruct (f x) as [y|e'] eqn:Hfx.
  - destruct (map_throwing f rest); [discriminate|]. intros [= <-]. apply IH. reflexivity.
  - intros [= <-]. apply Hx. reflexivity.
Qed.

Lemma map_throwing_fixed {A : Type} (f : A -> result A) (Q : A -> Prop) l :
  Forall (fun x => Q x -> f x = Ok x) l ->
  Forall Q l ->
  map_throwing f l = Ok l.
Proof.
  induction 1 as [|x rest Hx _ IH]; [reflexivity|].
  intros [Hq Hrest]%Forall_cons. cbn. rewrite (Hx Hq), (IH Hrest). reflexivity.
Qed.

Lemma resolveEnvVars_VArr env items :
  resolveEnvVars env (VArr items)
  = match map_throwing (resolveEnvVars env) items with
    | Ok items' => Ok (VArr items')
    | Throw e => Throw e
    end.
Proof. reflexivity. Qed.

Lemma resolveEnvVars_VObj env entries :
  resolveEnvVars env (VObj entries)
  = match map_throwing (resolve_entry env) entries with
    | Ok entries' => Ok (VObj entries')
    | Throw e => Throw e
    end.
Proof. reflexivity. Qed.

(** A string whose references all stand for something. *)
Lemma scan_resolved env segments texts :
  Forall segment_ok segments ->
  Forall2 (stands_for env) segments texts ->
  scan env Outside (render segments) = Ok (render (Text <$> texts)).
Proof.
  intros Hok Hall. revert Hok.
  induction Hall as [|[t|name] text rest texts Hfor _ IH]; intros Hok;
    [reflexivity | |]; apply Forall_cons in Hok as [Hseg Hrest].
  - cbn in Hfor. subst text. cbn [render fmap list_fmap].
    rewrite scan_text by exact Hseg. rewrite (IH Hrest). reflexivity.
  - destruct Hseg as [Hname Hfree]. cbn [render fmap list_fmap].
    rewrite scan_ref by assumption.
    rewrite (env_value_stands_for _ _ _ Hfor), (IH Hrest). reflexivity.
Qed.

(** A string whose first reference without a value is [name]. *)
Lemma scan_unresolved env before name rest texts :
  Forall segment_ok (before ++ Ref name :: rest) ->
  Forall2 (stands_for env) before texts ->
  unresolved env name ->
  scan env Outside (render (before ++ Ref name :: rest))
  = Throw ("Environment variable not found: " +:+ name).
Proof.
  intros Hok Hall Hmissing. revert Hok.
  induction Hall as [|[t|other] text before' texts Hfor _ IH]; intros Hok;
    cbn [app] in Hok; apply Forall_cons in Hok as [Hseg Hrest].
  - destruct Hseg as [Hname Hfree]. cbn [app render].
    rewrite scan_ref by assumption.
    rewrite (env_value_unresolved _ _ Hmissing). reflexivity.
  - cbn [app render]. rewrite scan_text by exact Hseg. rewrite (IH Hrest). reflexivity.
  - destruct Hseg as [Hname Hfree]. cbn [app render].
    rewrite scan_ref by assumption.
    rewrite (env_value_stands_for _ _ _ Hfor), (IH Hrest). reflexivity.
Qed.

(** A reference to a name that [process.env] only inherits is replaced
    by the text of the inherited property; nothing is thrown. *)
Example resolveEnvVars_inherited_property :
  resolveEnvVars example_env (VStr "${toString}") =
    Ok (VStr "function toString() { [native code] }") /\
  resolveEnvVars example_env (VStr "${HOME}") =
    Throw "Environment variable not found: HOME".
Proof. split; reflexivity. Qed.

(** X26.  What [resolveEnvVars] does to a string made of plain text (no
    [$]) and references [${name}] (names not empty and without [}]).  When
    every reference stands for something (a variable that is set and not
    empty, or else a property [process.env] inherits), the result is the
    string with every reference replaced by what it stands for and the
    text around it kept; what is put in is not resolved again.  Otherwise
    the first reference, from the left, whose variable is set to the empty
    string or is neither set nor inherited throws "Environment variable
    not found: <name>". *)
Theorem X26_references_are_expanded (env : ProcessEnv) (segments : list Segment) :
  Forall segment_ok segments ->
  (forall texts,
     Forall2 (stands_for env) segments texts ->
     resolveEnvVars env (VStr (render segments)) = Ok (VStr (render (Text <$> texts)))) /\
  (forall before name rest texts,
     segments = before ++ Ref name :: rest ->
     Forall2 (stands_for env) before texts ->
     unresolved env name ->
     resolveEnvVars env (VStr (render segments))
     = Throw ("Environment variable not found: " +:+ name)).
Proof.
  intros Hok. split.
  - intros texts Hall. cbn [resolveEnvVars].
    rewrite (scan_resolved env segments texts Hok Hall). reflexivity.
  - intros before name rest texts -> Hall Hmissing. cbn [resolveEnvVars].
    rewrite (scan_unresolved env before name rest texts Hok Hall Hmissing). reflexivity.
Qed.

Lemma X26_witness :
  resolveEnvVars example_env (VStr (render [Text "Bearer "; Ref "KEY"; Text "!"]))
  = Ok (VStr "Bearer ${HOME}!") /\
  resolveEnvVars example_env (VStr (render [Text "Bearer "; Ref "KEY"; Ref "HOME"]))
  = Throw "Environment variable not found: HOME".
Proof.
  split.
  - apply (X26_references_are_expanded example_env
             [Text "Bearer "; Ref "KEY"; Text "!"]
             ltac:(repeat constructor; cbn; try discriminate; intuition discriminate)
           ) with (texts := ["Bearer "; "${HOME}"; "!"]).
    repeat constructor. discriminate.
  - apply (X26_references_are_expanded example_env
             [Text "Bearer "; Ref "KEY"; Ref "HOME"]
             ltac:(repeat constructor; cbn; try discriminate; intuition discriminate)
           ) with (before := [Text "Bearer "; Ref "KEY"]) (rest := [])
                  (texts := ["Bearer "; "${HOME}"]).
    + reflexivity.
    + repeat constructor. discriminate.
    + right. split; reflexivity.
Defined.

(** X27.  A configuration value in which no string has a [$] is returned
    unchanged by [resolveEnvVars], whatever the environment is: numbers,
    booleans and null always, strings, arrays and objects when they are
    free of [$] throughout. *)
Theorem X27_values_without_references_are_unchanged (env : ProcessEnv) (value : Value) :
  dollar_free value ->
  resolveEnvVars env value = Ok value.
Proof.
  induction value as [ | b | n | s | items IH | entries IH] using Value_induction;
    intros Hfree; try reflexivity.
  - cbn [resolveEnvVars]. cbn in Hfree.
    pose proof (scan_text env s EmptyString Hfree) as H.
    rewrite append_empty_r in H. rewrite H. cbn [scan pending prepend].
    rewrite append_empty_r. reflexivity.
  - rewrite resolveEnvVars_VArr. apply dollar_free_VArr in Hfree.
    rewrite (map_throwing_fixed _ dollar_free items IH Hfree). reflexivity.
  - rewrite resolveEnvVars_VObj. apply dollar_free_VObj in Hfree.
    rewrite (map_throwing_fixed _ (fun entry => dollar_free (snd entry)) entries);
      [reflexivity | | exact Hfree].
    eapply Forall_impl; [exact IH|]. intros [k v] Hv Hd. unfold resolve_entry.
    cbn [fst snd] in *. rewrite (Hv Hd). reflexivity.
Qed.

Lemma X27_witness :
  resolveEnvVars example_env
    (VObj [("httpPort", VNum 32701); ("models", VArr [VObj [("id", VStr "model-a")]])])
  = Ok (VObj [("httpPort", VNum 32701); ("models", VArr [VObj [("id", VStr "model-a")]])]).
Proof.
  apply X27_values_without_references_are_unchanged.
  cbn. intuition discriminate.
Defined.

(** X28.  The only error [resolveEnvVars] throws, at any depth of arrays
    and objects, is "Environment variable not found: <name>", for a name
    whose variable is set to the empty string or is neither set nor
    inherited; the launcher counts that message as a configuration
    error. *)
Theorem X28_resolveEnvVars_errors (env : ProcessEnv) (value : Value) (e : string) :
  resolveEnvVars env value = Throw e ->
  (exists varName,
     e = "Environment variable not found: " +:+ varName /\ unresolved env varName) /\
  isConfigError e = true.
Proof.
  intros Hthrow.
  assert (exists varName, env_value env varName = Throw e) as [varName Hvar].
  { revert e Hthrow.
    induction value as [ | b | n | s | items IH | entries IH] using Value_induction;
      intros e; try discriminate.
    - cbn [resolveEnvVars]. destruct (scan env Outside s) eqn:Hscan; [discriminate|].
      intros [= <-]. eapply scan_error, Hscan.
    - rewrite resolveEnvVars_VArr.
      destruct (map_throwing _ items) eqn:Hmap; [discriminate|].
      intros [= <-]. revert Hmap.
      apply (map_throwing_error _ (fun e => exists name, env_value env name = Throw e)).
      exact IH.
    - rewrite resolveEnvVars_VObj.
      destruct (map_throwing _ entries) eqn:Hmap; [discriminate|].
      intros [= <-]. revert Hmap.
      apply (map_throwing_error _ (fun e => exists name, env_value env name = Throw e)).
      eapply Forall_impl; [exact IH|]. intros [k v] Hv e'. unfold resolve_entry.
      cbn [fst snd] in *. destruct (resolveEnvVars env v) eqn:Hres; [discriminate|].
      intros [= <-]. apply Hv. reflexivity. }
  apply env_value_error in Hvar as [-> Hmissing]. split.
  - exists varName. split; [reflexivity | exact Hmissing].
  - unfold isConfigError.
    change ("Environment variable not found: " +:+ varName)
      with ("Environment variable not found" +:+ (": " +:+ varName)).
    rewrite includes_prefix. rewrite !orb_true_r. reflexivity.
Qed.

Lemma X28_witness :
  isConfigError "Environment variable not found: HOME" = true.
Proof.
  apply (X28_resolveEnvVars_errors example_env (VArr [VNum 1; VStr "${HOME}"])).
  reflexivity.
Defined.
